(** * Tempo core: board codec, board primitives, reconciliation, task store,
      projects and follow-ups, embedded from the TypeScript sources
      (vault-sync.ts, vault-tasks.ts, follow-up-tracker.ts).

    How the program is modelled.

    - Strings are sequences of 8-bit code units ([Stdlib.Strings.String]);
      this is the behaviour of the JavaScript code on strings whose UTF-16
      code units are all below 256.  In that range the regular-expression
      class [\s] and [String.prototype.trim] remove TAB, LF, VT, FF, CR, SPACE
      and NBSP, and the class [.] excludes LF and CR.
    - The file system is the Tasks folder: its regular markdown files in
      listing order, [Board.md] among them.  The functions thread it as a
      value.  Directories and other files are not represented.
    - A markdown file is what gray-matter returns for it: header data and
      content.  The board writer's raw text and gray-matter's split of it are
      modelled on the text itself; the YAML of task headers is not.
    - The current time ([new Date().toISOString()], [Date.now()]) is an
      argument of the function that reads it.
    - The folders [Tasks/Archive] and [Projects] are folders of their own,
      passed to the functions that use them; the follow-ups file is its text,
      or nothing when it does not exist.  The answers of the mail searches
      are arguments of the function that asks for them.
    - The parsing of dates ([new Date(s).getTime()]) is a parameter of the
      functions that compare or age dates. *)

From Stdlib Require Import List Bool Arith Lia ZArith.
From Stdlib Require Import Strings.Ascii Strings.String DecimalString.
From Stdlib Require Import Permutation.
Import ListNotations.

Open Scope list_scope.
Open Scope string_scope.

(* ================================================================== *)
(** ** Text: the string operations the sources rely on                 *)
(* ================================================================== *)

Module Text.

Definition LF : ascii := "010"%char.
Definition CR : ascii := "013"%char.
Definition QUOTE : ascii := "034"%char.

(** One-character strings that cannot be typed inside a literal. *)
Definition nl : string := String LF "".
Definition quote : string := String QUOTE "".

(** Line terminators: what the regular-expression [.] refuses. *)
Definition is_line_terminator (c : ascii) : bool :=
  Ascii.eqb c LF || Ascii.eqb c CR.

(** White space of [\s] and of [trim]. *)
Definition is_space (c : ascii) : bool :=
  match nat_of_ascii c with
  | 9 | 10 | 11 | 12 | 13 | 32 | 160 => true
  | _ => false
  end.

Fixpoint forall_chars (p : ascii -> bool) (s : string) : bool :=
  match s with
  | EmptyString => true
  | String c s' => p c && forall_chars p s'
  end.

(** [no_line_break s]: every character of [s] is accepted by [.]. *)
Definition no_line_break (s : string) : bool :=
  forall_chars (fun c => negb (is_line_terminator c)) s.

(** [no_lf s]: [s] is a single line for [split("\n")]. *)
Definition no_lf (s : string) : bool :=
  forall_chars (fun c => negb (Ascii.eqb c LF)) s.

Definition is_empty (s : string) : bool :=
  match s with EmptyString => true | _ => false end.

(** [str.startsWith(p)], returning what follows the prefix. *)
Fixpoint strip_prefix (p s : string) : option string :=
  match p with
  | EmptyString => Some s
  | String a p' =>
      match s with
      | EmptyString => None
      | String b s' => if Ascii.eqb a b then strip_prefix p' s' else None
      end
  end.

Definition starts_with (p s : string) : bool :=
  match strip_prefix p s with Some _ => true | None => false end.

(** What follows the first occurrence of [pat] in [s] ([indexOf] and
    [slice] together); [None] when [pat] does not occur. *)
Fixpoint after_first (pat s : string) : option string :=
  match strip_prefix pat s with
  | Some r => Some r
  | None =>
      match s with
      | EmptyString => None
      | String _ s' => after_first pat s'
      end
  end.

Fixpoint trim_start (s : string) : string :=
  match s with
  | EmptyString => EmptyString
  | String c s' => if is_space c then trim_start s' else s
  end.

Fixpoint trim_end (s : string) : string :=
  match s with
  | EmptyString => EmptyString
  | String c s' =>
      let r := trim_end s' in
      if is_space c && is_empty r then EmptyString else String c r
  end.

(** [s.trim()]. *)
Definition trim (s : string) : string := trim_end (trim_start s).

(** [s.split("\n")]: never the empty list. *)
Fixpoint split_lines (s : string) : list string :=
  match s with
  | EmptyString => [EmptyString]
  | String c s' =>
      if Ascii.eqb c LF then EmptyString :: split_lines s'
      else match split_lines s' with
           | l :: ls => String c l :: ls
           | [] => [String c EmptyString]
           end
  end.

(** [lines.join("\n")]. *)
Fixpoint join_lines (ls : list string) : string :=
  match ls with
  | [] => EmptyString
  | [l] => l
  | l :: ls' => l ++ nl ++ join_lines ls'
  end.

(** The lazy group [(.+?)] followed by the literal [stop]: the shortest
    non-empty run of non-line-terminators after which [stop] occurs.
    Returns the captured run and what follows [stop]. *)
Fixpoint lazy_until (stop s : string) : option (string * string) :=
  match s with
  | EmptyString => None
  | String c s' =>
      if is_line_terminator c then None
      else match strip_prefix stop s' with
           | Some r => Some (String c EmptyString, r)
           | None =>
               match lazy_until stop s' with
               | Some (p, r) => Some (String c p, r)
               | None => None
               end
           end
  end.

(** JavaScript truthiness of an optional string: [x || undefined]. *)
Definition truthy (x : option string) : option string :=
  match x with
  | Some s => if is_empty s then None else Some s
  | None => None
  end.

Definition is_truthy (x : option string) : bool :=
  match truthy x with Some _ => true | None => false end.

(** [s.toLowerCase()] on 8-bit code units: A-Z and the Latin-1 capitals
    (all of 192..222 but the multiplication sign 215) move up by 32. *)
Definition lower_char (c : ascii) : ascii :=
  let n := nat_of_ascii c in
  if (((65 <=? n) && (n <=? 90))
      || ((192 <=? n) && (n <=? 222) && negb (n =? 215)))%nat
  then ascii_of_nat (n + 32) else c.

Fixpoint toLowerCase (s : string) : string :=
  match s with
  | EmptyString => EmptyString
  | String c s' => String (lower_char c) (toLowerCase s')
  end.

End Text.

Import Text.

(* ================================================================== *)
(** ** Board: data model and codec (vault-sync.ts)                     *)
(* ================================================================== *)

Inductive Status := backlog | next | working | blocked | done | archived.
Inductive Assignee := me | assistant.
Inductive Priority := low | medium | high.

Definition Status_eqb (a b : Status) : bool :=
  match a, b with
  | backlog, backlog | next, next | working, working
  | blocked, blocked | done, done | archived, archived => true
  | _, _ => false
  end.

(** An entry of [BoardColumn.items]. *)
Record BoardItem := mkItem {
  title : string;
  completed : bool;
  date : option string
}.

Record BoardColumn := mkColumn {
  name : string;
  items : list BoardItem
}.

(** [STATUS_TO_COLUMN]; the [|| "Backlog"] fallback at its use sites is
    never taken for a value of the [status] type. *)
Definition STATUS_TO_COLUMN (s : Status) : string :=
  match s with
  | backlog => "Backlog"
  | next => "Next"
  | working => "Working"
  | blocked => "Blocked"
  | done => "Done"
  | archived => "Done"
  end.

Module Codec.

(** [if (s[0] === c) s = s.slice(1)]. *)
Definition strip_one (c : ascii) (s : string) : string :=
  match s with
  | String a s' => if Ascii.eqb a c then s' else s
  | EmptyString => s
  end.

(** gray-matter's [matter(raw).content] (third-party library): when [raw]
    opens with the delimiter [---] (and not with four dashes), the content
    is what follows the first later line break that is followed by [---],
    less one leading CR and one leading LF; without a closing delimiter the
    content is empty.  The header's key/value data is not read by the board
    code. *)
Definition matter_content (raw : string) : string :=
  match strip_prefix "---" raw with
  | None => raw
  | Some str =>
      if starts_with "-" str then raw
      else match after_first (nl ++ "---") str with
           | None => EmptyString
           | Some rest => strip_one LF (strip_one CR rest)
           end
  end.

(** [line.match(/^## (.+)$/)], giving [columnMatch[1].trim()]. *)
Definition match_column (line : string) : option string :=
  match strip_prefix "## " line with
  | Some r =>
      if negb (is_empty r) && no_line_break r then Some (trim r) else None
  | None => None
  end.

(** The optional group [(?:\s*@\{(.+?)\})?] applied to what follows the
    title's closing brackets; [itemMatch[3] || undefined]. *)
Definition match_date (rest : string) : option string :=
  match strip_prefix "@{" (trim_start rest) with
  | Some r =>
      match lazy_until "}" r with
      | Some (d, _) => Some d
      | None => None
      end
  | None => None
  end.

(** [line.match(/^- \[([ x])\] \[\[(.+?)\]\](?:\s*@\{(.+?)\})?/)]. *)
Definition match_item (line : string) : option BoardItem :=
  match strip_prefix "- [" line with
  | Some (String c r) =>
      if Ascii.eqb c " " || Ascii.eqb c "x" then
        match strip_prefix "] [[" r with
        | Some r' =>
            match lazy_until "]]" r' with
            | Some (t, rest) =>
                Some (mkItem t (Ascii.eqb c "x") (match_date rest))
            | None => None
            end
        | None => None
        end
      else None
  | _ => None
  end.

(** The loop of [parseBoardFile]: [columns] is the array built so far,
    [cur] is [currentColumn]. *)
Definition flush (columns : list BoardColumn) (cur : option BoardColumn)
  : list BoardColumn :=
  match cur with
  | Some c => (columns ++ [c])%list
  | None => columns
  end.

Fixpoint parse_lines (ls : list string) (columns : list BoardColumn)
    (cur : option BoardColumn) : list BoardColumn :=
  match ls with
  | [] => flush columns cur
  | line :: ls' =>
      match match_column line with
      | Some n => parse_lines ls' (flush columns cur) (Some (mkColumn n []))
      | None =>
          match cur with
          | None => parse_lines ls' columns None
          | Some c =>
              match match_item line with
              | Some it =>
                  parse_lines ls' columns
                    (Some (mkColumn (name c) (items c ++ [it])%list))
              | None => parse_lines ls' columns cur
              end
          end
      end
  end.

(** [parseBoardFile] on the content gray-matter hands over. *)
Definition parseBoardContent (content : string) : list BoardColumn :=
  parse_lines (split_lines content) [] None.

(** [parseBoardFile] on the raw text of an existing board file. *)
Definition parseBoardText (raw : string) : list BoardColumn :=
  parseBoardContent (matter_content raw).

(** The line [writeBoardFile] pushes for one item. *)
Definition item_line (it : BoardItem) : string :=
  let check := if completed it then "x" else " " in
  let datePart :=
    match truthy (date it) with
    | Some d => " @{" ++ d ++ "}"
    | None => ""
    end in
  "- [" ++ check ++ "] [[" ++ title it ++ "]]" ++ datePart.

Definition column_lines (col : BoardColumn) : list string :=
  (("## " ++ name col)%string :: "" :: map item_line (items col)
   ++ (if String.eqb (name col) "Done" then [""; "**Complete**"] else [])
   ++ [""])%list.

Definition header_lines : list string :=
  ["---"; "kanban-plugin: basic"; "---"; ""].

(** The text [writeBoardFile] stores. *)
Definition writeBoardText (columns : list BoardColumn) : string :=
  join_lines (header_lines ++ List.concat (map column_lines columns))%list.

End Codec.

Import Codec.

(* ================================================================== *)
(** ** Task files and the Tasks folder                                 *)
(* ================================================================== *)

(** [TaskFrontmatter]. *)
Record TaskFrontmatter := mkFrontmatter {
  status : Status;
  assignee : Assignee;
  priority : Priority;
  project : option string;
  due_date : option string;
  blocked_by : option string;
  follow_up_date : option string;
  created_at : string;
  completed_at : option string;
  tags : option (list string)
}.

(** [Partial<TaskFrontmatter>]: the header data gray-matter returns for a
    file, any key of which may be missing. *)
Module Partial.
Record t := mk {
  status : option Status;
  assignee : option Assignee;
  priority : option Priority;
  project : option string;
  due_date : option string;
  blocked_by : option string;
  follow_up_date : option string;
  created_at : option string;
  completed_at : option string;
  tags : option (list string)
}.
Definition empty : t :=
  mk None None None None None None None None None None.
End Partial.

(** A markdown file, seen through gray-matter (third-party library): the
    header data and the content after the header.  [matter.stringify(c, d)]
    stores a file that [matter] reads back as data [d] and content [c]; a
    file whose header is not valid YAML makes [matter] raise and has no
    counterpart here. *)
Record MdFile := mkFile {
  data : Partial.t;
  content : string
}.

(** The regular [*.md] files of the Tasks folder in [readdirSync] order, each
    under its name without the extension; [Board.md] is the entry
    ["Board"]. *)
Definition Folder := list (string * MdFile).

Module Fs.

(** [fs.existsSync] and [fs.readFileSync] of [Tasks/<stem>.md]. *)
Fixpoint read (stem : string) (dir : Folder) : option MdFile :=
  match dir with
  | [] => None
  | (k, f) :: dir' => if String.eqb k stem then Some f else read stem dir'
  end.

Definition exists_ (stem : string) (dir : Folder) : bool :=
  match read stem dir with Some _ => true | None => false end.

(** [fs.writeFileSync]: an existing file keeps its place in the listing, a
    new one is listed last. *)
Fixpoint write (stem : string) (f : MdFile) (dir : Folder) : Folder :=
  match dir with
  | [] => [(stem, f)]
  | (k, g) :: dir' =>
      if String.eqb k stem then (k, f) :: dir'
      else (k, g) :: write stem f dir'
  end.

(** [fs.unlinkSync]. *)
Definition unlink (stem : string) (dir : Folder) : Folder :=
  filter (fun e => negb (String.eqb (fst e) stem)) dir.

End Fs.

(* ================================================================== *)
(** ** Board primitives (vault-sync.ts)                                *)
(* ================================================================== *)

Definition BOARD : string := "Board".

Definition has_title (t : string) (its : list BoardItem) : bool :=
  existsb (fun i => String.eqb (title i) t) its.

Definition parseBoardFile (dir : Folder) : list BoardColumn :=
  match Fs.read BOARD dir with
  | None => []
  | Some f => parseBoardContent (content f)
  end.

(** What gray-matter reads back from a text the board writer stored: the
    writer's header carries none of the task keys. *)
Definition board_file (raw : string) : MdFile :=
  mkFile Partial.empty (matter_content raw).

Definition writeBoardFile (dir : Folder) (columns : list BoardColumn) : Folder :=
  Fs.write BOARD (board_file (writeBoardText columns)) dir.

(** [ensureVaultStructure]: only the board skeleton is a file of the Tasks
    folder; the directories it creates hold no task file. *)
Definition defaultBoard : string :=
  join_lines
    [ "---"; "kanban-plugin: basic"; "---"; "";
      "## Backlog"; ""; "";
      "## Next"; ""; "";
      "## Working"; ""; "";
      "## Blocked"; ""; "";
      "## Done"; ""; "**Complete**"; "" ].

Definition ensureVaultStructure (dir : Folder) : Folder :=
  if Fs.exists_ BOARD dir then dir
  else Fs.write BOARD (board_file defaultBoard) dir.

(** The in-memory mutations the primitives perform between parsing and
    writing. *)
Fixpoint update_first (n : string) (f : BoardColumn -> BoardColumn)
    (columns : list BoardColumn) : list BoardColumn :=
  match columns with
  | [] => []
  | c :: cs =>
      if String.eqb (name c) n then f c :: cs
      else c :: update_first n f cs
  end.

Definition has_column (n : string) (columns : list BoardColumn) : bool :=
  existsb (fun c => String.eqb (name c) n) columns.

Definition push_item (t : string) (st : Status) (dueDate : option string)
    (column : BoardColumn) : BoardColumn :=
  if has_title t (items column) then column
  else mkColumn (name column)
         (items column
          ++ [mkItem t (Status_eqb st done || Status_eqb st archived) dueDate])%list.

Definition add_item (t : string) (st : Status) (dueDate : option string)
    (columns : list BoardColumn) : list BoardColumn :=
  let targetCol := STATUS_TO_COLUMN st in
  let columns :=
    if has_column targetCol columns then columns
    else (columns ++ [mkColumn targetCol []])%list in
  update_first targetCol (push_item t st dueDate) columns.

Definition remove_item (t : string) (columns : list BoardColumn)
  : list BoardColumn :=
  map (fun col =>
         mkColumn (name col)
           (filter (fun i => negb (String.eqb (title i) t)) (items col)))
      columns.

Definition rename_item (oldTitle newTitle : string)
    (columns : list BoardColumn) : list BoardColumn :=
  map (fun col =>
         mkColumn (name col)
           (map (fun i =>
                   if String.eqb (title i) oldTitle
                   then mkItem newTitle (completed i) (date i) else i)
                (items col)))
      columns.

Definition addToBoard (dir : Folder) (t : string) (st : Status)
    (dueDate : option string) : Folder :=
  writeBoardFile dir (add_item t st dueDate (parseBoardFile dir)).

Definition removeFromBoard (dir : Folder) (t : string) : Folder :=
  writeBoardFile dir (remove_item t (parseBoardFile dir)).

Definition moveOnBoard (dir : Folder) (t : string) (newStatus : Status)
    (dueDate : option string) : Folder :=
  addToBoard (removeFromBoard dir t) t newStatus dueDate.

Definition renameOnBoard (dir : Folder) (oldTitle newTitle : string) : Folder :=
  writeBoardFile dir (rename_item oldTitle newTitle (parseBoardFile dir)).

(* ================================================================== *)
(** ** Task files (vault-sync.ts)                                      *)
(* ================================================================== *)

Module ParsedTask.
Record t := mk {
  filename : string;
  title : string;
  frontmatter : TaskFrontmatter;
  body : string;
  filePath : string   (* the stem of [Tasks/<stem>.md] *)
}.
End ParsedTask.

(** [path.basename(filePath, ".md")] of [Tasks/<stem>.md]: Node keeps the
    whole name when stripping the extension would leave nothing. *)
Definition basename_md (stem : string) : string :=
  if is_empty stem then ".md" else stem.

Definition or_default {A} (x : option A) (d : A) : A :=
  match x with Some a => a | None => d end.

(** [parseTaskFile]; [now] is [new Date().toISOString()]. *)
Definition parseTaskFile (dir : Folder) (now : string) (stem : string)
  : option ParsedTask.t :=
  match Fs.read stem dir with
  | None => None
  | Some file =>
      let fm := data file in
      let frontmatter :=
        {| status := or_default (Partial.status fm) backlog;
           assignee := or_default (Partial.assignee fm) me;
           priority := or_default (Partial.priority fm) medium;
           project := truthy (Partial.project fm);
           due_date := truthy (Partial.due_date fm);
           blocked_by := truthy (Partial.blocked_by fm);
           follow_up_date := truthy (Partial.follow_up_date fm);
           created_at := or_default (truthy (Partial.created_at fm)) now;
           completed_at := truthy (Partial.completed_at fm);
           tags := Some (or_default (Partial.tags fm) []) |} in
      Some (ParsedTask.mk (basename_md stem) (basename_md stem) frontmatter
              (trim (content file)) stem)
  end.

(** [writeTaskFile]: the data is [cleanFm], the content is the first
    argument of [matter.stringify]. *)
Definition writeTaskFile (dir : Folder) (stem : string)
    (frontmatter : TaskFrontmatter) (body : string) : Folder :=
  let cleanFm :=
    {| Partial.status := Some (status frontmatter);
       Partial.assignee := Some (assignee frontmatter);
       Partial.priority := Some (priority frontmatter);
       Partial.project := truthy (project frontmatter);
       Partial.due_date := truthy (due_date frontmatter);
       Partial.blocked_by := truthy (blocked_by frontmatter);
       Partial.follow_up_date := truthy (follow_up_date frontmatter);
       Partial.created_at := Some (created_at frontmatter);
       Partial.completed_at := truthy (completed_at frontmatter);
       Partial.tags :=
         match tags frontmatter with
         | Some (x :: l) => Some (x :: l)
         | _ => None
         end |} in
  Fs.write stem
    (mkFile cleanFm (if is_empty body then nl else nl ++ body ++ nl)) dir.

(** [listTaskFiles]: every [*.md] of the folder but [Board.md]. *)
Definition listTaskFiles (dir : Folder) (now : string) : list ParsedTask.t :=
  flat_map
    (fun e =>
       if String.eqb (fst e) BOARD then []
       else match parseTaskFile dir now (fst e) with
            | Some task => [task]
            | None => []
            end)
    dir.

(* ================================================================== *)
(** ** Reconciliation (vault-sync.ts, syncBoardWithFiles)              *)
(* ================================================================== *)

Record SyncCounts := mkCounts {
  added : nat;
  moved : nat;
  removed : nat
}.

Definition mem (t : string) (set : list string) : bool :=
  existsb (String.eqb t) set.

(** The titles of all items, column after column. *)
Definition board_titles (columns : list BoardColumn) : list string :=
  flat_map (fun col => map title (items col)) columns.

(** [currentCol]: the name of the first column holding the title. *)
Definition current_column (t : string) (columns : list BoardColumn)
  : option string :=
  option_map name (find (fun col => has_title t (items col)) columns).

(** One turn of the loop over [tasks]. *)
Definition sync_task (boardTitles : list string)
    (st : Folder * nat * nat) (task : ParsedTask.t) : Folder * nat * nat :=
  let '(dir, added, moved) := st in
  let fm := ParsedTask.frontmatter task in
  if negb (mem (ParsedTask.title task) boardTitles) then
    (addToBoard dir (ParsedTask.title task) (status fm) (due_date fm),
     S added, moved)
  else
    let expectedCol := STATUS_TO_COLUMN (status fm) in
    match current_column (ParsedTask.title task) (parseBoardFile dir) with
    | Some currentCol =>
        if negb (is_empty currentCol) && negb (String.eqb currentCol expectedCol)
        then (moveOnBoard dir (ParsedTask.title task) (status fm) (due_date fm),
              added, S moved)
        else st
    | None => st
    end.

(** One turn of the pruning loop over the items of [finalColumns]. *)
Definition prune_item (fileTitles : list string)
    (st : Folder * nat) (t : string) : Folder * nat :=
  let '(dir, removed) := st in
  if negb (mem t fileTitles) then (removeFromBoard dir t, S removed)
  else st.

Definition syncBoardWithFiles (dir : Folder) (now : string)
  : Folder * SyncCounts :=
  let dir := ensureVaultStructure dir in
  let tasks := listTaskFiles dir now in
  let columns := parseBoardFile dir in
  let boardTitles := board_titles columns in
  let fileTitles := map ParsedTask.title tasks in
  let '(dir, added, moved) :=
    fold_left (sync_task boardTitles) tasks (dir, 0, 0) in
  let finalColumns := parseBoardFile dir in
  let '(dir, removed) :=
    fold_left (prune_item fileTitles) (board_titles finalColumns) (dir, 0) in
  (dir, mkCounts added moved removed).

(** [sanitizeFilename]. *)
Definition is_unsafe (c : ascii) : bool :=
  match nat_of_ascii c with
  | 60 | 62 | 58 | 34 | 47 | 92 | 124 | 63 | 42 => true
  | _ => false
  end.

Fixpoint remove_unsafe (s : string) : string :=
  match s with
  | EmptyString => EmptyString
  | String c s' =>
      if is_unsafe c then remove_unsafe s' else String c (remove_unsafe s')
  end.

(** [replace(/\s+/g, " ")]; [inRun] tells that the previous character
    was white space. *)
Fixpoint collapse_spaces (inRun : bool) (s : string) : string :=
  match s with
  | EmptyString => EmptyString
  | String c s' =>
      if is_space c then
        if inRun then collapse_spaces true s'
        else String " " (collapse_spaces true s')
      else String c (collapse_spaces false s')
  end.

Definition sanitizeFilename (t : string) : string :=
  trim (collapse_spaces false (remove_unsafe t)).

(* ================================================================== *)
(** ** Task operations (vault-tasks.ts)                                *)
(* ================================================================== *)

Module TaskRecord.
Record t := mk {
  title : string;
  filename : string;
  status : Status;
  assignee : Assignee;
  priority : Priority;
  project : option string;
  due_date : option string;
  blocked_by : option string;
  follow_up_date : option string;
  created_at : string;
  completed_at : option string;
  tags : list string;
  description : option string
}.
End TaskRecord.

Definition taskToRecord (task : ParsedTask.t) : TaskRecord.t :=
  let fm := ParsedTask.frontmatter task in
  {| TaskRecord.title := ParsedTask.title task;
     TaskRecord.filename := ParsedTask.filename task;
     TaskRecord.status := status fm;
     TaskRecord.assignee := assignee fm;
     TaskRecord.priority := priority fm;
     TaskRecord.project := truthy (project fm);
     TaskRecord.due_date := truthy (due_date fm);
     TaskRecord.blocked_by := truthy (blocked_by fm);
     TaskRecord.follow_up_date := truthy (follow_up_date fm);
     TaskRecord.created_at := created_at fm;
     TaskRecord.completed_at := truthy (completed_at fm);
     TaskRecord.tags := or_default (tags fm) [];
     TaskRecord.description := truthy (Some (ParsedTask.body task)) |}.

(** The payloads handed to [jsonResult]: an error description, or the
    flag [created]/[updated] with the task record (with the bare title when
    the file cannot be read back). *)
Inductive ToolResult :=
| ErrorResult (error : string)
| CreatedResult (task : TaskRecord.t + string)
| UpdatedResult (task : TaskRecord.t + string).

Definition findTaskByTitle (dir : Folder) (now : string) (taskId : string)
  : option ParsedTask.t :=
  let sanitized := sanitizeFilename taskId in
  if Fs.exists_ sanitized dir then parseTaskFile dir now sanitized
  else
    find (fun t => String.eqb (toLowerCase (ParsedTask.title t))
                              (toLowerCase taskId))
         (listTaskFiles dir now).

Module CreateParams.
Record t := mk {
  title : string;
  description : option string;
  assignee : option Assignee;
  status : option Status;
  priority : option Priority;
  project : option string;
  dueDate : option string;
  blockedBy : option string;
  followUpDate : option string
}.
End CreateParams.

Definition createTask (dir : Folder) (now : string) (params : CreateParams.t)
  : Folder * ToolResult :=
  let dir := ensureVaultStructure dir in
  let title := sanitizeFilename (CreateParams.title params) in
  if Fs.exists_ title dir then
    (dir, ErrorResult ("Task " ++ quote ++ title ++ quote ++ " already exists"))
  else
    let frontmatter :=
      {| status := or_default (CreateParams.status params) backlog;
         assignee := or_default (CreateParams.assignee params) me;
         priority := or_default (CreateParams.priority params) medium;
         project := CreateParams.project params;
         due_date := CreateParams.dueDate params;
         blocked_by := CreateParams.blockedBy params;
         follow_up_date := CreateParams.followUpDate params;
         created_at := now;
         completed_at := None;
         tags := Some [] |} in
    let dir := writeTaskFile dir title frontmatter
                 (or_default (truthy (CreateParams.description params)) "") in
    let dir := addToBoard dir title (status frontmatter)
                 (CreateParams.dueDate params) in
    (dir,
     CreatedResult
       match parseTaskFile dir now title with
       | Some task => inl (taskToRecord task)
       | None => inr title
       end).

Module UpdateParams.
Record t := mk {
  taskId : string;
  title : option string;
  description : option string;
  assignee : option Assignee;
  status : option Status;
  priority : option Priority;
  project : option string;
  dueDate : option string;
  blockedBy : option string;
  followUpDate : option string
}.
End UpdateParams.

(** [if (p !== undefined) fm.x = p || undefined]. *)
Definition overwrite (p old : option string) : option string :=
  match p with
  | Some _ => truthy p
  | None => old
  end.

Definition is_done (s : option Status) : bool :=
  match s with Some done => true | _ => false end.

Definition updateTask (dir : Folder) (now : string) (params : UpdateParams.t)
  : Folder * ToolResult :=
  match findTaskByTitle dir now (UpdateParams.taskId params) with
  | None =>
      (dir, ErrorResult ("Task " ++ quote ++ UpdateParams.taskId params
                         ++ quote ++ " not found"))
  | Some task =>
      let old := ParsedTask.frontmatter task in
      let new_project := overwrite (UpdateParams.project params) (project old) in
      let new_completed :=
        if is_done (UpdateParams.status params)
           && negb (is_truthy (completed_at old))
        then Some now else completed_at old in
      let fm :=
        {| status := or_default (UpdateParams.status params) (status old);
           assignee := or_default (UpdateParams.assignee params) (assignee old);
           priority := or_default (UpdateParams.priority params) (priority old);
           project := new_project;
           due_date := overwrite (UpdateParams.dueDate params) (due_date old);
           blocked_by :=
             overwrite (UpdateParams.blockedBy params) (blocked_by old);
           follow_up_date :=
             overwrite (UpdateParams.followUpDate params) (follow_up_date old);
           created_at := created_at old;
           completed_at := new_completed;
           tags := tags old |} in
      let body :=
        or_default (UpdateParams.description params) (ParsedTask.body task) in
      let oldTitle := ParsedTask.title task in
      let renamed :=
        match truthy (UpdateParams.title params) with
        | Some t => negb (String.eqb t oldTitle)
        | None => false
        end in
      let newTitle :=
        sanitizeFilename (or_default (UpdateParams.title params) "") in
      let dir :=
        if renamed then
          renameOnBoard
            (Fs.unlink (ParsedTask.filePath task)
               (writeTaskFile dir newTitle fm body))
            oldTitle newTitle
        else writeTaskFile dir (ParsedTask.filePath task) fm body in
      let currentPath :=
        if renamed then newTitle else ParsedTask.filePath task in
      let status_changed :=
        match UpdateParams.status params with
        | Some s => negb (Status_eqb s (status old))
        | None => false
        end in
      let dir :=
        if status_changed then
          moveOnBoard dir
            (if is_truthy (UpdateParams.title params) then newTitle
             else oldTitle)
            (status fm) (due_date fm)
        else dir in
      (dir,
       UpdatedResult
         match parseTaskFile dir now currentPath with
         | Some updated => inl (taskToRecord updated)
         | None => inr (UpdateParams.taskId params)
         end)
  end.

(** A call that names only the task and a status, as [completeTask] makes. *)
Definition status_update (taskId : string) (s : Status) : UpdateParams.t :=
  UpdateParams.mk taskId None None None (Some s) None None None None None.

Definition completeTask (dir : Folder) (now : string) (taskId : string)
  : Folder * ToolResult :=
  updateTask dir now (status_update taskId done).

(* ================================================================== *)
(** ** Follow-up staleness (follow-up-tracker.ts)                      *)
(* ================================================================== *)

Module FollowUp.

Inductive FollowUpType := needs_reply | awaiting_reply | needs_action.

Definition OVERDUE_THRESHOLDS (ty : FollowUpType) : Z :=
  match ty with
  | needs_reply => 1
  | awaiting_reply => 3
  | needs_action => 2
  end.

Definition MS_PER_DAY : Z := 1000 * 60 * 60 * 24.

(** [daysAgo]: [now] is [Date.now()], [d] is [new Date(dateStr).getTime()],
    both in milliseconds; [None] is the NaN of an invalid date.  The
    operands are integers far below 2^53, on which the floating-point
    subtraction, division and [Math.floor] give the integer floor. *)
Definition daysAgo (now : Z) (d : option Z) : option Z :=
  match d with
  | Some t => Some ((now - t) / MS_PER_DAY)%Z
  | None => None
  end.

(** [isOverdue]: a comparison with NaN is false. *)
Definition isOverdue (ty : FollowUpType) (now : Z) (d : option Z) : bool :=
  match daysAgo now d with
  | Some n => (OVERDUE_THRESHOLDS ty <? n)%Z
  | None => false
  end.

(** The fields of a [FollowUp] record that [refreshFollowUps] derives from
    the message date; a message without a date is dated now. *)
Record FollowUp := mkFollowUp {
  f_type : FollowUpType;
  f_daysAgo : option Z;
  f_overdue : bool
}.

Definition followUp (ty : FollowUpType) (now : Z) (msgDate : option (option Z))
  : FollowUp :=
  let d := match msgDate with Some d => d | None => Some now end in
  mkFollowUp ty (daysAgo now d) (isOverdue ty now d).

End FollowUp.

(* ================================================================== *)
(** ** What a board line can carry                                     *)
(* ================================================================== *)

(** [captured stop p]: the lazy group reads [p] back from [p] followed by
    [stop]; [p] is then non-empty, free of line breaks, and [stop] does not
    occur in it early enough to end the group before its last character. *)
Definition captured (stop p : string) : bool :=
  match lazy_until stop (p ++ stop) with
  | Some (q, r) => String.eqb q p && is_empty r
  | None => false
  end.

(** A title that [[[title]]] gives back. *)
Definition line_safe_title (t : string) : bool := captured "]]" t.

(** A date that [@{date}] gives back, or no date at all. *)
Definition line_safe_date (d : option string) : bool :=
  match d with
  | None => true
  | Some s => captured "}" s
  end.

(** A column name that [## name] gives back. *)
Definition line_safe_name (n : string) : bool :=
  negb (is_empty n) && no_line_break n && String.eqb (trim n) n.

Definition item_ok (it : BoardItem) : bool :=
  line_safe_title (title it) && line_safe_date (date it).

Definition column_ok (c : BoardColumn) : bool :=
  line_safe_name (name c) && forallb item_ok (items c).

Definition board_ok (columns : list BoardColumn) : bool :=
  forallb column_ok columns.

Definition cur_ok (cur : option BoardColumn) : bool :=
  match cur with Some c => column_ok c | None => true end.

(** A header line whose name is blank: [## ] followed by white space only.
    The parser reads it as a column with the empty name, which the writer
    cannot emit as a header. *)
Definition blank_header (line : string) : bool :=
  match match_column line with
  | Some n => is_empty n
  | None => false
  end.

(** Well-formed board text: every header carries a name. *)
Definition well_formed_content (content : string) : bool :=
  forallb (fun l => negb (blank_header l)) (split_lines content).


(** The board file of a folder is well-formed, or missing. *)
Definition well_formed_board (dir : Folder) : bool :=
  match Fs.read BOARD dir with
  | None => true
  | Some f => well_formed_content (content f)
  end.

(* ================================================================== *)
(** ** Observations on a board                                         *)
(* ================================================================== *)

(** How many items of a column, and of the whole board, carry a title. *)
Definition count_in (t : string) (its : list BoardItem) : nat :=
  List.length (filter (fun i => String.eqb (title i) t) its).

Definition count_title (t : string) (columns : list BoardColumn) : nat :=
  list_sum (map (fun c => count_in t (items c)) columns).

(** The names of the columns that hold a title, in board order. *)
Definition holders (t : string) (columns : list BoardColumn) : list string :=
  map name (filter (fun c => has_title t (items c)) columns).

(** The column [columns.find((c) => c.name === targetCol)] picks. *)
Definition target_column (st : Status) (columns : list BoardColumn)
  : option BoardColumn :=
  find (fun c => String.eqb (name c) (STATUS_TO_COLUMN st)) columns.

Definition target_count (t : string) (st : Status)
    (columns : list BoardColumn) : nat :=
  match target_column st columns with
  | Some c => count_in t (items c)
  | None => 0
  end.

Definition on_board (t : string) (columns : list BoardColumn) : bool :=
  mem t (board_titles columns).

(* ================================================================== *)
(** ** The statements under test, and sample folders                   *)
(* ================================================================== *)

(** Adding the same title and status twice leaves exactly one item with
    that title, in the column the status maps to. *)
Definition add_twice_claim (dir : Folder) (t : string) (st : Status)
    (d : option string) : Prop :=
  let after := parseBoardFile (addToBoard (addToBoard dir t st d) t st d) in
  count_title t after = 1 /\ target_count t st after = 1.

(** Removing a title takes away one item, the first, and keeps the other
    items with that title. *)
Definition remove_first_claim (dir : Folder) (t : string) : Prop :=
  count_title t (parseBoardFile (removeFromBoard dir t))
  = count_title t (parseBoardFile dir) - 1.

(** Renaming keeps every column, every position, every flag and every date,
    and changes the old title into the new one and nothing else. *)
Definition rename_claim (dir : Folder) (oldTitle newTitle : string) : Prop :=
  Forall2
    (fun c c' =>
       name c' = name c
       /\ Forall2
            (fun i i' =>
               completed i' = completed i /\ date i' = date i
               /\ title i' = if (title i =? oldTitle)%string then newTitle
                             else title i)
            (items c) (items c'))
    (parseBoardFile dir)
    (parseBoardFile (renameOnBoard dir oldTitle newTitle)).

(** [expectedCol]. *)
Definition expected (task : ParsedTask.t) : string :=
  STATUS_TO_COLUMN (status (ParsedTask.frontmatter task)).

(** The first column that holds the task's title is not the one its status
    maps to. *)
Definition misplaced (columns : list BoardColumn) (task : ParsedTask.t)
  : bool :=
  match current_column (ParsedTask.title task) columns with
  | Some c => negb (String.eqb c (expected task))
  | None => false
  end.

(** One sync call puts every task in exactly one column, the one its status
    maps to, leaves no item whose title is not a task's, and returns how many
    tasks it added, how many it moved and how many items it pruned. *)
Definition sync_claim (dir : Folder) (now : string) : Prop :=
  let tasks := listTaskFiles dir now in
  let before := parseBoardFile (ensureVaultStructure dir) in
  let result := syncBoardWithFiles dir now in
  let after := parseBoardFile (fst result) in
  (forall task, In task tasks ->
     holders (ParsedTask.title task) after = [expected task])
  /\ (forall t, In t (board_titles after) ->
               In t (map ParsedTask.title tasks))
  /\ snd result
     = mkCounts
         (List.length
            (filter (fun task => negb (on_board (ParsedTask.title task) before))
               tasks))
         (List.length (filter (misplaced before) tasks))
         (List.length
            (filter (fun t => negb (mem t (map ParsedTask.title tasks)))
               (board_titles before))).

(** The task's title and due date are such as a board line can carry. *)
Definition task_line_safe (task : ParsedTask.t) : bool :=
  line_safe_title (ParsedTask.title task)
  && line_safe_date (due_date (ParsedTask.frontmatter task)).

(** The board does not hold the task's title both first in the column its
    status maps to and in a further column. *)
Definition reconcilable (columns : list BoardColumn) (task : ParsedTask.t)
  : bool :=
  match holders (ParsedTask.title task) columns with
  | n :: _ :: _ => negb (String.eqb n (expected task))
  | _ => true
  end.


(** The frontmatter [updateTask] writes when the call names only a
    status. *)
Definition updated_frontmatter (task : ParsedTask.t) (now : string)
    (s : Status) : TaskFrontmatter :=
  let old := ParsedTask.frontmatter task in
  {| status := s;
     assignee := assignee old;
     priority := priority old;
     project := project old;
     due_date := due_date old;
     blocked_by := blocked_by old;
     follow_up_date := follow_up_date old;
     created_at := created_at old;
     completed_at :=
       if Status_eqb s done && negb (is_truthy (completed_at old))
       then Some now else completed_at old;
     tags := tags old |}.

(** What the header of a stored task file says about completion. *)
Definition stored_completed_at (dir : Folder) (stem : string)
  : option string :=
  match Fs.read stem dir with
  | Some f => truthy (Partial.completed_at (data f))
  | None => None
  end.

Definition bare_file (text : string) : MdFile := mkFile Partial.empty text.

Definition title_only (t : string) : CreateParams.t :=
  CreateParams.mk t None None None None None None None None.

(** The file a task id designates: the sanitized id when a file has that
    name, else the first listed task whose title matches without regard to
    case.  It depends on the listing alone. *)
Definition resolve (keys : list string) (taskId : string) : option string :=
  let sanitized := sanitizeFilename taskId in
  if existsb (fun k => String.eqb k sanitized) keys then Some sanitized
  else
    find (fun k => negb (String.eqb k BOARD)
                   && String.eqb (toLowerCase (basename_md k))
                                 (toLowerCase taskId))
         keys.

(** A vault with one task, on the board in the column of its status. *)
Definition sample_vault : Folder :=
  [ ("Draft proposal",
     mkFile
       (Partial.mk (Some next) (Some me) (Some high) None (Some "2026-02-20")
          None None (Some "2026-02-01T09:00:00.000Z") None None)
       (nl ++ "Write the first version." ++ nl));
    (BOARD,
     board_file
       (writeBoardText
          [ mkColumn "Backlog" [];
            mkColumn "Next"
              [mkItem "Draft proposal" false (Some "2026-02-20")];
            mkColumn "Working" []; mkColumn "Blocked" [];
            mkColumn "Done" [] ])) ].

Definition sample_task : ParsedTask.t :=
  ParsedTask.mk "Draft proposal" "Draft proposal"
    (mkFrontmatter next me high None (Some "2026-02-20") None None
       "2026-02-01T09:00:00.000Z" None (Some []))
    "Write the first version." "Draft proposal".

(** A folder that holds only a board file with the given lines after the
    writer's header. *)
Definition board_only (lines : list string) : Folder :=
  [(BOARD, board_file (join_lines (header_lines ++ lines)%list))].


(** A task whose title the board lists in two columns, the first of them
    the one its status maps to. *)
Definition listed_twice : Folder :=
  [ ("A", bare_file "notes");
    (BOARD,
     board_file
       (join_lines
          (header_lines
           ++ [ "## Backlog"; ""; "- [ ] [[A]]"; "";
                "## Next"; ""; "- [ ] [[A]]"; "" ])%list)) ].

(** Three tasks and a scrambled board: one task in two wrong columns, one
    missing, one in place, and an item that matches no task. *)
Definition scrambled_vault : Folder :=
  [ ("Plan",
     mkFile
       (Partial.mk (Some working) None None None (Some "2026-03-01")
          None None None None None) "");
    ("Report", bare_file "to write");
    ("Ship",
     mkFile
       (Partial.mk (Some done) None None None None None None None
          (Some "2026-01-15T10:00:00.000Z") None) "");
    (BOARD,
     board_file
       (join_lines
          (header_lines
           ++ [ "## Backlog"; ""; "- [ ] [[Plan]]"; "";
                "## Next"; ""; "- [ ] [[Ghost Task]]"; "- [ ] [[Plan]]"; "";
                "## Working"; ""; "";
                "## Done"; ""; "- [x] [[Ship]]"; ""; "**Complete**"; "" ])%list)) ].

(** The title twice in the column the status maps to. *)
Definition twice_in_backlog : Folder :=
  board_only [ "## Backlog"; ""; "- [ ] [[A]]"; "- [ ] [[A]]"; "";
               "## Next"; ""; "" ].

(** The title in one column, a dated item. *)
Definition dated_in_next : Folder :=
  board_only [ "## Backlog"; ""; "- [ ] [[B]]"; "";
               "## Next"; ""; "- [ ] [[A]] @{2026-02-20}"; "" ].

(* ================================================================== *)
(** ** Listing, archiving and deleting tasks (vault-tasks.ts)          *)
(* ================================================================== *)

Definition Assignee_eqb (a b : Assignee) : bool :=
  match a, b with
  | me, me | assistant, assistant => true
  | _, _ => false
  end.

(** The string that stands for a status in a header and in a call. *)
Definition status_name (s : Status) : string :=
  match s with
  | backlog => "backlog"
  | next => "next"
  | working => "working"
  | blocked => "blocked"
  | done => "done"
  | archived => "archived"
  end.

(** [s.includes(pat)]. *)
Definition includes (pat s : string) : bool :=
  match after_first pat s with Some _ => true | None => false end.

(** The values of [params.assignee]. *)
Inductive AssigneeFilter := only (a : Assignee) | all_assignees.

Module ListParams.
Record t := mk {
  assignee : option AssigneeFilter;
  status : option string;
  project : option string;
  search : option string;
  limit : option Z
}.
End ListParams.

Module ListResult.
Record t := mk {
  count : nat;
  tasks : list TaskRecord.t
}.
End ListResult.

(** The four filters of [listTasks], each of which an absent (or empty)
    parameter switches off. *)
Definition has_assignee (p : option AssigneeFilter) (t : ParsedTask.t) : bool :=
  match p with
  | Some (only a) => Assignee_eqb (assignee (ParsedTask.frontmatter t)) a
  | _ => true
  end.

Definition is_active (s : Status) : bool :=
  match s with
  | working | next | blocked => true
  | _ => false
  end.

Definition has_status (p : option string) (t : ParsedTask.t) : bool :=
  match truthy p with
  | None => true
  | Some s =>
      if String.eqb s "active"
      then is_active (status (ParsedTask.frontmatter t))
      else if String.eqb s "all" then true
      else String.eqb (status_name (status (ParsedTask.frontmatter t))) s
  end.

Definition has_project (p : option string) (t : ParsedTask.t) : bool :=
  match truthy p with
  | None => true
  | Some s =>
      match project (ParsedTask.frontmatter t) with
      | Some x => String.eqb x s
      | None => false
      end
  end.

Definition has_text (p : option string) (t : ParsedTask.t) : bool :=
  match truthy p with
  | None => true
  | Some s =>
      let q := toLowerCase s in
      includes q (toLowerCase (ParsedTask.title t))
      || includes q (toLowerCase (ParsedTask.body t))
  end.

(** [tasks.slice(0, n)]: a negative [n] counts from the end. *)
Definition slice_to {A} (n : Z) (l : list A) : list A :=
  if (n <? 0)%Z then firstn (List.length l - Z.to_nat (- n)) l
  else firstn (Z.to_nat n) l.

(** [if (params.limit) tasks = tasks.slice(0, params.limit)], for a limit
    that is an integer. *)
Definition limited {A} (p : option Z) (l : list A) : list A :=
  match p with
  | Some n => if (n =? 0)%Z then l else slice_to n l
  | None => l
  end.

Section Listing.

(** [getTime s] is [new Date(s).getTime()] for the [created_at] values of
    the folder, taken to be valid dates (for an invalid one the comparator
    of the sort yields NaN, and the order is the engine's choice). *)
Variable getTime : string -> Z.

Definition created (t : ParsedTask.t) : Z :=
  getTime (created_at (ParsedTask.frontmatter t)).

(** [tasks.sort((a, b) => time(b) - time(a))]: the sort is stable, so its
    result is the one of inserting each task before the first task that is
    not newer. *)
Fixpoint insert_task (x : ParsedTask.t) (l : list ParsedTask.t)
  : list ParsedTask.t :=
  match l with
  | [] => [x]
  | y :: l' =>
      if (created x <? created y)%Z then y :: insert_task x l'
      else x :: l
  end.

Definition sort_tasks (l : list ParsedTask.t) : list ParsedTask.t :=
  fold_right insert_task [] l.

(** The tasks [listTasks] keeps, before the cut. *)
Definition selected (params : ListParams.t) (l : list ParsedTask.t)
  : list ParsedTask.t :=
  filter (has_text (ListParams.search params))
    (filter (has_project (ListParams.project params))
       (filter (has_status (ListParams.status params))
          (filter (has_assignee (ListParams.assignee params)) l))).

Definition listTasks (dir : Folder) (now : string) (params : ListParams.t)
  : Folder * ListResult.t :=
  let dir := ensureVaultStructure dir in
  let tasks := listTaskFiles dir now in
  let tasks := sort_tasks (selected params tasks) in
  let tasks := limited (ListParams.limit params) tasks in
  (dir, ListResult.mk (List.length tasks) (map taskToRecord tasks)).

End Listing.

(** The payloads of [archiveTask] and [deleteTask]. *)
Inductive RemovalResult :=
| NotFoundResult (error : string)
| ArchivedResult (title : string)
| DeletedResult (title : string).

Definition not_found (taskId : string) : string :=
  "Task " ++ quote ++ taskId ++ quote ++ " not found".

Definition with_status (s : Status) (fm : TaskFrontmatter) : TaskFrontmatter :=
  {| status := s;
     assignee := assignee fm;
     priority := priority fm;
     project := project fm;
     due_date := due_date fm;
     blocked_by := blocked_by fm;
     follow_up_date := follow_up_date fm;
     created_at := created_at fm;
     completed_at := completed_at fm;
     tags := tags fm |}.

(** [archiveTask]; [archive] is the folder [Tasks/Archive], whose files the
    listing of the Tasks folder does not show. *)
Definition archiveTask (dir archive : Folder) (now : string) (taskId : string)
  : Folder * Folder * RemovalResult :=
  match findTaskByTitle dir now taskId with
  | None => (dir, archive, NotFoundResult (not_found taskId))
  | Some task =>
      let fm := with_status archived (ParsedTask.frontmatter task) in
      let archive :=
        writeTaskFile archive (ParsedTask.filename task) fm
          (ParsedTask.body task) in
      let dir := Fs.unlink (ParsedTask.filePath task) dir in
      let dir := removeFromBoard dir (ParsedTask.title task) in
      (dir, archive, ArchivedResult (ParsedTask.title task))
  end.

Definition deleteTask (dir : Folder) (now : string) (taskId : string)
  : Folder * RemovalResult :=
  match findTaskByTitle dir now taskId with
  | None => (dir, NotFoundResult (not_found taskId))
  | Some task =>
      let dir := Fs.unlink (ParsedTask.filePath task) dir in
      let dir := removeFromBoard dir (ParsedTask.title task) in
      (dir, DeletedResult (ParsedTask.title task))
  end.

(* ================================================================== *)
(** ** Projects (vault-tasks.ts)                                       *)
(* ================================================================== *)


Module ProjectEntry.
Record t := mk {
  slug : string;
  taskCount : nat
}.
End ProjectEntry.

Module ProjectList.
Record t := mk {
  count : nat;
  projects : list ProjectEntry.t
}.
End ProjectList.






Module ProjectParams.
Record t := mk {
  slug : string;
  displayName : option string;
  description : option string
}.
End ProjectParams.



(* ================================================================== *)
(** ** The follow-ups file (follow-up-tracker.ts)                      *)
(* ================================================================== *)

(** [GmailMessage], less the fields the tracker does not read. *)
Module GmailMessage.
Record t := mk {
  id : string;
  threadId : option string;
  from : option string;
  fromName : option string;
  to : option string;
  subject : option string;
  date : option string
}.
End GmailMessage.

(** A [FollowUp] record in full; [daysAgo] is [None] for NaN. *)
Module Tracked.
Record t := mk {
  type : FollowUp.FollowUpType;
  subject : string;
  from : option string;
  to : option string;
  messageId : string;
  threadId : option string;
  date : string;
  daysAgo : option Z;
  overdue : bool
}.
End Tracked.

Module Tracker.

(** The result of [refreshFollowUps]. *)
Record Refreshed := mkRefreshed {
  pending : nat;
  resolved : nat;
  overdue : nat
}.

(** The result of [readFollowUpsFromVault]. *)
Record Stats := mkStats {
  needsReply : nat;
  awaitingReply : nat;
  needsAction : nat;
  overdueLines : nat
}.

(** The two marks of the line format that lie outside ASCII, as the code
    units of their UTF-8 form: the em dash and the warning sign with its
    variation selector.  The reader looks for ASCII text only. *)
Definition EM_DASH : string :=
  String "226"%char (String "128"%char (String "148"%char "")).

Definition WARNING_SIGN : string :=
  String "226"%char (String "154"%char (String "160"%char
    (String "239"%char (String "184"%char (String "143"%char ""))))).

(** A number inside a template literal. *)
Definition show_Z (n : Z) : string := NilZero.string_of_int (Z.to_int n).

Definition show_days (d : option Z) : string :=
  match d with
  | Some n => show_Z n
  | None => "NaN"
  end.

(** [day${f.daysAgo !== 1 ? "s" : ""}]. *)
Definition days_word (d : option Z) : string :=
  match d with
  | Some 1%Z => "day"
  | _ => "days"
  end.

Definition overdueTag (f : Tracked.t) : string :=
  if Tracked.overdue f then " " ++ WARNING_SIGN ++ " overdue" else "".

(** An absent [from] or [to] is printed as [undefined]. *)
Definition show_party (x : option string) : string :=
  or_default x "undefined".

Definition needs_reply_line (f : Tracked.t) : string :=
  "- [ ] **" ++ Tracked.subject f ++ "** from " ++ show_party (Tracked.from f)
  ++ " " ++ EM_DASH ++ " " ++ show_days (Tracked.daysAgo f) ++ " "
  ++ days_word (Tracked.daysAgo f) ++ " ago" ++ overdueTag f.

Definition awaiting_reply_line (f : Tracked.t) : string :=
  "- [ ] **" ++ Tracked.subject f ++ "** to " ++ show_party (Tracked.to f)
  ++ " " ++ EM_DASH ++ " sent " ++ show_days (Tracked.daysAgo f) ++ " "
  ++ days_word (Tracked.daysAgo f) ++ " ago" ++ overdueTag f.

Definition needs_action_line (f : Tracked.t) : string :=
  "- [ ] **" ++ Tracked.subject f ++ "** " ++ EM_DASH ++ " "
  ++ show_days (Tracked.daysAgo f) ++ " "
  ++ days_word (Tracked.daysAgo f) ++ " ago" ++ overdueTag f.

Definition FollowUpType_eqb (a b : FollowUp.FollowUpType) : bool :=
  match a, b with
  | FollowUp.needs_reply, FollowUp.needs_reply
  | FollowUp.awaiting_reply, FollowUp.awaiting_reply
  | FollowUp.needs_action, FollowUp.needs_action => true
  | _, _ => false
  end.

Definition of_type (ty : FollowUp.FollowUpType) (l : list Tracked.t)
  : list Tracked.t :=
  filter (fun f => FollowUpType_eqb (Tracked.type f) ty) l.

(** The text [writeFollowUpsFile] stores; [now] is
    [new Date().toISOString()]. *)
Definition writeFollowUpsFile (now : string) (followUps : list Tracked.t)
  : string :=
  join_lines
    (["---"; ("updated_at: " ++ now)%string; "---"; ""; "## Needs Reply"; ""]
     ++ map needs_reply_line (of_type FollowUp.needs_reply followUps)
     ++ [""; "## Awaiting Reply"; ""]
     ++ map awaiting_reply_line (of_type FollowUp.awaiting_reply followUps)
     ++ [""; "## Needs Action"; ""]
     ++ map needs_action_line (of_type FollowUp.needs_action followUps)
     ++ [""])%list.

(** One turn of the loop of [readFollowUpsFromVault]; the section is
    [None] before the first heading. *)
Definition read_line (st : option FollowUp.FollowUpType * Stats)
    (line : string) : option FollowUp.FollowUpType * Stats :=
  let '(section, stats) := st in
  if starts_with "## Needs Reply" line then (Some FollowUp.needs_reply, stats)
  else if starts_with "## Awaiting Reply" line
  then (Some FollowUp.awaiting_reply, stats)
  else if starts_with "## Needs Action" line
  then (Some FollowUp.needs_action, stats)
  else if starts_with "- [ ]" line then
    let late :=
      if includes "overdue" line then S (overdueLines stats)
      else overdueLines stats in
    (section,
     match section with
     | Some FollowUp.needs_reply =>
         mkStats (S (needsReply stats)) (awaitingReply stats)
           (needsAction stats) late
     | Some FollowUp.awaiting_reply =>
         mkStats (needsReply stats) (S (awaitingReply stats))
           (needsAction stats) late
     | Some FollowUp.needs_action =>
         mkStats (needsReply stats) (awaitingReply stats)
           (S (needsAction stats)) late
     | None =>
         mkStats (needsReply stats) (awaitingReply stats)
           (needsAction stats) late
     end)
  else st.

(** [readFollowUpsFromVault]; the argument is the text of the follow-ups
    file, [None] when the file does not exist. *)
Definition readFollowUpsFromVault (file : option string) : Stats :=
  match file with
  | None => mkStats 0 0 0 0
  | Some content =>
      snd (fold_left read_line (split_lines content) (None, mkStats 0 0 0 0))
  end.

Definition show_nat (n : nat) : string := show_Z (Z.of_nat n).

(** [parts.join(", ")]. *)
Fixpoint join_parts (parts : list string) : string :=
  match parts with
  | [] => ""
  | [p] => p
  | p :: ps => p ++ ", " ++ join_parts ps
  end.

Definition summary_parts (stats : Stats) : list string :=
  ((if (0 <? needsReply stats)%nat
    then [(show_nat (needsReply stats)
           ++ (if (needsReply stats =? 1)%nat then " needs" else " need")
           ++ " reply")%string]
    else [])
   ++ (if (0 <? awaitingReply stats)%nat
       then [(show_nat (awaitingReply stats) ++ " awaiting reply")%string]
       else [])
   ++ (if (0 <? needsAction stats)%nat
       then [(show_nat (needsAction stats)
              ++ (if (needsAction stats =? 1)%nat then " needs" else " need")
              ++ " action")%string]
       else [])
   ++ (if (0 <? overdueLines stats)%nat
       then [(show_nat (overdueLines stats) ++ " overdue")%string]
       else []))%list.

Definition getFollowUpSummary (file : option string) : string :=
  match summary_parts (readFollowUpsFromVault file) with
  | [] => "No pending follow-ups."
  | parts => join_parts parts
  end.

Section Refresh.

(** [parse s] is [new Date(s).getTime()], [None] for NaN; [now] is
    [Date.now()] and [nowIso] the same instant as [toISOString] prints
    it. *)
Variable parse : string -> option Z.
Variables (now : Z) (nowIso : string).

Definition message_time (m : GmailMessage.t) : option Z :=
  match truthy (GmailMessage.date m) with
  | Some s => parse s
  | None => Some now
  end.

Definition needs_reply_of (m : GmailMessage.t) : Tracked.t :=
  {| Tracked.type := FollowUp.needs_reply;
     Tracked.subject := or_default (truthy (GmailMessage.subject m))
                          "(no subject)";
     Tracked.from :=
       Some (trim (or_default (truthy (GmailMessage.fromName m)) ""
                   ++ " <" ++ or_default (truthy (GmailMessage.from m)) ""
                   ++ ">"));
     Tracked.to := None;
     Tracked.messageId := GmailMessage.id m;
     Tracked.threadId := GmailMessage.threadId m;
     Tracked.date := or_default (truthy (GmailMessage.date m)) nowIso;
     Tracked.daysAgo := FollowUp.daysAgo now (message_time m);
     Tracked.overdue :=
       FollowUp.isOverdue FollowUp.needs_reply now (message_time m) |}.

Definition awaiting_reply_of (m : GmailMessage.t) : Tracked.t :=
  {| Tracked.type := FollowUp.awaiting_reply;
     Tracked.subject := or_default (truthy (GmailMessage.subject m))
                          "(no subject)";
     Tracked.from := None;
     Tracked.to := Some (or_default (truthy (GmailMessage.to m)) "");
     Tracked.messageId := GmailMessage.id m;
     Tracked.threadId := GmailMessage.threadId m;
     Tracked.date := or_default (truthy (GmailMessage.date m)) nowIso;
     Tracked.daysAgo := FollowUp.daysAgo now (message_time m);
     Tracked.overdue :=
       FollowUp.isOverdue FollowUp.awaiting_reply now (message_time m) |}.

(** The list [refreshFollowUps] builds from the answers to its two
    searches. *)
Definition followUps (toRespond awaiting : list GmailMessage.t)
  : list Tracked.t :=
  (map needs_reply_of toRespond ++ map awaiting_reply_of awaiting)%list.

(** [refreshFollowUps]: the text it stores in the follow-ups file and the
    counts it returns. *)
Definition refreshFollowUps (toRespond awaiting : list GmailMessage.t)
  : string * Refreshed :=
  let l := followUps toRespond awaiting in
  (writeFollowUpsFile nowIso l,
   mkRefreshed
     (List.length (filter (fun f => negb (Tracked.overdue f)) l))
     0
     (List.length (filter Tracked.overdue l))).

End Refresh.

End Tracker.

(* ================================================================== *)
(** ** Further observations                                            *)
(* ================================================================== *)

(** A line the board parser reads: a column header or an item. *)
Definition recognised (line : string) : bool :=
  match match_column line, match_item line with
  | None, None => false
  | _, _ => true
  end.

(** What [parseTaskFile] reads of a frontmatter that [writeTaskFile]
    stored. *)
Definition stored_frontmatter (fm : TaskFrontmatter) (now : string)
  : TaskFrontmatter :=
  {| status := status fm;
     assignee := assignee fm;
     priority := priority fm;
     project := truthy (project fm);
     due_date := truthy (due_date fm);
     blocked_by := truthy (blocked_by fm);
     follow_up_date := truthy (follow_up_date fm);
     created_at := or_default (truthy (Some (created_at fm))) now;
     completed_at := truthy (completed_at fm);
     tags := Some (or_default (tags fm) []) |}.

(** A call that names only the task and a new title. *)
Definition title_update (taskId t : string) : UpdateParams.t :=
  UpdateParams.mk taskId (Some t) None None None None None None None None.

(** A task passes the four filters of a listing call. *)
Definition wanted (params : ListParams.t) (t : ParsedTask.t) : bool :=
  has_assignee (ListParams.assignee params) t
  && has_status (ListParams.status params) t
  && has_project (ListParams.project params) t
  && has_text (ListParams.search params) t.

(** No number is followed by a greater one. *)
Fixpoint descending (l : list Z) : bool :=
  match l with
  | [] => true
  | a :: l' =>
      match l' with
      | [] => true
      | b :: _ => (b <=? a)%Z && descending l'
      end
  end.

(** The subject and the party that the line of a follow-up prints hold no
    line feed. *)
Definition single_line (f : Tracked.t) : bool :=
  no_lf (Tracked.subject f)
  && match Tracked.type f with
     | FollowUp.needs_reply => no_lf (Tracker.show_party (Tracked.from f))
     | FollowUp.awaiting_reply => no_lf (Tracker.show_party (Tracked.to f))
     | FollowUp.needs_action => true
     end.

(** The fields of a message that a follow-up line prints hold no line
    feed. *)
Definition single_line_message (m : GmailMessage.t) : bool :=
  no_lf (or_default (GmailMessage.subject m) "")
  && no_lf (or_default (GmailMessage.fromName m) "")
  && no_lf (or_default (GmailMessage.from m) "")
  && no_lf (or_default (GmailMessage.to m) "").

(* ================================================================== *)
(** ** Auxiliary notions for the proofs                                 *)
(* ================================================================== *)

(** [spaced prev s]: every white-space character of [s] is a space that
    follows a character other than white space; [prev] tells that white
    space comes just before [s]. *)
Fixpoint spaced (prev : bool) (s : string) : bool :=
  match s with
  | EmptyString => true
  | String c s' =>
      if is_space c then Ascii.eqb c " " && negb prev && spaced true s'
      else spaced false s'
  end.

(** [same_tasks dir dir']: the two folders hold the same task files. *)
Definition same_tasks (dir dir' : Folder) : Prop :=
  (forall now, listTaskFiles dir' now = listTaskFiles dir now)
  /\ (forall k, k <> BOARD -> Fs.read k dir' = Fs.read k dir).

(** What the reconciliation reads of a task. *)
Definition core (task : ParsedTask.t) : string * Status :=
  (ParsedTask.title task, status (ParsedTask.frontmatter task)).

(** [settled fm]: the frontmatter is as [parseTaskFile] returns one. *)
Definition settled (fm : TaskFrontmatter) : Prop :=
  truthy (project fm) = project fm
  /\ truthy (due_date fm) = due_date fm
  /\ truthy (blocked_by fm) = blocked_by fm
  /\ truthy (follow_up_date fm) = follow_up_date fm
  /\ truthy (completed_at fm) = completed_at fm
  /\ is_empty (created_at fm) = false
  /\ tags fm <> None.

(** A decimal digit. *)
Definition is_digit (c : ascii) : bool :=
  match c with
  | "0" | "1" | "2" | "3" | "4" | "5" | "6" | "7" | "8" | "9" => true
  | _ => false
  end%char.

(** The line [writeFollowUpsFile] pushes for a follow-up. *)
Definition line_of (f : Tracked.t) : string :=
  match Tracked.type f with
  | FollowUp.needs_reply => Tracker.needs_reply_line f
  | FollowUp.awaiting_reply => Tracker.awaiting_reply_line f
  | FollowUp.needs_action => Tracker.needs_action_line f
  end.

(** What [n] entries of a section, [late] of them with the word overdue,
    add to the reader's counts. *)
Definition bump (ty : FollowUp.FollowUpType) (n late : nat)
    (s : Tracker.Stats) : Tracker.Stats :=
  match ty with
  | FollowUp.needs_reply =>
      Tracker.mkStats (n + Tracker.needsReply s) (Tracker.awaitingReply s)
        (Tracker.needsAction s) (late + Tracker.overdueLines s)
  | FollowUp.awaiting_reply =>
      Tracker.mkStats (Tracker.needsReply s) (n + Tracker.awaitingReply s)
        (Tracker.needsAction s) (late + Tracker.overdueLines s)
  | FollowUp.needs_action =>
      Tracker.mkStats (Tracker.needsReply s) (Tracker.awaitingReply s)
        (n + Tracker.needsAction s) (late + Tracker.overdueLines s)
  end.


(* ================================================================== *)
(** ** Facts about the text operations                                 *)
(* ================================================================== *)

Module TextFacts.

Lemma append_nil_r (s : string) : s ++ "" = s.
Proof. induction s; simpl; congruence. Qed.

Lemma append_assoc (a b c : string) : (a ++ b) ++ c = a ++ (b ++ c).
Proof. induction a; simpl; congruence. Qed.

Lemma is_empty_true (s : string) : is_empty s = true -> s = "".
Proof. destruct s; simpl; congruence. Qed.

Lemma strip_prefix_app (p s : string) : strip_prefix p (p ++ s) = Some s.
Proof.
  induction p as [|a p IH]; simpl; auto.
  now rewrite Ascii.eqb_refl.
Qed.

Lemma strip_prefix_inv (p s r : string) :
  strip_prefix p s = Some r -> s = p ++ r.
Proof.
  revert s; induction p as [|a p IH]; simpl; intros s H.
  - congruence.
  - destruct s as [|b s]; [discriminate|].
    destruct (Ascii.eqb a b) eqn:E; [|discriminate].
    apply Ascii.eqb_eq in E; subst b. f_equal; auto.
Qed.

(** A failed prefix test on a text at least as long as the prefix stays
    failed when the text is extended. *)
Lemma strip_prefix_none_app (p a r : string) :
  strip_prefix p a = None -> String.length p <= String.length a ->
  strip_prefix p (a ++ r) = None.
Proof.
  revert a; induction p as [|x p IH]; simpl; intros a H L.
  - discriminate.
  - destruct a as [|y a]; simpl in *; [lia|].
    destruct (Ascii.eqb x y); auto. apply IH; auto; lia.
Qed.

Lemma length_append (a b : string) :
  String.length (a ++ b) = String.length a + String.length b.
Proof. induction a; simpl; auto. Qed.

(** *** Lines *)

Lemma split_lines_not_nil (s : string) : split_lines s <> [].
Proof.
  induction s as [|c s IH]; simpl; [discriminate|].
  destruct (Ascii.eqb c LF); [discriminate|].
  destruct (split_lines s); [contradiction|discriminate].
Qed.

Lemma split_lines_no_lf (s : string) :
  no_lf s = true -> split_lines s = [s].
Proof.
  induction s as [|c s IH]; simpl; auto.
  unfold no_lf; simpl. intros H. apply andb_prop in H as [Hc Hs].
  apply negb_true_iff in Hc. rewrite Hc. rewrite (IH Hs). reflexivity.
Qed.

Lemma split_lines_cons (l s : string) :
  no_lf l = true -> split_lines (l ++ String LF s) = l :: split_lines s.
Proof.
  induction l as [|c l IH]; simpl; intros H.
  - reflexivity.
  - unfold no_lf in H; simpl in H. apply andb_prop in H as [Hc Hl].
    apply negb_true_iff in Hc. rewrite Hc.
    rewrite (IH Hl). reflexivity.
Qed.

Lemma split_lines_app (l s : string) :
  no_lf l = true -> split_lines (l ++ nl ++ s) = l :: split_lines s.
Proof. apply split_lines_cons. Qed.

Lemma split_join (ls : list string) :
  ls <> [] -> forallb no_lf ls = true -> split_lines (join_lines ls) = ls.
Proof.
  induction ls as [|l ls IH]; intros Hne H; [contradiction|].
  simpl in H. apply andb_prop in H as [Hl Hls].
  destruct ls as [|l' ls].
  - simpl. now apply split_lines_no_lf.
  - change (join_lines (l :: l' :: ls)) with (l ++ nl ++ join_lines (l' :: ls)).
    rewrite split_lines_app by assumption.
    rewrite IH; auto. discriminate.
Qed.

Lemma no_line_break_no_lf (s : string) :
  no_line_break s = true -> no_lf s = true.
Proof.
  unfold no_line_break, no_lf.
  induction s as [|c s IH]; simpl; auto.
  intros H. apply andb_prop in H as [Hc Hs]. rewrite (IH Hs), andb_true_r.
  unfold is_line_terminator in Hc. apply negb_true_iff in Hc.
  apply orb_false_iff in Hc as [Hc _]. now rewrite Hc.
Qed.

Lemma no_lf_app (a b : string) :
  no_lf (a ++ b) = no_lf a && no_lf b.
Proof.
  unfold no_lf. induction a as [|c a IH]; simpl; auto.
  now rewrite IH, andb_assoc.
Qed.

Lemma no_line_break_app (a b : string) :
  no_line_break (a ++ b) = no_line_break a && no_line_break b.
Proof.
  unfold no_line_break. induction a as [|c a IH]; simpl; auto.
  now rewrite IH, andb_assoc.
Qed.

(** *** Trimming *)

Lemma trim_end_idem (s : string) : trim_end (trim_end s) = trim_end s.
Proof.
  induction s as [|c s IH]; simpl; auto.
  destruct (is_space c && is_empty (trim_end s)) eqn:E; simpl; auto.
  now rewrite IH, E.
Qed.

Lemma trim_start_head (s : string) :
  trim_start s = "" \/
  exists c r, trim_start s = String c r /\ is_space c = false.
Proof.
  induction s as [|c s IH]; simpl; auto.
  destruct (is_space c) eqn:E; auto.
  right. now exists c, s.
Qed.

Lemma trim_idem (s : string) : trim (trim s) = trim s.
Proof.
  unfold trim.
  destruct (trim_start_head s) as [->|(c & r & -> & Hc)]; [reflexivity|].
  simpl. rewrite Hc. simpl. rewrite Hc. simpl.
  rewrite trim_end_idem, Hc. reflexivity.
Qed.

Lemma no_line_break_trim_start (s : string) :
  no_line_break s = true -> no_line_break (trim_start s) = true.
Proof.
  unfold no_line_break. induction s as [|c s IH]; simpl; auto.
  intros H. destruct (is_space c); [|exact H].
  apply andb_prop in H as [_ Hs]. auto.
Qed.

Lemma no_line_break_trim_end (s : string) :
  no_line_break s = true -> no_line_break (trim_end s) = true.
Proof.
  unfold no_line_break. induction s as [|c s IH]; simpl; auto.
  intros H. apply andb_prop in H as [Hc Hs].
  destruct (is_space c && is_empty (trim_end s)); simpl; auto.
  now rewrite Hc, IH.
Qed.

Lemma no_line_break_trim (s : string) :
  no_line_break s = true -> no_line_break (trim s) = true.
Proof.
  intros H. unfold trim.
  now apply no_line_break_trim_end, no_line_break_trim_start.
Qed.

(** *** The lazy group *)

Lemma lazy_until_inv (stop s p r : string) :
  lazy_until stop s = Some (p, r) ->
  s = p ++ stop ++ r /\ p <> "" /\ no_line_break p = true.
Proof.
  revert p r; induction s as [|c s IH]; simpl; intros p r H; [discriminate|].
  destruct (is_line_terminator c) eqn:Hc; [discriminate|].
  destruct (strip_prefix stop s) as [r0|] eqn:Hs.
  - inversion H; subst. apply strip_prefix_inv in Hs. subst s.
    repeat split; try discriminate.
    unfold no_line_break; simpl. now rewrite Hc.
  - destruct (lazy_until stop s) as [[p0 r0]|] eqn:Hl; [|discriminate].
    inversion H; subst. destruct (IH _ _ eq_refl) as (-> & _ & Hp).
    repeat split; try discriminate.
    unfold no_line_break in *; simpl. now rewrite Hc, Hp.
Qed.

(** What the group captured, it captures again whatever follows. *)
Lemma lazy_until_again (stop s p r r' : string) :
  lazy_until stop s = Some (p, r) ->
  lazy_until stop (p ++ stop ++ r') = Some (p, r').
Proof.
  revert p r; induction s as [|c s IH]; simpl; intros p r H; [discriminate|].
  destruct (is_line_terminator c) eqn:Hc; [discriminate|].
  destruct (strip_prefix stop s) as [r0|] eqn:Hs.
  - inversion H; subst. simpl. rewrite Hc.
    now rewrite strip_prefix_app.
  - destruct (lazy_until stop s) as [[p0 r0]|] eqn:Hl; [|discriminate].
    inversion H; subst. simpl. rewrite Hc.
    destruct (lazy_until_inv _ _ _ _ Hl) as (Es & _ & _).
    assert (Hn : strip_prefix stop (p0 ++ stop ++ r') = None).
    { rewrite <- append_assoc. apply strip_prefix_none_app.
      - destruct (strip_prefix stop (p0 ++ stop)) as [x|] eqn:Hx; auto.
        apply strip_prefix_inv in Hx.
        assert (Hy : strip_prefix stop s = Some (x ++ r)).
        { rewrite Es, <- append_assoc, Hx, append_assoc.
          apply strip_prefix_app. }
        congruence.
      - rewrite length_append. lia. }
    rewrite Hn. now rewrite (IH _ _ eq_refl).
Qed.

Lemma lazy_until_captured (stop s p r : string) :
  lazy_until stop s = Some (p, r) -> captured stop p = true.
Proof.
  intros H. unfold captured.
  pose proof (lazy_until_again _ _ _ _ "" H) as E.
  rewrite append_nil_r in E. rewrite E.
  now rewrite String.eqb_refl.
Qed.

Lemma captured_spec (stop p r : string) :
  captured stop p = true -> lazy_until stop (p ++ stop ++ r) = Some (p, r).
Proof.
  unfold captured. intros H.
  destruct (lazy_until stop (p ++ stop)) as [[q x]|] eqn:E; [|discriminate].
  apply andb_prop in H as [Hq _]. apply String.eqb_eq in Hq. subst q.
  eapply lazy_until_again; eauto.
Qed.

Lemma captured_no_line_break (stop p : string) :
  captured stop p = true -> no_line_break p = true.
Proof.
  unfold captured. intros H.
  destruct (lazy_until stop (p ++ stop)) as [[q x]|] eqn:E; [|discriminate].
  apply andb_prop in H as [Hq _]. apply String.eqb_eq in Hq. subst q.
  now destruct (lazy_until_inv _ _ _ _ E) as (_ & _ & ?).
Qed.

Lemma captured_not_empty (stop p : string) :
  captured stop p = true -> is_empty p = false.
Proof.
  unfold captured. intros H.
  destruct (lazy_until stop (p ++ stop)) as [[q x]|] eqn:E; [|discriminate].
  apply andb_prop in H as [Hq _]. apply String.eqb_eq in Hq. subst q.
  destruct (lazy_until_inv _ _ _ _ E) as (_ & Hne & _).
  destruct p; simpl; congruence.
Qed.

Lemma truthy_idem (x : option string) : truthy (truthy x) = truthy x.
Proof.
  destruct x as [s|]; simpl; auto.
  destruct (is_empty s) eqn:E; simpl; now rewrite ?E.
Qed.

(** What [captured] means, without the matcher: [p] is not empty, holds no
    line break, and [stop] begins nowhere in [p ++ stop] between the second
    character of [p] and its last. *)
Lemma captured_iff (stop p : string) :
  captured stop p = true <->
  is_empty p = false /\ no_line_break p = true
  /\ forall a a', p = a ++ a' -> is_empty a = false -> is_empty a' = false ->
       starts_with stop (a' ++ stop) = false.
Proof.
  unfold captured, starts_with. induction p as [|c p IH].
  - split; [|intros (H & _); discriminate].
    destruct (lazy_until stop ("" ++ stop)) as [[q r]|] eqn:E;
      [|discriminate].
    apply lazy_until_inv in E as (_ & Hq & _).
    destruct q; [contradiction|discriminate].
  - cbn [append lazy_until]. split.
    + intros H.
      destruct (is_line_terminator c) eqn:Hc; [discriminate|].
      destruct (strip_prefix stop (p ++ stop)) as [r|] eqn:Hs.
      * apply andb_prop in H as [Hq Hr]. apply String.eqb_eq in Hq.
        inversion Hq; subst p. split; [reflexivity|]. split.
        -- unfold no_line_break. simpl. now rewrite Hc.
        -- intros a a' E Ha Ha'. destruct a as [|x a]; [discriminate|].
           inversion E as [[Ex E']]. destruct a; destruct a'; discriminate.
      * destruct (lazy_until stop (p ++ stop)) as [[q r]|] eqn:Hl;
          [|discriminate].
        apply andb_prop in H as [Hq Hr]. apply String.eqb_eq in Hq.
        inversion Hq; subst q.
        assert (Hp : (p =? p)%string && is_empty r = true)
          by now rewrite String.eqb_refl.
        apply IH in Hp as (Hne & Hnb & Hin).
        split; [reflexivity|]. split.
        -- unfold no_line_break in *. simpl. now rewrite Hc.
        -- intros a a' E Ha Ha'. destruct a as [|x a]; [discriminate|].
           inversion E as [[Ex E']].
           destruct a as [|y a].
           ++ simpl in E'. subst a'. now rewrite Hs.
           ++ apply (Hin (String y a) a'); auto.
    + intros (_ & Hnb & Hin).
      unfold no_line_break in Hnb. simpl in Hnb.
      apply andb_prop in Hnb as [Hc Hnb]. apply negb_true_iff in Hc.
      rewrite Hc.
      destruct p as [|y p].
      * change ("" ++ stop) with stop.
        pose proof (strip_prefix_app stop "") as E.
        rewrite append_nil_r in E. rewrite E.
        now rewrite String.eqb_refl.
      * specialize (Hin (String c "") (String y p) eq_refl eq_refl eq_refl)
          as Hs.
        destruct (strip_prefix stop (String y p ++ stop)); [discriminate|].
        assert (Hp : match lazy_until stop (String y p ++ stop) with
                     | Some (q, r) => (q =? String y p)%string && is_empty r
                     | None => false
                     end = true).
        { apply IH. split; [reflexivity|]. split; [exact Hnb|].
          intros a a' E Ha Ha'.
          apply (Hin (String c a) a'); auto. simpl. now rewrite E. }
        destruct (lazy_until stop (String y p ++ stop)) as [[q r]|];
          [|discriminate].
        apply andb_prop in Hp as [Hq Hr]. apply String.eqb_eq in Hq.
        subst q. now rewrite String.eqb_refl.
Qed.

End TextFacts.

Import TextFacts.

(* ================================================================== *)
(** ** Facts about the board codec                                     *)
(* ================================================================== *)

Module CodecFacts.

(** *** Reading back what the writer emits, line by line *)

Lemma match_column_header (n : string) :
  line_safe_name n = true -> match_column ("## " ++ n) = Some n.
Proof.
  unfold line_safe_name, match_column. intros H.
  apply andb_prop in H as [H Ht]. apply andb_prop in H as [He Hb].
  simpl. rewrite He, Hb. simpl.
  apply String.eqb_eq in Ht. now rewrite Ht.
Qed.

Lemma match_column_item_line (it : BoardItem) :
  match_column (item_line it) = None.
Proof. reflexivity. Qed.

Lemma match_date_part (d : option string) :
  line_safe_date d = true ->
  match_date (match truthy d with
              | Some s => " @{" ++ s ++ "}"
              | None => ""
              end) = d.
Proof.
  destruct d as [s|]; simpl; [|reflexivity].
  intros H. rewrite (captured_not_empty _ _ H).
  unfold match_date. simpl.
  pose proof (captured_spec _ _ "" H) as E. simpl in E.
  now rewrite E.
Qed.

Lemma match_item_line (it : BoardItem) :
  item_ok it = true -> match_item (item_line it) = Some it.
Proof.
  destruct it as [t c d]. unfold item_ok, item_line.
  cbn [title completed date].
  intros H. apply andb_prop in H as [Ht Hd].
  pose proof (match_date_part _ Hd) as Ed.
  remember (match truthy d with
            | Some s => " @{" ++ s ++ "}"
            | None => ""
            end) as dp eqn:Edp. clear Edp.
  pose proof (captured_spec _ _ dp Ht) as Et. simpl in Et.
  unfold match_item.
  destruct c; simpl; rewrite Et, Ed; reflexivity.
Qed.

Lemma parse_item_lines (its : list BoardItem) :
  forallb item_ok its = true ->
  forall rest acc n its0,
    parse_lines (map item_line its ++ rest) acc (Some (mkColumn n its0))
    = parse_lines rest acc (Some (mkColumn n (its0 ++ its))).
Proof.
  induction its as [|it its IH]; intros H rest acc n its0.
  - simpl. now rewrite app_nil_r.
  - cbn [forallb] in H. apply andb_prop in H as [Hi Hs].
    cbn [map app parse_lines].
    rewrite match_column_item_line, (match_item_line _ Hi).
    cbn [name items].
    rewrite (IH Hs). now rewrite <- app_assoc.
Qed.

Lemma parse_column_lines (c : BoardColumn) :
  column_ok c = true ->
  forall rest acc cur,
    parse_lines (column_lines c ++ rest) acc cur
    = parse_lines rest (flush acc cur) (Some c).
Proof.
  destruct c as [n its]. unfold column_ok, column_lines.
  cbn [name items].
  intros H rest acc cur. apply andb_prop in H as [Hn Hi].
  cbn [app parse_lines].
  rewrite (match_column_header _ Hn).
  change (match_column "") with (@None string). cbv iota.
  change (match_item "") with (@None BoardItem). cbv iota.
  rewrite <- app_assoc, (parse_item_lines _ Hi). cbn [app].
  destruct (n =? "Done")%string; reflexivity.
Qed.

Lemma parse_columns_lines (columns : list BoardColumn) :
  board_ok columns = true ->
  forall acc cur,
    parse_lines (List.concat (map column_lines columns)) acc cur
    = (flush acc cur ++ columns)%list.
Proof.
  induction columns as [|c cs IH]; intros H acc cur.
  - simpl. now rewrite app_nil_r.
  - unfold board_ok in H. cbn [forallb] in H.
    apply andb_prop in H as [Hc Hcs].
    cbn [map List.concat].
    rewrite (parse_column_lines _ Hc), (IH Hcs). cbn [flush].
    now rewrite <- app_assoc.
Qed.

(** *** The written lines hold no line feed *)

Lemma item_line_no_lf (it : BoardItem) :
  item_ok it = true -> no_lf (item_line it) = true.
Proof.
  destruct it as [t c d]. unfold item_ok, item_line.
  cbn [title completed date].
  intros H. apply andb_prop in H as [Ht Hd].
  apply captured_no_line_break, no_line_break_no_lf in Ht.
  rewrite !no_lf_app, Ht.
  assert (Hp : no_lf (match truthy d with
                      | Some s => " @{" ++ s ++ "}"
                      | None => ""
                      end) = true).
  { destruct d as [s|]; [|reflexivity].
    cbn [truthy]. destruct (is_empty s); [reflexivity|].
    apply captured_no_line_break, no_line_break_no_lf in Hd.
    now rewrite !no_lf_app, Hd. }
  rewrite Hp. now destruct c.
Qed.

Lemma item_lines_no_lf (its : list BoardItem) :
  forallb item_ok its = true -> forallb no_lf (map item_line its) = true.
Proof.
  induction its as [|it its IH]; intros H; [reflexivity|].
  cbn [forallb map] in *. apply andb_prop in H as [Hi Hs].
  now rewrite (item_line_no_lf _ Hi), IH.
Qed.

Lemma column_lines_no_lf (c : BoardColumn) :
  column_ok c = true -> forallb no_lf (column_lines c) = true.
Proof.
  destruct c as [n its]. unfold column_ok, column_lines.
  cbn [name items].
  intros H. apply andb_prop in H as [Hn Hi].
  unfold line_safe_name in Hn.
  apply andb_prop in Hn as [Hn _]. apply andb_prop in Hn as [_ Hn].
  apply no_line_break_no_lf in Hn.
  cbn [forallb]. rewrite no_lf_app, Hn, forallb_app, (item_lines_no_lf _ Hi).
  now destruct (n =? "Done")%string.
Qed.

Lemma board_lines_no_lf (columns : list BoardColumn) :
  board_ok columns = true ->
  forallb no_lf (List.concat (map column_lines columns)) = true.
Proof.
  induction columns as [|c cs IH]; intros H; [reflexivity|].
  unfold board_ok in H. cbn [forallb] in H.
  apply andb_prop in H as [Hc Hcs].
  cbn [map List.concat].
  rewrite forallb_app, (column_lines_no_lf _ Hc). simpl. auto.
Qed.

(** *** What gray-matter hands back from a written board *)

Lemma matter_content_written (columns : list BoardColumn) :
  matter_content (writeBoardText columns)
  = join_lines ("" :: List.concat (map column_lines columns)).
Proof.
  unfold writeBoardText, header_lines.
  remember (List.concat (map column_lines columns)) as L.
  change (join_lines (["---"; "kanban-plugin: basic"; "---"; ""] ++ L)%list)
    with ("---" ++ nl ++ "kanban-plugin: basic" ++ nl ++ "---" ++ nl
          ++ join_lines ("" :: L)).
  reflexivity.
Qed.

(** The codec reads back exactly what it wrote, for every board whose
    names, titles and dates a line can carry. *)
Lemma parse_written (columns : list BoardColumn) :
  board_ok columns = true ->
  parseBoardText (writeBoardText columns) = columns.
Proof.
  intros H. unfold parseBoardText, parseBoardContent.
  rewrite matter_content_written, split_join.
  - simpl. now rewrite parse_columns_lines.
  - discriminate.
  - simpl. now apply board_lines_no_lf.
Qed.

(** *** What the parser returns is such a board *)

Lemma match_column_safe (line n : string) :
  match_column line = Some n -> is_empty n = false ->
  line_safe_name n = true.
Proof.
  unfold match_column, line_safe_name. intros H He.
  destruct (strip_prefix "## " line) as [r|]; [|discriminate].
  destruct (negb (is_empty r) && no_line_break r) eqn:E; [|discriminate].
  inversion H; subst n. apply andb_prop in E as [_ Hb].
  rewrite He, (no_line_break_trim _ Hb), trim_idem, String.eqb_refl.
  reflexivity.
Qed.

Lemma match_date_safe (rest : string) :
  line_safe_date (match_date rest) = true.
Proof.
  unfold match_date.
  destruct (strip_prefix "@{" (trim_start rest)) as [r|]; [|reflexivity].
  destruct (lazy_until "}" r) as [[d x]|] eqn:E; [|reflexivity].
  simpl. eapply lazy_until_captured; eauto.
Qed.

Lemma match_item_safe (line : string) (it : BoardItem) :
  match_item line = Some it -> item_ok it = true.
Proof.
  unfold match_item, item_ok. intros H.
  destruct (strip_prefix "- [" line) as [[|c r]|]; try discriminate.
  destruct (Ascii.eqb c " " || Ascii.eqb c "x"); [|discriminate].
  destruct (strip_prefix "] [[" r) as [r'|]; [|discriminate].
  destruct (lazy_until "]]" r') as [[t rest]|] eqn:E; [|discriminate].
  inversion H; subst it. simpl.
  unfold line_safe_title. rewrite (lazy_until_captured _ _ _ _ E).
  apply match_date_safe.
Qed.

Lemma board_ok_app (a b : list BoardColumn) :
  board_ok (a ++ b) = board_ok a && board_ok b.
Proof. apply forallb_app. Qed.

Lemma flush_ok (acc : list BoardColumn) (cur : option BoardColumn) :
  board_ok acc = true -> cur_ok cur = true -> board_ok (flush acc cur) = true.
Proof.
  destruct cur as [c|]; simpl; auto.
  intros Ha Hc. rewrite board_ok_app, Ha. simpl. now rewrite Hc.
Qed.

Lemma parse_lines_ok (ls : list string) :
  forallb (fun l => negb (blank_header l)) ls = true ->
  forall acc cur,
    board_ok acc = true -> cur_ok cur = true ->
    board_ok (parse_lines ls acc cur) = true.
Proof.
  induction ls as [|l ls IH]; simpl; intros H acc cur Ha Hc.
  - now apply flush_ok.
  - apply andb_prop in H as [Hl Hls].
    unfold blank_header in Hl.
    destruct (match_column l) as [n|] eqn:En.
    + apply negb_true_iff in Hl.
      apply IH; auto using flush_ok.
      simpl. unfold column_ok. simpl.
      now rewrite (match_column_safe _ _ En Hl).
    + destruct cur as [c|]; auto.
      destruct (match_item l) as [it|] eqn:Ei; auto.
      apply IH; auto. simpl in *. unfold column_ok in *. simpl.
      apply andb_prop in Hc as [Hn Hi]. rewrite Hn, forallb_app, Hi. simpl.
      now rewrite (match_item_safe _ _ Ei).
Qed.

Lemma parse_content_ok (content : string) :
  well_formed_content content = true ->
  board_ok (parseBoardContent content) = true.
Proof.
  intros H. apply parse_lines_ok; auto.
Qed.

End CodecFacts.

Import CodecFacts.

(* ================================================================== *)
(** ** Facts about the folder and the board primitives                 *)
(* ================================================================== *)

Module BoardFacts.

Lemma read_write_same (k : string) (f : MdFile) (dir : Folder) :
  Fs.read k (Fs.write k f dir) = Some f.
Proof.
  induction dir as [|[k' g] dir IH]; simpl.
  - now rewrite String.eqb_refl.
  - destruct (k' =? k)%string eqn:E; simpl; rewrite E; auto.
Qed.

Lemma read_write_other (k k' : string) (f : MdFile) (dir : Folder) :
  k' <> k -> Fs.read k' (Fs.write k f dir) = Fs.read k' dir.
Proof.
  intros Hne. induction dir as [|[k0 g] dir IH]; simpl.
  - apply String.eqb_neq in Hne. rewrite String.eqb_sym in Hne.
    now rewrite Hne.
  - destruct (k0 =? k)%string eqn:E; simpl.
    + apply String.eqb_eq in E. subst k0.
      apply String.eqb_neq in Hne. rewrite String.eqb_sym in Hne.
      now rewrite Hne.
    + now rewrite IH.
Qed.

Lemma keys_write_present (k : string) (f : MdFile) (dir : Folder) :
  Fs.exists_ k dir = true -> map fst (Fs.write k f dir) = map fst dir.
Proof.
  unfold Fs.exists_. induction dir as [|[k0 g] dir IH]; simpl.
  - discriminate.
  - destruct (k0 =? k)%string eqn:E; simpl; auto.
    intros H. now rewrite IH.
Qed.

Lemma keys_write_absent (k : string) (f : MdFile) (dir : Folder) :
  Fs.exists_ k dir = false ->
  map fst (Fs.write k f dir) = (map fst dir ++ [k])%list.
Proof.
  unfold Fs.exists_. induction dir as [|[k0 g] dir IH]; simpl; auto.
  destruct (k0 =? k)%string eqn:E; simpl; [discriminate|].
  intros H. now rewrite IH.
Qed.

(** *** The board file read back after a write *)

Lemma parse_writeBoardFile (dir : Folder) (columns : list BoardColumn) :
  board_ok columns = true ->
  parseBoardFile (writeBoardFile dir columns) = columns.
Proof.
  intros H. unfold parseBoardFile, writeBoardFile.
  rewrite read_write_same. cbn [content board_file].
  now apply parse_written.
Qed.

Lemma parse_file_ok (dir : Folder) :
  well_formed_board dir = true -> board_ok (parseBoardFile dir) = true.
Proof.
  unfold well_formed_board, parseBoardFile.
  destruct (Fs.read BOARD dir); [apply parse_content_ok|reflexivity].
Qed.

(** *** The mutations keep a board writable *)

Lemma status_column_safe (st : Status) :
  line_safe_name (STATUS_TO_COLUMN st) = true.
Proof. destruct st; reflexivity. Qed.

Lemma update_first_ok (n : string) (f : BoardColumn -> BoardColumn)
    (columns : list BoardColumn) :
  (forall c, column_ok c = true -> column_ok (f c) = true) ->
  board_ok columns = true -> board_ok (update_first n f columns) = true.
Proof.
  intros Hf. unfold board_ok.
  induction columns as [|c cs IH]; simpl; auto.
  intros H. apply andb_prop in H as [Hc Hcs].
  destruct (name c =? n)%string; simpl.
  - now rewrite (Hf _ Hc).
  - now rewrite Hc, IH.
Qed.

Lemma push_item_ok (t : string) (st : Status) (d : option string)
    (c : BoardColumn) :
  line_safe_title t = true -> line_safe_date d = true ->
  column_ok c = true -> column_ok (push_item t st d c) = true.
Proof.
  intros Ht Hd Hc. unfold push_item.
  destruct (has_title t (items c)); auto.
  unfold column_ok in *. cbn [name items].
  apply andb_prop in Hc as [Hn Hi].
  rewrite Hn, forallb_app, Hi. unfold item_ok. simpl.
  now rewrite Ht, Hd.
Qed.

Lemma add_item_ok (t : string) (st : Status) (d : option string)
    (columns : list BoardColumn) :
  line_safe_title t = true -> line_safe_date d = true ->
  board_ok columns = true -> board_ok (add_item t st d columns) = true.
Proof.
  intros Ht Hd H. unfold add_item.
  apply update_first_ok; [intros c; now apply push_item_ok|].
  destruct (has_column (STATUS_TO_COLUMN st) columns); auto.
  rewrite board_ok_app, H. simpl. unfold column_ok. simpl.
  now rewrite status_column_safe.
Qed.

Lemma remove_item_ok (t : string) (columns : list BoardColumn) :
  board_ok columns = true -> board_ok (remove_item t columns) = true.
Proof.
  unfold board_ok, remove_item.
  induction columns as [|c cs IH]; simpl; auto.
  intros H. apply andb_prop in H as [Hc Hcs]. rewrite (IH Hcs), andb_true_r.
  unfold column_ok in *. cbn [name items].
  apply andb_prop in Hc as [Hn Hi]. rewrite Hn. simpl.
  rewrite forallb_forall in *. intros x Hx.
  apply filter_In in Hx as [Hx _]. auto.
Qed.

Lemma rename_item_ok (oldTitle newTitle : string)
    (columns : list BoardColumn) :
  line_safe_title newTitle = true ->
  board_ok columns = true ->
  board_ok (rename_item oldTitle newTitle columns) = true.
Proof.
  intros Hn. unfold board_ok, rename_item.
  induction columns as [|c cs IH]; simpl; auto.
  intros H. apply andb_prop in H as [Hc Hcs]. rewrite (IH Hcs), andb_true_r.
  unfold column_ok in *. cbn [name items].
  apply andb_prop in Hc as [Hc Hi]. rewrite Hc. simpl.
  rewrite forallb_forall in *. intros x Hx.
  apply in_map_iff in Hx as (i & <- & Hi').
  specialize (Hi _ Hi').
  destruct (title i =? oldTitle)%string; auto.
  unfold item_ok in *. cbn [title date].
  apply andb_prop in Hi as [_ Hd]. now rewrite Hn, Hd.
Qed.

Create HintDb board discriminated.
#[export] Hint Resolve add_item_ok remove_item_ok rename_item_ok
  parse_file_ok : board.

(** *** The primitives, seen through the parser *)

Lemma addToBoard_parse (dir : Folder) (t : string) (st : Status)
    (d : option string) :
  board_ok (parseBoardFile dir) = true ->
  line_safe_title t = true -> line_safe_date d = true ->
  parseBoardFile (addToBoard dir t st d)
  = add_item t st d (parseBoardFile dir).
Proof.
  intros. apply parse_writeBoardFile. auto with board.
Qed.

Lemma removeFromBoard_parse (dir : Folder) (t : string) :
  board_ok (parseBoardFile dir) = true ->
  parseBoardFile (removeFromBoard dir t) = remove_item t (parseBoardFile dir).
Proof.
  intros. apply parse_writeBoardFile. auto with board.
Qed.

Lemma renameOnBoard_parse (dir : Folder) (oldTitle newTitle : string) :
  board_ok (parseBoardFile dir) = true ->
  line_safe_title newTitle = true ->
  parseBoardFile (renameOnBoard dir oldTitle newTitle)
  = rename_item oldTitle newTitle (parseBoardFile dir).
Proof.
  intros. apply parse_writeBoardFile. auto with board.
Qed.

Lemma moveOnBoard_parse (dir : Folder) (t : string) (st : Status)
    (d : option string) :
  board_ok (parseBoardFile dir) = true ->
  line_safe_title t = true -> line_safe_date d = true ->
  parseBoardFile (moveOnBoard dir t st d)
  = add_item t st d (remove_item t (parseBoardFile dir)).
Proof.
  intros H Ht Hd. unfold moveOnBoard.
  rewrite addToBoard_parse; auto.
  - now rewrite removeFromBoard_parse.
  - rewrite removeFromBoard_parse; auto with board.
Qed.

End BoardFacts.

Import BoardFacts.

(* ================================================================== *)
(** ** Facts about the in-memory mutations                             *)
(* ================================================================== *)

Module MutationFacts.

Lemma count_title_app (t : string) (a b : list BoardColumn) :
  count_title t (a ++ b) = count_title t a + count_title t b.
Proof.
  unfold count_title. now rewrite map_app, list_sum_app.
Qed.

Lemma count_title_cons (t : string) (c : BoardColumn) (b : list BoardColumn) :
  count_title t (c :: b) = count_in t (items c) + count_title t b.
Proof. reflexivity. Qed.

Lemma holders_app (t : string) (a b : list BoardColumn) :
  holders t (a ++ b) = (holders t a ++ holders t b)%list.
Proof. unfold holders. now rewrite filter_app, map_app. Qed.

Lemma holders_cons (t : string) (c : BoardColumn) (b : list BoardColumn) :
  holders t (c :: b)
  = ((if has_title t (items c) then [name c] else []) ++ holders t b)%list.
Proof. unfold holders. simpl. now destruct (has_title t (items c)). Qed.

Lemma board_titles_app (a b : list BoardColumn) :
  board_titles (a ++ b) = (board_titles a ++ board_titles b)%list.
Proof. unfold board_titles. now rewrite flat_map_app. Qed.

Lemma has_title_count (t : string) (its : list BoardItem) :
  has_title t its = negb (count_in t its =? 0)%nat.
Proof.
  unfold has_title, count_in. induction its as [|i its IH]; simpl; auto.
  destruct (title i =? t)%string; simpl; auto.
Qed.

Lemma count_in_app (t : string) (a b : list BoardItem) :
  count_in t (a ++ b) = count_in t a + count_in t b.
Proof. unfold count_in. now rewrite filter_app, length_app. Qed.

Lemma has_title_app (t : string) (a b : list BoardItem) :
  has_title t (a ++ b) = has_title t a || has_title t b.
Proof. apply existsb_app. Qed.

(** *** The shape of a board after [add_item] *)

Lemma has_column_find (n : string) (columns : list BoardColumn) :
  has_column n columns = false ->
  find (fun c => String.eqb (name c) n) columns = None.
Proof.
  unfold has_column. induction columns as [|c cs IH]; simpl; auto.
  destruct (name c =? n)%string; simpl; [discriminate|auto].
Qed.

Lemma find_has_column (n : string) (columns : list BoardColumn) c :
  find (fun c => String.eqb (name c) n) columns = Some c ->
  has_column n columns = true.
Proof.
  unfold has_column. induction columns as [|x cs IH]; simpl; [discriminate|].
  destruct (name x =? n)%string; simpl; auto.
Qed.

Lemma update_first_split (n : string) (f : BoardColumn -> BoardColumn)
    (columns : list BoardColumn) (c : BoardColumn) :
  find (fun c => String.eqb (name c) n) columns = Some c ->
  exists pre post,
    columns = (pre ++ c :: post)%list /\ has_column n pre = false
    /\ name c = n
    /\ update_first n f columns = (pre ++ f c :: post)%list.
Proof.
  induction columns as [|x cs IH]; simpl; [discriminate|].
  destruct (name x =? n)%string eqn:E.
  - intros H. inversion H; subst x. exists [], cs.
    apply String.eqb_eq in E. auto.
  - intros H. destruct (IH H) as (pre & post & -> & Hp & Hn & Hu).
    exists (x :: pre), post. simpl. unfold has_column in *. simpl.
    rewrite E, Hu. auto.
Qed.

Lemma update_first_absent (n : string) (f : BoardColumn -> BoardColumn)
    (columns : list BoardColumn) (c : BoardColumn) :
  has_column n columns = false -> name c = n ->
  update_first n f (columns ++ [c]) = (columns ++ [f c])%list.
Proof.
  unfold has_column. intros H Hn.
  induction columns as [|x cs IH]; simpl in *.
  - subst n. now rewrite String.eqb_refl.
  - destruct (name x =? n)%string; simpl in *; [discriminate|].
    now rewrite IH.
Qed.

Lemma add_item_present (t : string) (st : Status) (d : option string)
    (columns : list BoardColumn) (c : BoardColumn) :
  target_column st columns = Some c ->
  exists pre post,
    columns = (pre ++ c :: post)%list
    /\ has_column (STATUS_TO_COLUMN st) pre = false
    /\ name c = STATUS_TO_COLUMN st
    /\ add_item t st d columns = (pre ++ push_item t st d c :: post)%list.
Proof.
  unfold target_column, add_item. intros H.
  rewrite (find_has_column _ _ _ H).
  now apply update_first_split.
Qed.

Lemma target_none_no_column (st : Status) (columns : list BoardColumn) :
  target_column st columns = None ->
  has_column (STATUS_TO_COLUMN st) columns = false.
Proof.
  unfold target_column. intros H.
  destruct (has_column (STATUS_TO_COLUMN st) columns) eqn:E; auto.
  unfold has_column in E. apply existsb_exists in E as (x & Hx & Hn).
  pose proof (find_none _ _ H _ Hx) as Hf. simpl in Hf. congruence.
Qed.

Lemma add_item_absent (t : string) (st : Status) (d : option string)
    (columns : list BoardColumn) :
  target_column st columns = None ->
  add_item t st d columns
  = (columns
     ++ [mkColumn (STATUS_TO_COLUMN st)
           [mkItem t (Status_eqb st done || Status_eqb st archived) d]])%list.
Proof.
  intros H. unfold add_item.
  rewrite (target_none_no_column _ _ H).
  rewrite update_first_absent; auto using target_none_no_column.
Qed.

Lemma holders_no_column (t n : string) (columns : list BoardColumn) :
  has_column n columns = false -> ~ In n (holders t columns).
Proof.
  unfold has_column, holders. intros H Hin.
  apply in_map_iff in Hin as (c & Hn & Hc).
  apply filter_In in Hc as [Hc _].
  assert (E : existsb (fun c => (name c =? n)%string) columns = true).
  { apply existsb_exists. exists c. split; auto.
    now apply String.eqb_eq. }
  congruence.
Qed.

Lemma target_column_split (st : Status) (pre post : list BoardColumn)
    (c : BoardColumn) :
  has_column (STATUS_TO_COLUMN st) pre = false ->
  name c = STATUS_TO_COLUMN st ->
  target_column st (pre ++ c :: post) = Some c.
Proof.
  unfold target_column, has_column. intros Hp Hn.
  induction pre as [|x pre IH]; simpl in *.
  - now rewrite Hn, String.eqb_refl.
  - destruct (name x =? STATUS_TO_COLUMN st)%string; simpl in *;
      [discriminate|auto].
Qed.

Lemma push_item_name (t : string) (st : Status) (d : option string)
    (c : BoardColumn) : name (push_item t st d c) = name c.
Proof. unfold push_item. now destruct (has_title t (items c)). Qed.

Lemma push_item_has (t : string) (st : Status) (d : option string)
    (c : BoardColumn) : has_title t (items (push_item t st d c)) = true.
Proof.
  unfold push_item. destruct (has_title t (items c)) eqn:E; auto.
  cbn [items]. rewrite has_title_app. unfold has_title at 2. simpl.
  now rewrite String.eqb_refl, orb_true_r.
Qed.

Lemma push_item_count (t' t : string) (st : Status) (d : option string)
    (c : BoardColumn) :
  count_in t' (items (push_item t st d c))
  = count_in t' (items c)
    + (if (t =? t')%string && (count_in t (items c) =? 0)%nat then 1 else 0).
Proof.
  unfold push_item. rewrite has_title_count.
  destruct (count_in t (items c) =? 0)%nat; simpl.
  - rewrite count_in_app. unfold count_in at 2. simpl.
    now destruct (t =? t')%string.
  - rewrite andb_false_r. lia.
Qed.

Lemma push_item_other (t' t : string) (st : Status) (d : option string)
    (c : BoardColumn) :
  t <> t' ->
  has_title t' (items (push_item t st d c)) = has_title t' (items c).
Proof.
  intros Hne. unfold push_item. destruct (has_title t (items c)); auto.
  cbn [items]. rewrite has_title_app. unfold has_title at 2. simpl.
  apply String.eqb_neq in Hne. now rewrite Hne, !orb_false_r.
Qed.

(** [add_item] leaves a board alone once the target column holds the
    title. *)
Lemma add_item_fix (t : string) (st : Status) (d : option string)
    (columns : list BoardColumn) (c : BoardColumn) :
  target_column st columns = Some c -> has_title t (items c) = true ->
  add_item t st d columns = columns.
Proof.
  intros Hc Ht.
  destruct (add_item_present t st d _ _ Hc) as (pre & post & E & _ & _ & ->).
  unfold push_item. now rewrite Ht.
Qed.

Lemma target_after_add (t : string) (st : Status) (d : option string)
    (columns : list BoardColumn) :
  exists c, target_column st (add_item t st d columns) = Some c
            /\ has_title t (items c) = true
            /\ count_in t (items c)
               = target_count t st columns
                 + (if (target_count t st columns =? 0)%nat then 1 else 0).
Proof.
  unfold target_count.
  destruct (target_column st columns) as [c|] eqn:Hc.
  - destruct (add_item_present t st d _ _ Hc) as (pre & post & E & Hp & Hn & ->).
    exists (push_item t st d c). split; [|split].
    + apply target_column_split; auto. now rewrite push_item_name.
    + apply push_item_has.
    + rewrite push_item_count, String.eqb_refl. reflexivity.
  - rewrite (add_item_absent _ _ _ _ Hc). eexists. split; [|split].
    + apply target_column_split; auto using target_none_no_column.
    + unfold has_title. simpl. now rewrite String.eqb_refl.
    + unfold count_in. simpl. now rewrite String.eqb_refl.
Qed.

Lemma add_item_idem (t : string) (st : Status) (d : option string)
    (columns : list BoardColumn) :
  add_item t st d (add_item t st d columns) = add_item t st d columns.
Proof.
  destruct (target_after_add t st d columns) as (c & Hc & Ht & _).
  eapply add_item_fix; eauto.
Qed.

Lemma count_add_item (t' t : string) (st : Status) (d : option string)
    (columns : list BoardColumn) :
  count_title t' (add_item t st d columns)
  = count_title t' columns
    + (if (t =? t')%string && (target_count t st columns =? 0)%nat
       then 1 else 0).
Proof.
  unfold target_count.
  destruct (target_column st columns) as [c|] eqn:Hc.
  - destruct (add_item_present t st d _ _ Hc) as (pre & post & -> & _ & _ & ->).
    rewrite !count_title_app, !count_title_cons, push_item_count. lia.
  - rewrite (add_item_absent _ _ _ _ Hc), count_title_app.
    unfold count_title at 2, count_in. simpl.
    destruct (t =? t')%string; simpl; lia.
Qed.



Lemma target_count_not_holder (t : string) (st : Status)
    (columns : list BoardColumn) :
  ~ In (STATUS_TO_COLUMN st) (holders t columns) ->
  target_count t st columns = 0.
Proof.
  unfold target_count, target_column. intros H.
  destruct (find _ columns) as [c|] eqn:Hc; auto.
  apply find_some in Hc as [Hin Hn]. apply String.eqb_eq in Hn.
  destruct (count_in t (items c)) eqn:E; auto.
  exfalso. apply H. rewrite <- Hn. unfold holders.
  apply in_map, filter_In. split; auto.
  rewrite has_title_count, E. reflexivity.
Qed.


(** *** [remove_item] and [rename_item], column by column *)

Lemma remove_item_columns (t : string) (columns : list BoardColumn) :
  Forall2
    (fun c c' =>
       name c' = name c
       /\ items c' = filter (fun i => negb (title i =? t)%string) (items c))
    columns (remove_item t columns).
Proof.
  unfold remove_item. induction columns; simpl; constructor; auto.
Qed.

Lemma count_in_removed (t : string) (its : list BoardItem) :
  count_in t (filter (fun i => negb (title i =? t)%string) its) = 0.
Proof.
  unfold count_in. induction its as [|i its IH]; simpl; auto.
  destruct (title i =? t)%string eqn:E; simpl; auto. now rewrite E.
Qed.

Lemma count_remove_item (t : string) (columns : list BoardColumn) :
  count_title t (remove_item t columns) = 0.
Proof.
  unfold count_title, remove_item.
  induction columns as [|c cs IH]; simpl; auto.
  now rewrite count_in_removed, IH.
Qed.

Lemma rename_item_columns (oldTitle newTitle : string)
    (columns : list BoardColumn) :
  Forall2
    (fun c c' =>
       name c' = name c
       /\ Forall2
            (fun i i' =>
               completed i' = completed i /\ date i' = date i
               /\ title i' = if (title i =? oldTitle)%string then newTitle
                             else title i)
            (items c) (items c'))
    columns (rename_item oldTitle newTitle columns).
Proof.
  unfold rename_item. induction columns as [|c cs IH]; simpl; constructor; auto.
  split; auto. cbn [items].
  induction (items c) as [|i its IHi]; simpl; constructor; auto.
  destruct (title i =? oldTitle)%string; auto.
Qed.

Lemma write_write (k : string) (f : MdFile) (dir : Folder) :
  Fs.write k f (Fs.write k f dir) = Fs.write k f dir.
Proof.
  induction dir as [|[k0 g] dir IH]; simpl.
  - now rewrite String.eqb_refl.
  - destruct (k0 =? k)%string eqn:E; simpl; rewrite E; auto.
    now rewrite IH.
Qed.

(** *** An empty due date is no due date *)

Lemma item_line_date (t : string) (c : bool) (d : option string) :
  item_line (mkItem t c (truthy d)) = item_line (mkItem t c d).
Proof. unfold item_line. cbn [title completed date]. now rewrite truthy_idem. Qed.

Lemma column_lines_push (t : string) (st : Status) (d : option string)
    (c : BoardColumn) :
  column_lines (push_item t st (truthy d) c)
  = column_lines (push_item t st d c).
Proof.
  unfold push_item. destruct (has_title t (items c)); auto.
  unfold column_lines. cbn [name items]. rewrite !map_app. cbn [map].
  now rewrite item_line_date.
Qed.

Lemma update_first_lines (n : string) (f g : BoardColumn -> BoardColumn)
    (columns : list BoardColumn) :
  (forall c, column_lines (f c) = column_lines (g c)) ->
  map column_lines (update_first n f columns)
  = map column_lines (update_first n g columns).
Proof.
  intros H. induction columns as [|c cs IH]; [reflexivity|].
  cbn [update_first]. destruct (name c =? n)%string; cbn [map].
  - now rewrite H.
  - now rewrite IH.
Qed.

Lemma writeBoardText_add (t : string) (st : Status) (d : option string)
    (columns : list BoardColumn) :
  writeBoardText (add_item t st (truthy d) columns)
  = writeBoardText (add_item t st d columns).
Proof.
  unfold writeBoardText, add_item.
  now rewrite (update_first_lines _ _ (push_item t st d))
    by (intros; apply column_lines_push).
Qed.

Lemma addToBoard_truthy (dir : Folder) (t : string) (st : Status)
    (d : option string) :
  addToBoard dir t st (truthy d) = addToBoard dir t st d.
Proof.
  unfold addToBoard, writeBoardFile. now rewrite writeBoardText_add.
Qed.

Lemma addToBoard_parse_truthy (dir : Folder) (t : string) (st : Status)
    (d : option string) :
  board_ok (parseBoardFile dir) = true ->
  line_safe_title t = true -> line_safe_date (truthy d) = true ->
  parseBoardFile (addToBoard dir t st d)
  = add_item t st (truthy d) (parseBoardFile dir).
Proof.
  intros. rewrite <- addToBoard_truthy. now apply addToBoard_parse.
Qed.

End MutationFacts.

Import MutationFacts.

(* ================================================================== *)
(** ** Facts about who holds a title                                   *)
(* ================================================================== *)

Module HolderFacts.

Lemma mem_titles (t : string) (its : list BoardItem) :
  mem t (map title its) = has_title t its.
Proof.
  unfold mem, has_title. induction its as [|i its IH]; simpl; auto.
  now rewrite IH, String.eqb_sym.
Qed.

Lemma on_board_cons (t : string) (c : BoardColumn) (b : list BoardColumn) :
  on_board t (c :: b) = has_title t (items c) || on_board t b.
Proof.
  unfold on_board, board_titles. cbn [flat_map]. unfold mem.
  rewrite existsb_app. f_equal. apply mem_titles.
Qed.

Lemma on_board_holders (t : string) (columns : list BoardColumn) :
  on_board t columns
  = match holders t columns with [] => false | _ => true end.
Proof.
  induction columns as [|c b IH]; [reflexivity|].
  rewrite on_board_cons, holders_cons.
  destruct (has_title t (items c)); simpl; auto.
Qed.

Lemma current_column_holders (t : string) (columns : list BoardColumn) :
  current_column t columns = hd_error (holders t columns).
Proof.
  unfold current_column. induction columns as [|c b IH]; [reflexivity|].
  rewrite holders_cons. simpl.
  destruct (has_title t (items c)); simpl; auto.
Qed.

Lemma holder_named (t n : string) (columns : list BoardColumn) :
  board_ok columns = true -> In n (holders t columns) -> is_empty n = false.
Proof.
  unfold holders, board_ok. intros Hok Hin.
  apply in_map_iff in Hin as (c & <- & Hc).
  apply filter_In in Hc as [Hc _].
  rewrite forallb_forall in Hok. specialize (Hok _ Hc).
  unfold column_ok, line_safe_name in Hok.
  apply andb_prop in Hok as [Hn _]. apply andb_prop in Hn as [Hn _].
  apply andb_prop in Hn as [Hn _]. now apply negb_true_iff in Hn.
Qed.

(** *** Holders after [add_item] *)

Lemma holders_add_other (t' t : string) (st : Status) (d : option string)
    (columns : list BoardColumn) :
  t <> t' -> holders t' (add_item t st d columns) = holders t' columns.
Proof.
  intros Hne.
  destruct (target_column st columns) as [c|] eqn:Hc.
  - destruct (add_item_present t st d _ _ Hc) as (pre & post & -> & _ & _ & ->).
    rewrite !holders_app, !holders_cons, push_item_name.
    now rewrite push_item_other.
  - rewrite (add_item_absent _ _ _ _ Hc), holders_app, holders_cons.
    cbn [items name]. unfold has_title. simpl.
    apply String.eqb_neq in Hne. rewrite Hne. simpl. now rewrite app_nil_r.
Qed.

Lemma holders_add_new (t : string) (st : Status) (d : option string)
    (columns : list BoardColumn) :
  holders t columns = [] ->
  holders t (add_item t st d columns) = [STATUS_TO_COLUMN st].
Proof.
  intros Hnil.
  destruct (target_column st columns) as [c|] eqn:Hc.
  - destruct (add_item_present t st d _ _ Hc) as (pre & post & E & _ & Hn & ->).
    subst columns. rewrite holders_app, holders_cons in Hnil.
    apply app_eq_nil in Hnil as [Hpre Hrest].
    apply app_eq_nil in Hrest as [_ Hpost].
    rewrite holders_app, holders_cons, Hpre, Hpost, push_item_has.
    now rewrite push_item_name, Hn.
  - rewrite (add_item_absent _ _ _ _ Hc), holders_app, Hnil, holders_cons.
    cbn [items name]. unfold has_title. simpl.
    now rewrite String.eqb_refl.
Qed.

(** *** Holders after [remove_item] *)

Lemma has_title_removed (t' t : string) (its : list BoardItem) :
  has_title t' (filter (fun i => negb (title i =? t)%string) its)
  = negb (t' =? t)%string && has_title t' its.
Proof.
  unfold has_title. destruct (t' =? t)%string eqn:Et; cbn [negb andb].
  - apply String.eqb_eq in Et. subst t'.
    induction its as [|i its IH]; [reflexivity|].
    simpl. destruct (title i =? t)%string eqn:E; simpl; auto.
    now rewrite E.
  - induction its as [|i its IH]; [reflexivity|].
    simpl. destruct (title i =? t)%string eqn:E; simpl; rewrite IH; auto.
    apply String.eqb_eq in E. rewrite E, String.eqb_sym, Et. reflexivity.
Qed.

Lemma holders_remove_other (t' t : string) (columns : list BoardColumn) :
  t <> t' -> holders t' (remove_item t columns) = holders t' columns.
Proof.
  intros Hne. unfold remove_item.
  induction columns as [|c b IH]; [reflexivity|].
  cbn [map]. rewrite !holders_cons, IH. cbn [items name].
  rewrite has_title_removed.
  assert (E : (t' =? t)%string = false)
    by (apply String.eqb_neq; congruence).
  now rewrite E.
Qed.

Lemma holders_remove_self (t : string) (columns : list BoardColumn) :
  holders t (remove_item t columns) = [].
Proof.
  unfold remove_item. induction columns as [|c b IH]; [reflexivity|].
  cbn [map]. rewrite holders_cons, IH. cbn [items name].
  now rewrite has_title_removed, String.eqb_refl.
Qed.

(** *** The titles a predicate keeps *)

Lemma board_titles_cons (c : BoardColumn) (b : list BoardColumn) :
  board_titles (c :: b) = (map title (items c) ++ board_titles b)%list.
Proof. reflexivity. Qed.

Lemma kept_after_push (p : string -> bool) (t : string) (st : Status)
    (d : option string) (c : BoardColumn) :
  p t = false ->
  filter p (map title (items (push_item t st d c)))
  = filter p (map title (items c)).
Proof.
  intros Hp. unfold push_item. destruct (has_title t (items c)); auto.
  cbn [items]. rewrite map_app, filter_app. simpl. rewrite Hp.
  now rewrite app_nil_r.
Qed.

Lemma kept_after_add (p : string -> bool) (t : string) (st : Status)
    (d : option string) (columns : list BoardColumn) :
  p t = false ->
  filter p (board_titles (add_item t st d columns))
  = filter p (board_titles columns).
Proof.
  intros Hp.
  destruct (target_column st columns) as [c|] eqn:Hc.
  - destruct (add_item_present t st d _ _ Hc) as (pre & post & -> & _ & _ & ->).
    rewrite !board_titles_app, !board_titles_cons, !filter_app.
    now rewrite kept_after_push.
  - rewrite (add_item_absent _ _ _ _ Hc), board_titles_app, filter_app.
    simpl. rewrite Hp. now rewrite app_nil_r.
Qed.

Lemma kept_after_filter (p : string -> bool) (t : string)
    (its : list BoardItem) :
  p t = false ->
  filter p (map title (filter (fun i => negb (title i =? t)%string) its))
  = filter p (map title its).
Proof.
  intros Hp. induction its as [|i its IH]; [reflexivity|].
  simpl. destruct (title i =? t)%string eqn:E; simpl.
  - apply String.eqb_eq in E. rewrite E, Hp. exact IH.
  - now rewrite IH.
Qed.

Lemma kept_after_remove (p : string -> bool) (t : string)
    (columns : list BoardColumn) :
  p t = false ->
  filter p (board_titles (remove_item t columns))
  = filter p (board_titles columns).
Proof.
  intros Hp. unfold remove_item.
  induction columns as [|c b IH]; [reflexivity|].
  cbn [map]. rewrite !board_titles_cons, !filter_app, IH. cbn [items].
  now rewrite kept_after_filter.
Qed.

Lemma titles_after_remove (x y : string) (columns : list BoardColumn) :
  In y (board_titles (remove_item x columns)) ->
  y <> x /\ In y (board_titles columns).
Proof.
  unfold remove_item. induction columns as [|c b IH]; [intros []|].
  cbn [map]. rewrite !board_titles_cons, !in_app_iff. cbn [items].
  intros [H|H].
  - apply in_map_iff in H as (i & <- & Hi).
    apply filter_In in Hi as [Hi Hne].
    apply negb_true_iff, String.eqb_neq in Hne.
    split; auto. left. now apply in_map.
  - destruct (IH H). auto.
Qed.

End HolderFacts.

Import HolderFacts.

(* ================================================================== *)
(** ** Facts about the two loops of the reconciliation                 *)
(* ================================================================== *)

Module SyncFacts.

Lemma misplaced_holders (columns : list BoardColumn) (task : ParsedTask.t) :
  misplaced columns task
  = match holders (ParsedTask.title task) columns with
    | n :: _ => negb (n =? expected task)%string
    | [] => false
    end.
Proof.
  unfold misplaced. rewrite current_column_holders.
  now destruct (holders (ParsedTask.title task) columns).
Qed.

Section TaskLoop.

(** [boardTitles] is the set of titles read off the board before the loop. *)
Variable boardTitles : list string.

(** One turn of the task loop. *)
Lemma sync_task_step (dir : Folder) (a m : nat) (task : ParsedTask.t) :
  let t := ParsedTask.title task in
  let B := parseBoardFile dir in
  board_ok B = true ->
  task_line_safe task = true ->
  reconcilable B task = true ->
  mem t boardTitles = on_board t B ->
  exists dir',
    sync_task boardTitles (dir, a, m) task
    = (dir', a + (if on_board t B then 0 else 1),
             m + (if misplaced B task then 1 else 0))
    /\ board_ok (parseBoardFile dir') = true
    /\ holders t (parseBoardFile dir') = [expected task]
    /\ (forall t', t <> t' ->
          holders t' (parseBoardFile dir') = holders t' B)
    /\ (forall p, p t = false ->
          filter p (board_titles (parseBoardFile dir'))
          = filter p (board_titles B)).
Proof.
  intros t B Hok Hsafe Hone Hmem.
  unfold task_line_safe in Hsafe. apply andb_prop in Hsafe as [Ht Hd].
  unfold reconcilable in Hone. fold t B in Ht, Hone.
  unfold sync_task. fold t. rewrite Hmem.
  rewrite misplaced_holders, current_column_holders, on_board_holders.
  fold t B.
  destruct (holders t B) as [|n l] eqn:Eh; cbn [negb hd_error].
  - exists (addToBoard dir t (status (ParsedTask.frontmatter task))
              (due_date (ParsedTask.frontmatter task))).
    rewrite addToBoard_parse by assumption. fold B.
    split; [now rewrite Nat.add_1_r, Nat.add_0_r|].
    split; [now apply add_item_ok|].
    split; [now apply holders_add_new|].
    split; [intros; now apply holders_add_other|].
    intros; now apply kept_after_add.
  - assert (Hn : is_empty n = false).
    { apply (holder_named t n B Hok). rewrite Eh. now left. }
    rewrite Hn. cbn [negb andb]. fold (expected task).
    destruct (n =? expected task)%string eqn:En; cbn [negb].
    + destruct l as [|n' l]; [|discriminate].
      exists dir. fold B. rewrite !Nat.add_0_r.
      apply String.eqb_eq in En. subst n. auto.
    + exists (moveOnBoard dir t (status (ParsedTask.frontmatter task))
                (due_date (ParsedTask.frontmatter task))).
      rewrite moveOnBoard_parse by assumption. fold B.
      split; [now rewrite Nat.add_1_r, Nat.add_0_r|].
      split; [now apply add_item_ok, remove_item_ok|].
      split; [apply holders_add_new, holders_remove_self|].
      split.
      * intros t' Hne. rewrite holders_add_other by assumption.
        now apply holders_remove_other.
      * intros p Hp. rewrite kept_after_add by assumption.
        now apply kept_after_remove.
Qed.

Lemma filter_length_ext {A} (f g : A -> bool) (l : list A) :
  (forall x, In x l -> f x = g x) ->
  List.length (filter f l) = List.length (filter g l).
Proof. intros H. now rewrite (filter_ext_in _ _ _ H). Qed.

(** The task loop. *)
Lemma sync_loop (tasks : list ParsedTask.t) :
  forall (dir : Folder) (a m : nat),
    let B := parseBoardFile dir in
    board_ok B = true ->
    NoDup (map ParsedTask.title tasks) ->
    forallb task_line_safe tasks = true ->
    (forall task, In task tasks ->
       reconcilable B task = true
       /\ mem (ParsedTask.title task) boardTitles
          = on_board (ParsedTask.title task) B) ->
    exists dir',
      fold_left (sync_task boardTitles) tasks (dir, a, m)
      = (dir',
         a + List.length
               (filter (fun task => negb (on_board (ParsedTask.title task) B))
                  tasks),
         m + List.length (filter (misplaced B) tasks))
      /\ board_ok (parseBoardFile dir') = true
      /\ (forall task, In task tasks ->
            holders (ParsedTask.title task) (parseBoardFile dir')
            = [expected task])
      /\ (forall t', ~ In t' (map ParsedTask.title tasks) ->
            holders t' (parseBoardFile dir') = holders t' B)
      /\ (forall p,
            (forall task, In task tasks -> p (ParsedTask.title task) = false) ->
            filter p (board_titles (parseBoardFile dir'))
            = filter p (board_titles B)).
Proof.
  induction tasks as [|task tasks IH]; intros dir a m B Hok Hnd Hsafe Hall.
  - exists dir. cbn. rewrite !Nat.add_0_r.
    repeat split; auto. intros ? [].
  - cbn [map] in Hnd. apply NoDup_cons_iff in Hnd as [Hnew Hnd].
    cbn [forallb] in Hsafe. apply andb_prop in Hsafe as [Hs Hsafe].
    destruct (Hall task (or_introl eq_refl)) as [Hone Hmem].
    destruct (sync_task_step dir a m task Hok Hs Hone Hmem)
      as (dir1 & Estep & Hok1 & Hself & Hothers & Hkept).
    fold B in Estep, Hothers, Hkept.
    assert (Hsame : forall task', In task' tasks ->
              holders (ParsedTask.title task') (parseBoardFile dir1)
              = holders (ParsedTask.title task') B).
    { intros task' Hin. apply Hothers. intros E. apply Hnew.
      rewrite E. now apply in_map. }
    destruct (IH dir1 (a + (if on_board (ParsedTask.title task) B
                            then 0 else 1))
                (m + (if misplaced B task then 1 else 0)) Hok1 Hnd Hsafe)
      as (dir' & Efold & Hok' & Hall' & Hout & Hkept').
    { intros task' Hin. destruct (Hall task' (or_intror Hin)) as [H1 H2].
      unfold reconcilable. rewrite on_board_holders, (Hsame _ Hin).
      rewrite <- on_board_holders. auto. }
    exists dir'. split; [|split; [exact Hok'|split; [|split]]].
    + cbn [fold_left]. rewrite Estep, Efold. f_equal; [f_equal|].
      * cbn [filter].
        rewrite (filter_length_ext
                   (fun task0 => negb (on_board (ParsedTask.title task0)
                                         (parseBoardFile dir1)))
                   (fun task0 => negb (on_board (ParsedTask.title task0) B)))
          by (intros x Hx; now rewrite !on_board_holders, (Hsame _ Hx)).
        destruct (on_board (ParsedTask.title task) B); simpl; lia.
      * cbn [filter].
        rewrite (filter_length_ext (misplaced (parseBoardFile dir1))
                   (misplaced B))
          by (intros x Hx; now rewrite !misplaced_holders, (Hsame _ Hx)).
        destruct (misplaced B task); simpl; lia.
    + intros task' [<-|Hin]; [|now apply Hall'].
      now rewrite (Hout _ Hnew).
    + intros t' Hnot. cbn [map] in Hnot.
      rewrite Hout by (intros H; apply Hnot; now right).
      apply Hothers. intros E. apply Hnot. now left.
    + intros p Hp. rewrite Hkept' by (intros; apply Hp; now right).
      apply Hkept, Hp. now left.
Qed.

End TaskLoop.

Lemma mem_In (t : string) (l : list string) : mem t l = true <-> In t l.
Proof.
  unfold mem. rewrite existsb_exists. split.
  - intros (x & Hx & E). apply String.eqb_eq in E. now subst.
  - intros H. exists t. split; auto. apply String.eqb_refl.
Qed.

Section Pruning.

(** [fileTitles] is the set of the task files' titles. *)
Variable fileTitles : list string.

(** The pruning loop. *)
Lemma prune_loop (L : list string) :
  forall (dir : Folder) (r : nat),
    board_ok (parseBoardFile dir) = true ->
    exists dir',
      fold_left (prune_item fileTitles) L (dir, r)
      = (dir',
         r + List.length (filter (fun t => negb (mem t fileTitles)) L))
      /\ board_ok (parseBoardFile dir') = true
      /\ (forall t, mem t fileTitles = true ->
            holders t (parseBoardFile dir') = holders t (parseBoardFile dir))
      /\ (forall y, In y (board_titles (parseBoardFile dir')) ->
            In y (board_titles (parseBoardFile dir))
            /\ (In y L -> mem y fileTitles = true)).
Proof.
  induction L as [|x L IH]; intros dir r Hok.
  - exists dir. cbn. rewrite Nat.add_0_r. repeat split; auto.
  - cbn [fold_left filter]. unfold prune_item at 2.
    destruct (mem x fileTitles) eqn:Ex; cbn [negb].
    + destruct (IH dir r Hok) as (dir' & E & Hok' & Hh & Ht).
      exists dir'. split; [exact E|]. split; [exact Hok'|].
      split; [exact Hh|].
      intros y Hy. destruct (Ht y Hy) as [H1 H2]. split; auto.
      intros [<-|Hin]; auto.
    + destruct (IH (removeFromBoard dir x) (S r)) as (dir' & E & Hok' & Hh & Ht).
      { rewrite removeFromBoard_parse by assumption.
        now apply remove_item_ok. }
      rewrite removeFromBoard_parse in Hh, Ht by assumption.
      exists dir'. split; [rewrite E; simpl; f_equal; lia|].
      split; [exact Hok'|]. split.
      * intros t Hm. rewrite (Hh t Hm). apply holders_remove_other.
        intros <-. congruence.
      * intros y Hy. destruct (Ht y Hy) as [H1 H2].
        apply titles_after_remove in H1 as [Hne Hin]. split; auto.
        intros [Heq|Hin']; [congruence|auto].
Qed.

End Pruning.

(** *** The start of the call *)

Lemma write_absent (k : string) (f : MdFile) (dir : Folder) :
  Fs.exists_ k dir = false -> Fs.write k f dir = (dir ++ [(k, f)])%list.
Proof.
  unfold Fs.exists_. induction dir as [|[k0 g] dir IH]; simpl; auto.
  destruct (k0 =? k)%string; [discriminate|].
  intros H. now rewrite IH.
Qed.

Lemma parseTaskFile_write_other (dir : Folder) (now k k' : string)
    (f : MdFile) :
  k <> k' -> parseTaskFile (Fs.write k' f dir) now k = parseTaskFile dir now k.
Proof.
  intros H. unfold parseTaskFile. now rewrite read_write_other.
Qed.

Lemma list_tasks_ensure (dir : Folder) (now : string) :
  listTaskFiles (ensureVaultStructure dir) now = listTaskFiles dir now.
Proof.
  unfold ensureVaultStructure.
  destruct (Fs.exists_ BOARD dir) eqn:E; [reflexivity|].
  unfold listTaskFiles.
  set (dir' := Fs.write BOARD (board_file defaultBoard) dir).
  rewrite (flat_map_ext
             (fun e => if (fst e =? BOARD)%string then []
                       else match parseTaskFile dir' now (fst e) with
                            | Some task => [task]
                            | None => []
                            end)
             (fun e => if (fst e =? BOARD)%string then []
                       else match parseTaskFile dir now (fst e) with
                            | Some task => [task]
                            | None => []
                            end)).
  - unfold dir'. rewrite (write_absent _ _ _ E), flat_map_app.
    cbn [flat_map fst]. rewrite String.eqb_refl. now rewrite !app_nil_r.
  - intros [k g]. cbn [fst].
    destruct (k =? BOARD)%string eqn:Ek; auto.
    apply String.eqb_neq in Ek. unfold dir'.
    now rewrite parseTaskFile_write_other.
Qed.

Lemma ensure_board_ok (dir : Folder) :
  well_formed_board dir = true ->
  board_ok (parseBoardFile (ensureVaultStructure dir)) = true.
Proof.
  intros H. unfold ensureVaultStructure.
  destruct (Fs.exists_ BOARD dir); [now apply parse_file_ok|].
  unfold parseBoardFile. rewrite read_write_same. reflexivity.
Qed.

End SyncFacts.

Import SyncFacts.

(* ================================================================== *)
(** ** Facts about the task operations                                *)
(* ================================================================== *)

Module TaskFacts.

Lemma ensure_board_exists (dir : Folder) :
  Fs.exists_ BOARD (ensureVaultStructure dir) = true.
Proof.
  unfold ensureVaultStructure.
  destruct (Fs.exists_ BOARD dir) eqn:E; auto.
  unfold Fs.exists_. now rewrite read_write_same.
Qed.


Lemma ensure_present (dir : Folder) :
  Fs.exists_ BOARD dir = true -> ensureVaultStructure dir = dir.
Proof. unfold ensureVaultStructure. now intros ->. Qed.


Lemma read_addToBoard_other (dir : Folder) (k t : string) (st : Status)
    (d : option string) :
  k <> BOARD -> Fs.read k (addToBoard dir t st d) = Fs.read k dir.
Proof. intros. now apply read_write_other. Qed.

Lemma read_removeFromBoard_other (dir : Folder) (k t : string) :
  k <> BOARD -> Fs.read k (removeFromBoard dir t) = Fs.read k dir.
Proof. intros. now apply read_write_other. Qed.

Lemma read_moveOnBoard_other (dir : Folder) (k t : string) (st : Status)
    (d : option string) :
  k <> BOARD -> Fs.read k (moveOnBoard dir t st d) = Fs.read k dir.
Proof.
  intros. unfold moveOnBoard.
  now rewrite read_addToBoard_other, read_removeFromBoard_other.
Qed.

Lemma created_at_default (now : string) :
  or_default (truthy (Some now)) now = now.
Proof. simpl. now destruct (is_empty now). Qed.

(** *** Which file an id designates *)

Lemma exists_keys (k : string) (dir : Folder) :
  Fs.exists_ k dir = existsb (fun x => String.eqb x k) (map fst dir).
Proof.
  unfold Fs.exists_. induction dir as [|[k0 g] dir IH]; simpl; auto.
  destruct (k0 =? k)%string; auto.
Qed.

Lemma read_listed (dir : Folder) (e : string * MdFile) :
  In e dir -> Fs.exists_ (fst e) dir = true.
Proof.
  intros H. rewrite exists_keys. apply existsb_exists.
  exists (fst e). split; [now apply in_map|apply String.eqb_refl].
Qed.

Lemma parse_listed (dir : Folder) (now k : string) :
  Fs.exists_ k dir = true ->
  exists task, parseTaskFile dir now k = Some task
               /\ ParsedTask.filePath task = k
               /\ ParsedTask.title task = basename_md k
               /\ completed_at (ParsedTask.frontmatter task)
                  = stored_completed_at dir k.
Proof.
  unfold Fs.exists_, parseTaskFile, stored_completed_at.
  destruct (Fs.read k dir); [|discriminate].
  intros _. eexists. split; [reflexivity|]. cbn. auto.
Qed.

Lemma find_listed (dir : Folder) (now taskId : string)
    (l : list (string * MdFile)) :
  (forall e, In e l -> In e dir) ->
  find (fun t => String.eqb (toLowerCase (ParsedTask.title t))
                            (toLowerCase taskId))
       (flat_map
          (fun e =>
             if String.eqb (fst e) BOARD then []
             else match parseTaskFile dir now (fst e) with
                  | Some task => [task]
                  | None => []
                  end) l)
  = match find (fun k => negb (String.eqb k BOARD)
                         && String.eqb (toLowerCase (basename_md k))
                                       (toLowerCase taskId))
               (map fst l) with
    | Some k => parseTaskFile dir now k
    | None => None
    end.
Proof.
  induction l as [|e l IH]; intros Hin; [reflexivity|].
  cbn [flat_map map find].
  assert (Hl : forall x, In x l -> In x dir) by (intros; apply Hin; now right).
  destruct (fst e =? BOARD)%string eqn:Eb; cbn [negb andb app].
  - now apply IH.
  - destruct (parse_listed dir now (fst e)) as (task & Hp & _ & Ht & _).
    { apply read_listed, Hin. now left. }
    rewrite Hp. cbn [app find]. rewrite Ht.
    destruct (toLowerCase (basename_md (fst e)) =? toLowerCase taskId)%string;
      auto.
Qed.

Lemma find_resolve (dir : Folder) (now taskId : string) :
  findTaskByTitle dir now taskId
  = match resolve (map fst dir) taskId with
    | Some k => parseTaskFile dir now k
    | None => None
    end.
Proof.
  unfold findTaskByTitle, resolve. rewrite exists_keys.
  destruct (existsb _ (map fst dir)); auto.
  unfold listTaskFiles. now apply find_listed.
Qed.

Lemma resolve_exists (keys : list string) (taskId k : string) :
  resolve keys taskId = Some k ->
  existsb (fun x => String.eqb x k) keys = true.
Proof.
  unfold resolve.
  destruct (existsb _ keys) eqn:E.
  - intros H. inversion H; subst. exact E.
  - intros H. apply find_some in H as [Hin _].
    apply existsb_exists. exists k. split; auto. apply String.eqb_refl.
Qed.

Lemma resolve_not_board (keys : list string) (taskId k : string) :
  sanitizeFilename taskId <> BOARD ->
  resolve keys taskId = Some k -> k <> BOARD.
Proof.
  unfold resolve. intros Hs.
  destruct (existsb _ keys).
  - intros H. inversion H; subst. exact Hs.
  - intros H. apply find_some in H as [_ Hq].
    apply andb_prop in Hq as [Hq _]. apply negb_true_iff in Hq.
    now apply String.eqb_neq.
Qed.

Lemma resolve_with_board (keys : list string) (taskId : string) :
  sanitizeFilename taskId <> BOARD ->
  resolve (keys ++ [BOARD]) taskId = resolve keys taskId.
Proof.
  intros Hs. unfold resolve. rewrite existsb_app. cbn [existsb].
  apply String.eqb_neq in Hs. rewrite String.eqb_sym in Hs.
  rewrite Hs, !orb_false_r.
  destruct (existsb _ keys); auto.
  induction keys as [|k keys IH]; simpl.
  - reflexivity.
  - destruct (negb (k =? BOARD)%string && _); auto.
Qed.

(** *** A call that only sets the status *)

Lemma updateTask_status (dir : Folder) (now taskId : string) (s : Status)
    (task : ParsedTask.t) :
  findTaskByTitle dir now taskId = Some task ->
  fst (updateTask dir now (status_update taskId s))
  = let written :=
      writeTaskFile dir (ParsedTask.filePath task)
        (updated_frontmatter task now s) (ParsedTask.body task) in
    if negb (Status_eqb s (status (ParsedTask.frontmatter task)))
    then moveOnBoard written (ParsedTask.title task) s
           (due_date (ParsedTask.frontmatter task))
    else written.
Proof.
  intros H. unfold updateTask, status_update.
  cbn [UpdateParams.taskId UpdateParams.title UpdateParams.status
       UpdateParams.description UpdateParams.assignee UpdateParams.priority
       UpdateParams.project UpdateParams.dueDate UpdateParams.blockedBy
       UpdateParams.followUpDate].
  rewrite H. cbn [fst truthy is_truthy or_default overwrite status due_date].
  unfold updated_frontmatter.
  replace (is_done (Some s)) with (Status_eqb s done) by now destruct s.
  reflexivity.
Qed.

Lemma keys_moveOnBoard (dir : Folder) (t : string) (st : Status)
    (d : option string) :
  map fst (moveOnBoard dir t st d)
  = if Fs.exists_ BOARD dir then map fst dir
    else (map fst dir ++ [BOARD])%list.
Proof.
  unfold moveOnBoard, addToBoard, removeFromBoard, writeBoardFile.
  rewrite keys_write_present
    by (unfold Fs.exists_; now rewrite read_write_same).
  destruct (Fs.exists_ BOARD dir) eqn:E.
  - now apply keys_write_present.
  - now apply keys_write_absent.
Qed.

(** A status-only call through an id that does not name the board file:
    what it stores, and that the same id designates the same file
    afterwards. *)
Lemma update_status_effect (dir : Folder) (now taskId : string) (s : Status)
    (task : ParsedTask.t) :
  findTaskByTitle dir now taskId = Some task ->
  sanitizeFilename taskId <> BOARD ->
  let dir' := fst (updateTask dir now (status_update taskId s)) in
  stored_completed_at dir' (ParsedTask.filePath task)
  = (if Status_eqb s done
        && negb (is_truthy (stored_completed_at dir (ParsedTask.filePath task)))
     then truthy (Some now)
     else stored_completed_at dir (ParsedTask.filePath task))
  /\ forall now', exists task',
       findTaskByTitle dir' now' taskId = Some task'
       /\ ParsedTask.filePath task' = ParsedTask.filePath task.
Proof.
  intros H Hs. cbv zeta. rewrite (updateTask_status _ _ _ _ _ H). cbv zeta.
  pose proof H as Hr. rewrite find_resolve in Hr.
  destruct (resolve (map fst dir) taskId) as [k|] eqn:Ek; [|discriminate].
  pose proof (resolve_not_board _ _ _ Hs Ek) as Hk.
  pose proof (resolve_exists _ _ _ Ek) as Hex. rewrite <- exists_keys in Hex.
  destruct (parse_listed dir now k Hex) as (task0 & Hp & Hpath & _ & Hc).
  rewrite Hp in Hr. inversion Hr; subst task0. rewrite Hpath.
  set (written := writeTaskFile dir k (updated_frontmatter task now s)
                    (ParsedTask.body task)).
  assert (Hw : stored_completed_at written k
               = if Status_eqb s done
                    && negb (is_truthy (stored_completed_at dir k))
                 then truthy (Some now) else stored_completed_at dir k).
  { unfold stored_completed_at at 1, written, writeTaskFile.
    rewrite read_write_same.
    cbn [data Partial.completed_at completed_at updated_frontmatter].
    rewrite Hc, truthy_idem.
    destruct (Status_eqb s done
              && negb (is_truthy (stored_completed_at dir k))); auto.
    unfold stored_completed_at. destruct (Fs.read k dir) as [f|]; auto.
    apply truthy_idem. }
  assert (Hkeys : map fst written = map fst dir)
    by (apply keys_write_present; exact Hex).
  split.
  - destruct (negb (Status_eqb s (status (ParsedTask.frontmatter task)))); auto.
    unfold stored_completed_at. rewrite read_moveOnBoard_other by assumption.
    exact Hw.
  - intros now'.
    set (dir' := if negb (Status_eqb s (status (ParsedTask.frontmatter task)))
                 then moveOnBoard written (ParsedTask.title task) s
                        (due_date (ParsedTask.frontmatter task))
                 else written).
    assert (Hres : resolve (map fst dir') taskId = Some k).
    { unfold dir'.
      destruct (negb (Status_eqb s (status (ParsedTask.frontmatter task)))).
      - rewrite keys_moveOnBoard, Hkeys.
        destruct (Fs.exists_ BOARD written); auto.
        now rewrite resolve_with_board.
      - now rewrite Hkeys. }
    rewrite find_resolve, Hres.
    pose proof (resolve_exists _ _ _ Hres) as Hex'.
    rewrite <- exists_keys in Hex'.
    destruct (parse_listed dir' now' k Hex') as (task' & Hp' & Hpath' & _).
    exists task'. auto.
Qed.

Lemma found_completed_at (dir : Folder) (now taskId : string)
    (task : ParsedTask.t) :
  findTaskByTitle dir now taskId = Some task ->
  completed_at (ParsedTask.frontmatter task)
  = stored_completed_at dir (ParsedTask.filePath task).
Proof.
  intros H. rewrite find_resolve in H.
  destruct (resolve (map fst dir) taskId) as [k|] eqn:Ek; [|discriminate].
  pose proof (resolve_exists _ _ _ Ek) as Hex. rewrite <- exists_keys in Hex.
  destruct (parse_listed dir now k Hex) as (task0 & Hp & Hpath & _ & Hc).
  rewrite Hp in H. inversion H; subst task0. now rewrite Hpath.
Qed.

(** Once set, the stored [completed_at] survives a status-only call. *)
(** What one status-only call does to the stored [completed_at] of any
    task file: it is touched only when the call designates that file, sets
    the status to done and finds none stored. *)
Lemma update_status_stored (dir : Folder) (now taskId : string) (s : Status)
    (stem : string) :
  stem <> BOARD ->
  stored_completed_at (fst (updateTask dir now (status_update taskId s))) stem
  = match findTaskByTitle dir now taskId with
    | Some task =>
        if (ParsedTask.filePath task =? stem)%string
           && Status_eqb s done
           && negb (is_truthy (stored_completed_at dir stem))
        then truthy (Some now)
        else stored_completed_at dir stem
    | None => stored_completed_at dir stem
    end.
Proof.
  intros Hstem.
  destruct (findTaskByTitle dir now taskId) as [task|] eqn:H.
  - rewrite (updateTask_status _ _ _ _ _ H). cbv zeta.
    set (written := writeTaskFile dir (ParsedTask.filePath task)
                      (updated_frontmatter task now s) (ParsedTask.body task)).
    assert (Hw : stored_completed_at written stem
                 = if (ParsedTask.filePath task =? stem)%string
                      && Status_eqb s done
                      && negb (is_truthy (stored_completed_at dir stem))
                   then truthy (Some now) else stored_completed_at dir stem).
    { unfold stored_completed_at at 1, written, writeTaskFile.
      destruct (ParsedTask.filePath task =? stem)%string eqn:E.
      - apply String.eqb_eq in E. rewrite E, read_write_same.
        cbn [data Partial.completed_at completed_at updated_frontmatter].
        rewrite (found_completed_at _ _ _ _ H), E, truthy_idem. cbn [andb].
        destruct (Status_eqb s done
                  && negb (is_truthy (stored_completed_at dir stem))); auto.
        unfold stored_completed_at. destruct (Fs.read stem dir); auto.
        apply truthy_idem.
      - apply String.eqb_neq in E.
        rewrite read_write_other by congruence. reflexivity. }
    destruct (negb (Status_eqb s (status (ParsedTask.frontmatter task))));
      auto.
    unfold stored_completed_at. rewrite read_moveOnBoard_other by assumption.
    exact Hw.
  - unfold updateTask, status_update. cbn [UpdateParams.taskId].
    now rewrite H.
Qed.

(** Once set, the stored [completed_at] of a task file survives every
    status-only call, whichever file the call designates. *)
Lemma update_status_keeps (dir : Folder) (now taskId : string) (s : Status)
    (stem : string) :
  stem <> BOARD ->
  is_truthy (stored_completed_at dir stem) = true ->
  stored_completed_at (fst (updateTask dir now (status_update taskId s))) stem
  = stored_completed_at dir stem.
Proof.
  intros Hstem Ht. rewrite update_status_stored by assumption.
  destruct (findTaskByTitle dir now taskId); auto.
  now rewrite Ht, andb_false_r.
Qed.

End TaskFacts.

Import TaskFacts.

(* ================================================================== *)
(** ** Reconciliation                                                  *)
(* ================================================================== *)

(** C1, as stated, fails: a title that the board lists in two columns, the
    first of which is the expected one, is found in place and left in
    both. *)
Lemma sync_counterexample : ~ sync_claim listed_twice "2026-11-02T10:00:00.000Z".
Proof.
  unfold sync_claim. intros [H _].
  specialize (H (ParsedTask.mk "A" "A"
                   (mkFrontmatter backlog me medium None None None None
                      "2026-11-02T10:00:00.000Z" None (Some []))
                   "notes" "A")).
  vm_compute in H. specialize (H (or_introl eq_refl)). discriminate.
Qed.

(** C1 (amended).  For task files with distinct titles, whose titles and due
    dates a board line can carry, and a well-formed starting board on which
    no task title is held both first by the column its status maps to and by
    a further column, one sync call produces a board on which every task is
    held by exactly one column, the one its status maps to, and on which
    every item's title is a task's title; the call returns the number of
    tasks that were absent from the board (added), of tasks found first in
    another column than their status maps to (moved), and of items whose
    title was no task's (removed). *)
Theorem sync_converges (dir : Folder) (now : string) :
  well_formed_board dir = true ->
  NoDup (map ParsedTask.title (listTaskFiles dir now)) ->
  forallb task_line_safe (listTaskFiles dir now) = true ->
  forallb (reconcilable (parseBoardFile (ensureVaultStructure dir)))
    (listTaskFiles dir now) = true ->
  sync_claim dir now.
Proof.
  intros Hwf Hnd Hsafe Hone.
  unfold sync_claim, syncBoardWithFiles. cbv zeta.
  rewrite list_tasks_ensure.
  set (tasks := listTaskFiles dir now) in *.
  set (dir0 := ensureVaultStructure dir) in *.
  set (B0 := parseBoardFile dir0) in *.
  pose proof (ensure_board_ok dir Hwf) as Hok0. fold dir0 B0 in Hok0.
  destruct (sync_loop (board_titles B0) tasks dir0 0 0 Hok0 Hnd Hsafe)
    as (dir1 & Efold & Hok1 & Hall & _ & Hkept).
  { intros task Hin. split; [|reflexivity].
    rewrite forallb_forall in Hone. now apply Hone. }
  fold B0 in Efold, Hkept. rewrite Efold.
  destruct (prune_loop (map ParsedTask.title tasks)
              (board_titles (parseBoardFile dir1)) dir1 0 Hok1)
    as (dir2 & Eprune & _ & Hheld & Hleft).
  rewrite Eprune. cbn [fst snd]. split; [|split].
  - intros task Hin. rewrite Hheld; [now apply Hall|].
    apply mem_In. now apply in_map.
  - intros t Ht. destruct (Hleft t Ht) as [Hin Hm].
    apply mem_In. auto.
  - cbn [Nat.add]. f_equal. f_equal. apply Hkept.
    intros task Hin. apply negb_false_iff, mem_In. now apply in_map.
Qed.

Lemma sync_converges_witness :
  sync_claim scrambled_vault "2026-11-02T10:00:00.000Z".
Proof.
  apply (sync_converges scrambled_vault "2026-11-02T10:00:00.000Z");
    try reflexivity.
  vm_compute. repeat constructor; simpl; intuition discriminate.
Defined.

(** Why the titles must be such as a line can carry: a task whose title
    holds two closing brackets is written on the board, read back under a
    shorter title, and pruned as an orphan by the same call. *)
Example bracket_title_never_lands :
  let dir := [("Fix [[wiki]] links", bare_file "notes")] in
  let result := syncBoardWithFiles dir "2026-11-02T10:00:00.000Z" in
  board_titles (parseBoardFile (fst result)) = []
  /\ snd result = mkCounts 1 0 1.
Proof. split; vm_compute; reflexivity. Qed.

(* ================================================================== *)
(** ** The board codec and the board primitives                        *)
(* ================================================================== *)



(** Why a header must carry a name: a header followed by white space only
    is read as a column with the empty name, which is lost, with the column
    boundary, once the board is written. *)
Example blank_header_is_lost :
  let raw := join_lines ["## Backlog"; "##  "; "- [ ] [[A]]"] in
  parseBoardText raw
  = [mkColumn "Backlog" []; mkColumn "" [mkItem "A" false None]]
  /\ parseBoardText (writeBoardText (parseBoardText raw))
     = [mkColumn "Backlog" [mkItem "A" false None]].
Proof. split; reflexivity. Qed.

(** C3, as stated, fails: on a board that holds the title in another column
    than the status maps to, two adds leave two items with that title, one in
    each column; on a board that already lists the title twice in the target
    column, they leave these two. *)
Lemma add_twice_counterexample :
  ~ add_twice_claim dated_in_next "A" backlog None
  /\ ~ add_twice_claim twice_in_backlog "A" backlog None.
Proof.
  unfold add_twice_claim.
  split; vm_compute; intros [H _]; discriminate.
Qed.

(** C3 (amended).  On a well-formed board where the title occurs at most
    once and nowhere but in the column the status maps to (in particular
    where it does not occur), for a title that a board line can carry and a
    due date that is omitted, empty or such as a line can carry, two adds
    with the same title and status leave exactly one item with that title, in
    that column; the second add changes nothing. *)
Theorem add_twice_once (dir : Folder) (t : string) (st : Status)
    (d : option string) :
  well_formed_board dir = true ->
  line_safe_title t = true -> line_safe_date (truthy d) = true ->
  count_title t (parseBoardFile dir) = target_count t st (parseBoardFile dir) ->
  count_title t (parseBoardFile dir) <= 1 ->
  add_twice_claim dir t st d
  /\ addToBoard (addToBoard dir t st d) t st d = addToBoard dir t st d.
Proof.
  intros Hwf Ht Hd Heq Hle. apply parse_file_ok in Hwf.
  assert (E1 : parseBoardFile (addToBoard dir t st d)
               = add_item t st (truthy d) (parseBoardFile dir))
    by now apply addToBoard_parse_truthy.
  assert (E2 : addToBoard (addToBoard dir t st d) t st d
               = addToBoard dir t st d).
  { rewrite <- (addToBoard_truthy (addToBoard dir t st d)).
    unfold addToBoard at 1. rewrite E1, add_item_idem.
    rewrite <- (addToBoard_truthy dir).
    unfold addToBoard, writeBoardFile. apply write_write. }
  split; [|exact E2].
  unfold add_twice_claim. rewrite E2, E1. cbv zeta.
  destruct (target_after_add t st (truthy d) (parseBoardFile dir))
    as (c & Hc & _ & Hn).
  unfold target_count at 1. rewrite Hc, Hn.
  rewrite count_add_item, String.eqb_refl. cbn [andb].
  rewrite <- Heq.
  destruct (count_title t (parseBoardFile dir)) as [|[|n]]; simpl; lia.
Qed.

Lemma add_twice_once_witness :
  add_twice_claim dated_in_next "C" next (Some "2026-03-01")
  /\ addToBoard (addToBoard dated_in_next "C" next (Some "2026-03-01"))
       "C" next (Some "2026-03-01")
     = addToBoard dated_in_next "C" next (Some "2026-03-01").
Proof.
  apply (add_twice_once dated_in_next "C" next (Some "2026-03-01"));
    try reflexivity.
  vm_compute. lia.
Defined.

(** C4, as stated, fails: with two items of the same title on the board,
    the removal leaves none of them. *)
Lemma remove_first_counterexample :
  ~ remove_first_claim twice_in_backlog "A".
Proof. unfold remove_first_claim. vm_compute. discriminate. Qed.

(** C4 (amended).  On a well-formed board the remove-item primitive takes
    every item with the title out of every column: each column keeps its name
    and, in their order, exactly its items with another title; no item with
    the title is left. *)
Theorem remove_takes_all (dir : Folder) (t : string) :
  well_formed_board dir = true ->
  Forall2
    (fun c c' =>
       name c' = name c
       /\ items c' = filter (fun i => negb (title i =? t)%string) (items c))
    (parseBoardFile dir) (parseBoardFile (removeFromBoard dir t))
  /\ count_title t (parseBoardFile (removeFromBoard dir t)) = 0.
Proof.
  intros Hwf. apply parse_file_ok in Hwf.
  rewrite removeFromBoard_parse by assumption.
  split; [apply remove_item_columns|apply count_remove_item].
Qed.

Lemma remove_takes_all_witness :
  Forall2
    (fun c c' =>
       name c' = name c
       /\ items c' = filter (fun i => negb (title i =? "A")%string) (items c))
    (parseBoardFile twice_in_backlog)
    (parseBoardFile (removeFromBoard twice_in_backlog "A"))
  /\ count_title "A" (parseBoardFile (removeFromBoard twice_in_backlog "A")) = 0.
Proof. apply (remove_takes_all twice_in_backlog "A"). reflexivity. Defined.

(** C5, as stated, fails: a new title in which two closing brackets occur
    is cut at them when the board is read back, and the item's date is
    lost. *)
Lemma rename_counterexample :
  ~ rename_claim dated_in_next "A" "B]]C".
Proof.
  unfold rename_claim. intros H. vm_compute in H.
  inversion H as [|? ? ? ? _ H1]; subst.
  inversion H1 as [|? ? ? ? [_ Hi] _]; subst.
  inversion Hi as [|? ? ? ? (_ & Hd & _) _]; subst.
  discriminate.
Qed.

(** C5 (amended).  On a well-formed board, renaming to a new title that a
    board line can carry substitutes the title in place: every column keeps
    its name and its number of items, every item keeps its position, its
    completion flag and its date, the items titled with the old title get
    the new title, and every other item keeps its title. *)
Theorem rename_in_place (dir : Folder) (oldTitle newTitle : string) :
  well_formed_board dir = true ->
  line_safe_title newTitle = true ->
  rename_claim dir oldTitle newTitle.
Proof.
  intros Hwf Hn. apply parse_file_ok in Hwf.
  unfold rename_claim. rewrite renameOnBoard_parse by assumption.
  apply rename_item_columns.
Qed.

Lemma rename_in_place_witness :
  rename_claim dated_in_next "A" "A, revised".
Proof.
  apply (rename_in_place dated_in_next "A" "A, revised"); reflexivity.
Defined.

(* ================================================================== *)
(** ** The task store                                                  *)
(* ================================================================== *)

(** C6 (completed_at is set once).  For the task file an id designates, a
    call that sets the status to done stores the current time as
    [completed_at] when none is stored, and keeps the stored one otherwise;
    after further status-only calls (to working and back to done, or any
    others, through this id or another) the stored [completed_at] is still
    that value. *)
Theorem completed_at_set_once (dir : Folder) (now1 now2 now3 : string)
    (taskId id2 id3 : string) (s2 s3 : Status) (task : ParsedTask.t) :
  findTaskByTitle dir now1 taskId = Some task ->
  ParsedTask.filePath task <> BOARD ->
  is_empty now1 = false ->
  let stem := ParsedTask.filePath task in
  let original :=
    if is_truthy (completed_at (ParsedTask.frontmatter task))
    then completed_at (ParsedTask.frontmatter task) else Some now1 in
  let dir1 := fst (updateTask dir now1 (status_update taskId done)) in
  let dir2 := fst (updateTask dir1 now2 (status_update id2 s2)) in
  let dir3 := fst (updateTask dir2 now3 (status_update id3 s3)) in
  stored_completed_at dir1 stem = original
  /\ stored_completed_at dir2 stem = original
  /\ stored_completed_at dir3 stem = original.
Proof.
  intros H Hstem Hnow. cbv zeta.
  rewrite (found_completed_at _ _ _ _ H).
  set (stem := ParsedTask.filePath task) in *.
  set (c0 := stored_completed_at dir stem).
  set (original := if is_truthy c0 then c0 else Some now1).
  assert (Ho : is_truthy original = true).
  { unfold original. destruct (is_truthy c0) eqn:E; auto.
    unfold is_truthy. simpl. now rewrite Hnow. }
  set (dir1 := fst (updateTask dir now1 (status_update taskId done))).
  assert (H1 : stored_completed_at dir1 stem = original).
  { unfold dir1. rewrite update_status_stored, H by assumption.
    fold stem c0. rewrite String.eqb_refl. cbn [Status_eqb andb].
    unfold original. destruct (is_truthy c0); auto.
    simpl. now rewrite Hnow. }
  set (dir2 := fst (updateTask dir1 now2 (status_update id2 s2))).
  assert (H2 : stored_completed_at dir2 stem = original).
  { unfold dir2. rewrite update_status_keeps; auto. now rewrite H1. }
  split; [exact H1|]. split; [exact H2|].
  rewrite update_status_keeps; auto. now rewrite H2.
Qed.

Lemma completed_at_set_once_witness :
  let dir1 :=
    fst (updateTask sample_vault "2026-02-10T08:00:00.000Z"
           (status_update "draft proposal" done)) in
  let dir2 :=
    fst (updateTask dir1 "2026-02-11T08:00:00.000Z"
           (status_update "draft proposal" working)) in
  let dir3 :=
    fst (updateTask dir2 "2026-02-12T08:00:00.000Z"
           (status_update "draft proposal" done)) in
  stored_completed_at dir1 "Draft proposal" = Some "2026-02-10T08:00:00.000Z"
  /\ stored_completed_at dir2 "Draft proposal"
     = Some "2026-02-10T08:00:00.000Z"
  /\ stored_completed_at dir3 "Draft proposal"
     = Some "2026-02-10T08:00:00.000Z".
Proof.
  apply (completed_at_set_once sample_vault "2026-02-10T08:00:00.000Z"
           "2026-02-11T08:00:00.000Z" "2026-02-12T08:00:00.000Z"
           "draft proposal" "draft proposal" "draft proposal"
           working done sample_task).
  - vm_compute. reflexivity.
  - vm_compute. discriminate.
  - reflexivity.
Defined.

(** Why the designated file must not be the board file: the id [Board]
    designates [Board.md] itself, and what the call stores in its header is
    overwritten when the board is written next. *)
Example board_file_is_no_task :
  let dir1 :=
    fst (updateTask sample_vault "2026-02-10T08:00:00.000Z"
           (status_update "Board" done)) in
  option_map ParsedTask.filePath
    (findTaskByTitle sample_vault "2026-02-10T08:00:00.000Z" "Board")
  = Some BOARD
  /\ stored_completed_at dir1 BOARD = None.
Proof. split; vm_compute; reflexivity. Qed.

(* ================================================================== *)
(** ** Follow-up staleness                                             *)
(* ================================================================== *)

Import FollowUp.

(** C7 (overdue thresholds).  For a message dated [t], [days_age] is the
    floor of the elapsed days from [t] to now, and the message is overdue
    exactly when [days_age] exceeds the threshold of its type (1, 3 and 2
    days); a needs-reply message is not overdue one day after its date and is
    overdue two days after, an awaiting-reply message is not overdue three
    days after and is overdue four days after. *)
Theorem overdue_thresholds (ty : FollowUpType) (now t : Z) :
  (exists n,
      f_daysAgo (followUp ty now (Some (Some t))) = Some n
      /\ (n * MS_PER_DAY <= now - t < (n + 1) * MS_PER_DAY)%Z
      /\ f_overdue (followUp ty now (Some (Some t)))
         = (OVERDUE_THRESHOLDS ty <? n)%Z)
  /\ OVERDUE_THRESHOLDS needs_reply = 1%Z
  /\ OVERDUE_THRESHOLDS awaiting_reply = 3%Z
  /\ OVERDUE_THRESHOLDS needs_action = 2%Z
  /\ isOverdue needs_reply now (Some (now - 1 * MS_PER_DAY)%Z) = false
  /\ isOverdue needs_reply now (Some (now - 2 * MS_PER_DAY)%Z) = true
  /\ isOverdue awaiting_reply now (Some (now - 3 * MS_PER_DAY)%Z) = false
  /\ isOverdue awaiting_reply now (Some (now - 4 * MS_PER_DAY)%Z) = true.
Proof.
  assert (Hpos : (0 < MS_PER_DAY)%Z) by reflexivity.
  assert (Hk : forall k, ((now - (now - k * MS_PER_DAY)) / MS_PER_DAY = k)%Z).
  { intros k. replace (now - (now - k * MS_PER_DAY))%Z
      with (k * MS_PER_DAY)%Z by lia.
    apply Z.div_mul. lia. }
  split; [|repeat split; try reflexivity;
           unfold isOverdue, daysAgo; rewrite Hk; reflexivity].
  exists ((now - t) / MS_PER_DAY)%Z. split; [reflexivity|]. split.
  - pose proof (Z.mul_div_le (now - t) MS_PER_DAY Hpos).
    pose proof (Z.mul_succ_div_gt (now - t) MS_PER_DAY Hpos).
    lia.
  - reflexivity.
Qed.

(** A message whose date does not parse has no age and is never overdue;
    a message without a date is dated now. *)
Remark undated_never_overdue (ty : FollowUpType) (now : Z) :
  followUp ty now (Some None) = mkFollowUp ty None false
  /\ followUp ty now None = mkFollowUp ty (Some 0%Z) false.
Proof.
  split; [reflexivity|].
  unfold followUp, isOverdue, daysAgo. rewrite Z.sub_diag.
  now destruct ty.
Qed.

(* ================================================================== *)
(** ** Creation, the add-item guard, and task parsing                  *)
(* ================================================================== *)



(** Both answers on the sample vault: a taken name is refused and nothing
    changes; a free name is created with the defaults and put on the board. *)
Example create_both_answers :
  let now := "2026-11-02T10:00:00.000Z" in
  createTask sample_vault now (title_only "Draft proposal")
  = (sample_vault,
     ErrorResult ("Task " ++ quote ++ "Draft proposal" ++ quote
                  ++ " already exists"))
  /\ (let result := createTask sample_vault now (title_only "Call: Ann?") in
      option_map (fun task => (status (ParsedTask.frontmatter task),
                               assignee (ParsedTask.frontmatter task),
                               priority (ParsedTask.frontmatter task),
                               created_at (ParsedTask.frontmatter task)))
        (parseTaskFile (fst result) "" "Call Ann")
      = Some (backlog, me, medium, now)
      /\ holders "Call Ann" (parseBoardFile (fst result)) = ["Backlog"]).
Proof. split; [|split]; vm_compute; reflexivity. Qed.




(* ================================================================== *)
(** ** Facts about file names                                          *)
(* ================================================================== *)

Module NameFacts.

Lemma forall_chars_impl (p q : ascii -> bool) (s : string) :
  (forall c, p c = true -> q c = true) ->
  forall_chars p s = true -> forall_chars q s = true.
Proof.
  intros H. induction s as [|c s IH]; simpl; auto.
  intros Hs. apply andb_prop in Hs as [Hc Hs]. now rewrite (H c Hc), IH.
Qed.

Lemma forall_chars_trim_start (p : ascii -> bool) (s : string) :
  forall_chars p s = true -> forall_chars p (trim_start s) = true.
Proof.
  induction s as [|c s IH]; simpl; auto.
  intros Hs. destruct (is_space c); auto.
  apply andb_prop in Hs as [_ Hs]. auto.
Qed.

Lemma forall_chars_trim_end (p : ascii -> bool) (s : string) :
  forall_chars p s = true -> forall_chars p (trim_end s) = true.
Proof.
  induction s as [|c s IH]; simpl; auto.
  intros Hs. apply andb_prop in Hs as [Hc Hs].
  destruct (is_space c && is_empty (trim_end s)); simpl; auto.
  now rewrite Hc, IH.
Qed.

Lemma forall_chars_trim (p : ascii -> bool) (s : string) :
  forall_chars p s = true -> forall_chars p (trim s) = true.
Proof.
  intros H. now apply forall_chars_trim_end, forall_chars_trim_start.
Qed.

Lemma remove_unsafe_safe (s : string) :
  forall_chars (fun c => negb (is_unsafe c)) (remove_unsafe s) = true.
Proof.
  induction s as [|c s IH]; simpl; auto.
  destruct (is_unsafe c) eqn:E; simpl; auto. now rewrite E.
Qed.

Lemma remove_unsafe_fix (s : string) :
  forall_chars (fun c => negb (is_unsafe c)) s = true -> remove_unsafe s = s.
Proof.
  induction s as [|c s IH]; simpl; auto.
  intros H. apply andb_prop in H as [Hc Hs].
  apply negb_true_iff in Hc. rewrite Hc. now rewrite IH.
Qed.

Lemma collapse_safe (p : ascii -> bool) (b : bool) (s : string) :
  p " "%char = true ->
  forall_chars p s = true -> forall_chars p (collapse_spaces b s) = true.
Proof.
  intros Hp. revert b. induction s as [|c s IH]; intros b; simpl; auto.
  intros H. apply andb_prop in H as [Hc Hs].
  destruct (is_space c); [destruct b|]; simpl; rewrite ?Hp, ?Hc; simpl; auto.
Qed.

Lemma collapse_spaced (b : bool) (s : string) :
  spaced b (collapse_spaces b s) = true.
Proof.
  revert b. induction s as [|c s IH]; intros b; simpl; auto.
  destruct (is_space c) eqn:E.
  - destruct b; [apply IH|]. simpl. apply IH.
  - simpl. rewrite E. apply IH.
Qed.

Lemma spaced_fix (b : bool) (s : string) :
  spaced b s = true -> collapse_spaces b s = s.
Proof.
  revert b. induction s as [|c s IH]; intros b; simpl; auto.
  destruct (is_space c).
  - intros H. apply andb_prop in H as [H Hs]. apply andb_prop in H as [Hc Hb].
    apply negb_true_iff in Hb. subst b.
    apply Ascii.eqb_eq in Hc. subst c. now rewrite IH.
  - intros Hs. now rewrite IH.
Qed.

Lemma spaced_weaken (s : string) : spaced true s = true -> spaced false s = true.
Proof.
  destruct s as [|c s]; simpl; auto.
  destruct (is_space c); auto. now rewrite andb_false_r.
Qed.

Lemma spaced_any (b : bool) (s : string) :
  spaced b s = true -> spaced false s = true.
Proof. destruct b; auto using spaced_weaken. Qed.

Lemma spaced_trim_start (b : bool) (s : string) :
  spaced b s = true -> spaced false (trim_start s) = true.
Proof.
  revert b. induction s as [|c s IH]; intros b; auto.
  cbn [trim_start]. destruct (is_space c) eqn:E.
  - simpl. rewrite E. intros H. apply andb_prop in H as [_ H]. eauto.
  - intros H. simpl in *. now rewrite E in *.
Qed.

Lemma spaced_trim_end (b : bool) (s : string) :
  spaced b s = true -> spaced b (trim_end s) = true.
Proof.
  revert b. induction s as [|c s IH]; intros b; auto.
  cbn [trim_end]. intros H.
  destruct (is_space c && is_empty (trim_end s)); auto.
  simpl in *. destruct (is_space c).
  - apply andb_prop in H as [H1 H2]. rewrite H1. simpl. auto.
  - auto.
Qed.

Lemma spaced_no_line_break (b : bool) (s : string) :
  spaced b s = true -> no_line_break s = true.
Proof.
  unfold no_line_break. revert b.
  induction s as [|c s IH]; intros b; simpl; auto.
  destruct (is_space c) eqn:E.
  - intros H. apply andb_prop in H as [H Hs]. apply andb_prop in H as [Hc _].
    apply Ascii.eqb_eq in Hc. subst c. simpl. eauto.
  - intros H. rewrite (IH _ H), andb_true_r.
    unfold is_line_terminator.
    destruct (Ascii.eqb c LF) eqn:E1;
      [apply Ascii.eqb_eq in E1; subst c; discriminate|].
    destruct (Ascii.eqb c CR) eqn:E2;
      [apply Ascii.eqb_eq in E2; subst c; discriminate|].
    reflexivity.
Qed.

Lemma sanitize_spaced (t : string) : spaced false (sanitizeFilename t) = true.
Proof.
  unfold sanitizeFilename, trim.
  apply spaced_trim_end, (spaced_trim_start false), collapse_spaced.
Qed.

Lemma sanitize_safe (t : string) :
  forall_chars (fun c => negb (is_unsafe c)) (sanitizeFilename t) = true.
Proof.
  unfold sanitizeFilename.
  apply forall_chars_trim, collapse_safe; [reflexivity|].
  apply remove_unsafe_safe.
Qed.

Lemma sanitize_fix (t : string) :
  sanitizeFilename (sanitizeFilename t) = sanitizeFilename t.
Proof.
  unfold sanitizeFilename at 1.
  rewrite (remove_unsafe_fix _ (sanitize_safe t)).
  rewrite (spaced_fix _ _ (sanitize_spaced t)).
  unfold sanitizeFilename. apply trim_idem.
Qed.

End NameFacts.

Import NameFacts.

(* ================================================================== *)
(** ** Further facts about the board                                   *)
(* ================================================================== *)

Module BoardMoreFacts.

Lemma parse_lines_recognised (ls : list string) :
  forall acc cur,
    parse_lines (filter recognised ls) acc cur = parse_lines ls acc cur.
Proof.
  induction ls as [|l ls IH]; intros acc cur; [reflexivity|].
  cbn [filter parse_lines]. unfold recognised.
  destruct (match_column l) as [n|] eqn:Ec.
  - cbn [parse_lines]. rewrite Ec. apply IH.
  - destruct (match_item l) as [it|] eqn:Ei.
    + cbn [parse_lines]. rewrite Ec, Ei. destruct cur; apply IH.
    + destruct cur; apply IH.
Qed.

Lemma holders_nil_has (t : string) (pre post : list BoardColumn)
    (c : BoardColumn) :
  holders t (pre ++ c :: post) = [] -> has_title t (items c) = false.
Proof.
  rewrite holders_app, holders_cons.
  destruct (has_title t (items c)); auto.
  intros H. apply app_eq_nil in H as [_ H]. discriminate.
Qed.

(** Adding a title that the target column does not hold puts it last in
    that column. *)
Lemma add_item_appends (t : string) (st : Status) (d : option string)
    (columns : list BoardColumn) :
  target_count t st columns = 0 ->
  let it := mkItem t (Status_eqb st done || Status_eqb st archived) d in
  match target_column st columns with
  | Some c =>
      exists pre post,
        columns = (pre ++ c :: post)%list
        /\ has_column (STATUS_TO_COLUMN st) pre = false
        /\ add_item t st d columns
           = (pre ++ mkColumn (name c) (items c ++ [it]) :: post)%list
  | None =>
      add_item t st d columns
      = (columns ++ [mkColumn (STATUS_TO_COLUMN st) [it]])%list
  end.
Proof.
  intros H0 it. unfold target_count in H0.
  destruct (target_column st columns) as [c|] eqn:Ec.
  - destruct (add_item_present t st d columns c Ec)
      as (pre & post & E & Hpre & Hn & Eadd).
    exists pre, post. split; [exact E|]. split; [exact Hpre|].
    rewrite Eadd. unfold push_item. rewrite has_title_count, H0. reflexivity.
  - now apply add_item_absent.
Qed.

Lemma target_of_added (t : string) (st : Status) (d : option string)
    (columns : list BoardColumn) :
  target_count t st columns = 0 ->
  exists c before,
    target_column st (add_item t st d columns) = Some c
    /\ items c
       = (before
          ++ [mkItem t (Status_eqb st done || Status_eqb st archived) d])%list
    /\ has_title t before = false.
Proof.
  intros H0. pose proof (add_item_appends t st d columns H0) as H.
  cbv zeta in H. unfold target_count in H0.
  destruct (target_column st columns) as [c|] eqn:Ec.
  - destruct H as (pre & post & E & Hpre & Eadd).
    exists (mkColumn (name c)
              (items c
               ++ [mkItem t (Status_eqb st done || Status_eqb st archived) d])),
      (items c).
    rewrite Eadd. split; [|split; [reflexivity|]].
    + apply target_column_split; auto. cbn [name].
      unfold target_column in Ec. apply find_some in Ec as [_ Ec].
      now apply String.eqb_eq.
    + now rewrite has_title_count, H0.
  - exists (mkColumn (STATUS_TO_COLUMN st)
              [mkItem t (Status_eqb st done || Status_eqb st archived) d]), [].
    rewrite H. split; [|split; reflexivity].
    apply target_column_split; auto.
    now apply target_none_no_column.
Qed.

Lemma moveOnBoard_parse_truthy (dir : Folder) (t : string) (st : Status)
    (d : option string) :
  board_ok (parseBoardFile dir) = true ->
  line_safe_title t = true -> line_safe_date (truthy d) = true ->
  parseBoardFile (moveOnBoard dir t st d)
  = add_item t st (truthy d) (remove_item t (parseBoardFile dir)).
Proof.
  intros Hok Ht Hd. unfold moveOnBoard.
  rewrite addToBoard_parse_truthy; auto;
    rewrite removeFromBoard_parse by assumption; auto.
  now apply remove_item_ok.
Qed.

(** Where a moved title ends up. *)
Lemma moveOnBoard_lands (dir : Folder) (t : string) (st : Status)
    (d : option string) :
  board_ok (parseBoardFile dir) = true ->
  line_safe_title t = true -> line_safe_date (truthy d) = true ->
  let after := parseBoardFile (moveOnBoard dir t st d) in
  holders t after = [STATUS_TO_COLUMN st]
  /\ count_title t after = 1
  /\ (exists c before,
        target_column st after = Some c
        /\ items c
           = (before
              ++ [mkItem t (Status_eqb st done || Status_eqb st archived)
                    (truthy d)])%list
        /\ has_title t before = false)
  /\ (forall t', t' <> t ->
        holders t' after = holders t' (parseBoardFile dir)).
Proof.
  intros Hwf Ht Hd. cbv zeta.
  rewrite moveOnBoard_parse_truthy by assumption.
  set (B := parseBoardFile dir).
  assert (H0 : target_count t st (remove_item t B) = 0).
  { apply target_count_not_holder. now rewrite holders_remove_self. }
  split; [apply holders_add_new, holders_remove_self|].
  split; [|split].
  - rewrite count_add_item, String.eqb_refl, H0, count_remove_item.
    reflexivity.
  - now apply target_of_added.
  - intros t' Hne. rewrite holders_add_other by congruence.
    apply holders_remove_other. congruence.
Qed.

Lemma safe_date_truthy (d : option string) :
  line_safe_date d = true -> truthy d = d.
Proof.
  destruct d as [s|]; [|reflexivity]. simpl. intros H.
  apply captured_not_empty in H. now rewrite H.
Qed.


Lemma on_board_false_cons (t : string) (c : BoardColumn)
    (b : list BoardColumn) :
  on_board t (c :: b) = false ->
  has_title t (items c) = false /\ on_board t b = false.
Proof. rewrite on_board_cons. apply orb_false_iff. Qed.


Lemma items_without (t : string) (its : list BoardItem) :
  has_title t its = false ->
  filter (fun i => negb (title i =? t)%string) its = its.
Proof.
  induction its as [|i its IH]; [reflexivity|].
  cbn [has_title existsb filter]. intros H.
  apply orb_false_iff in H as [Hi H]. rewrite Hi. cbn [negb].
  f_equal. now apply IH.
Qed.

Lemma remove_item_absent (t : string) (columns : list BoardColumn) :
  on_board t columns = false -> remove_item t columns = columns.
Proof.
  induction columns as [|c columns IH]; [reflexivity|].
  intros H. apply on_board_false_cons in H as [Hc H].
  cbn [remove_item map]. f_equal; [|now apply IH].
  rewrite items_without by assumption. now destruct c.
Qed.

Lemma on_board_removed (t : string) (columns : list BoardColumn) :
  on_board t (remove_item t columns) = false.
Proof. now rewrite on_board_holders, holders_remove_self. Qed.

End BoardMoreFacts.

Import BoardMoreFacts.

(* ================================================================== *)
(** ** File names and the board, further properties                    *)
(* ================================================================== *)

(** X1 (sanitizeFilename).  Sanitizing is idempotent, and a sanitized name
    holds none of the nine characters the function removes, holds no line
    break, has no white space at either end, and holds no white space other
    than single spaces. *)
Theorem sanitize_idempotent (t : string) :
  let u := sanitizeFilename t in
  sanitizeFilename u = u
  /\ forall_chars (fun c => negb (is_unsafe c)) u = true
  /\ no_line_break u = true
  /\ trim u = u
  /\ collapse_spaces false u = u.
Proof.
  cbv zeta. split; [apply sanitize_fix|]. split; [apply sanitize_safe|].
  split; [apply (spaced_no_line_break false), sanitize_spaced|].
  split; [apply trim_idem|].
  apply spaced_fix, sanitize_spaced.
Qed.

(** X2 (writeBoardFile, then parseBoardFile).  A board whose column names,
    titles and dates are such as a line can carry is read back from the text
    the writer produces exactly as it was written: the same columns, items,
    flags and dates, in the same order. *)
Theorem written_board_reads_back (columns : list BoardColumn) :
  board_ok columns = true ->
  parseBoardText (writeBoardText columns) = columns.
Proof. apply parse_written. Qed.

Lemma written_board_reads_back_witness :
  let columns :=
    [ mkColumn "Next" [mkItem "Plan" false (Some "2026-03-01")];
      mkColumn "Done" [mkItem "Ship" true None] ] in
  parseBoardText (writeBoardText columns) = columns.
Proof.
  apply (written_board_reads_back
           [ mkColumn "Next" [mkItem "Plan" false (Some "2026-03-01")];
             mkColumn "Done" [mkItem "Ship" true None] ]).
  reflexivity.
Defined.

(** X3 (parseBoardFile).  The parse depends on the header lines and the
    item lines alone: two contents that agree on these lines, in order, give
    the same board, whatever other lines they hold. *)
Theorem parse_ignores_other_lines (c1 c2 : string) :
  filter recognised (split_lines c1) = filter recognised (split_lines c2) ->
  parseBoardContent c1 = parseBoardContent c2.
Proof.
  intros H. unfold parseBoardContent.
  rewrite <- (parse_lines_recognised (split_lines c1)).
  rewrite <- (parse_lines_recognised (split_lines c2)).
  now rewrite H.
Qed.

Lemma parse_ignores_other_lines_witness :
  parseBoardContent
    (join_lines ["# Board"; "## Next"; "a note"; "- [ ] [[Plan]]"; ""])
  = parseBoardContent (join_lines ["## Next"; "- [ ] [[Plan]]"]).
Proof.
  apply (parse_ignores_other_lines
           (join_lines ["# Board"; "## Next"; "a note"; "- [ ] [[Plan]]"; ""])
           (join_lines ["## Next"; "- [ ] [[Plan]]"])).
  reflexivity.
Defined.







(** X7 (removeFromBoard).  On a well-formed board, removing a title a
    second time changes nothing, not even the file; and removing a title
    that no item carries leaves every column and every item as it was. *)
Theorem remove_again_is_noop (dir : Folder) (t : string) :
  well_formed_board dir = true ->
  removeFromBoard (removeFromBoard dir t) t = removeFromBoard dir t
  /\ (on_board t (parseBoardFile dir) = false ->
      parseBoardFile (removeFromBoard dir t) = parseBoardFile dir).
Proof.
  intros Hwf. apply parse_file_ok in Hwf. split.
  - unfold removeFromBoard at 1.
    rewrite removeFromBoard_parse by assumption.
    rewrite remove_item_absent by apply on_board_removed.
    unfold removeFromBoard, writeBoardFile. apply write_write.
  - intros H. rewrite removeFromBoard_parse by assumption.
    now apply remove_item_absent.
Qed.

Lemma remove_again_is_noop_witness :
  removeFromBoard (removeFromBoard twice_in_backlog "A") "A"
  = removeFromBoard twice_in_backlog "A"
  /\ (on_board "A" (parseBoardFile twice_in_backlog) = false ->
      parseBoardFile (removeFromBoard twice_in_backlog "A")
      = parseBoardFile twice_in_backlog).
Proof. apply (remove_again_is_noop twice_in_backlog "A"). reflexivity. Defined.

(* ================================================================== *)
(** ** Further facts about the reconciliation                          *)
(* ================================================================== *)

Module SyncMoreFacts.

Lemma flat_map_board_write {X} (g : string -> list X) (f : MdFile)
    (dir : Folder) :
  g BOARD = [] ->
  flat_map (fun e => g (fst e)) (Fs.write BOARD f dir)
  = flat_map (fun e => g (fst e)) dir.
Proof.
  intros Hg. induction dir as [|[k x] dir IH]; simpl.
  - now rewrite Hg.
  - destruct (k =? BOARD)%string; simpl; [reflexivity|]. now rewrite IH.
Qed.

(** Writing the board file does not change the list of tasks. *)
Lemma list_tasks_board_write (dir : Folder) (f : MdFile) (now : string) :
  listTaskFiles (Fs.write BOARD f dir) now = listTaskFiles dir now.
Proof.
  unfold listTaskFiles.
  rewrite (flat_map_ext
             (fun e => if (fst e =? BOARD)%string then []
                       else match parseTaskFile (Fs.write BOARD f dir) now
                                    (fst e) with
                            | Some task => [task]
                            | None => []
                            end)
             (fun e => (fun k => if (k =? BOARD)%string then []
                                 else match parseTaskFile dir now k with
                                      | Some task => [task]
                                      | None => []
                                      end) (fst e))).
  - apply (flat_map_board_write
             (fun k => if (k =? BOARD)%string then []
                       else match parseTaskFile dir now k with
                            | Some task => [task]
                            | None => []
                            end) f dir).
    reflexivity.
  - intros [k g]. cbn [fst].
    destruct (k =? BOARD)%string eqn:Ek; auto.
    apply String.eqb_neq in Ek. now rewrite parseTaskFile_write_other.
Qed.

Lemma same_tasks_refl (dir : Folder) : same_tasks dir dir.
Proof. split; auto. Qed.

Lemma same_tasks_write (dir dir' : Folder) (f : MdFile) :
  same_tasks dir dir' -> same_tasks dir (Fs.write BOARD f dir').
Proof.
  intros [H1 H2]. split.
  - intros now. rewrite list_tasks_board_write. apply H1.
  - intros k Hk. rewrite read_write_other by assumption. now apply H2.
Qed.

Lemma same_tasks_sync_task (bt : list string) (dir : Folder)
    (st : Folder * nat * nat) (task : ParsedTask.t) :
  same_tasks dir (fst (fst st)) ->
  same_tasks dir (fst (fst (sync_task bt st task))).
Proof.
  destruct st as [[d a] m]. cbn [fst]. intros H. unfold sync_task.
  destruct (negb (mem (ParsedTask.title task) bt)).
  - cbn [fst]. now apply same_tasks_write.
  - destruct (current_column _ _) as [c|]; auto.
    destruct (negb (is_empty c) && negb (c =? _)%string); auto.
    cbn [fst]. unfold moveOnBoard. now apply same_tasks_write, same_tasks_write.
Qed.

Lemma same_tasks_task_loop (bt : list string) (dir : Folder)
    (tasks : list ParsedTask.t) :
  forall st,
    same_tasks dir (fst (fst st)) ->
    same_tasks dir (fst (fst (fold_left (sync_task bt) tasks st))).
Proof.
  induction tasks as [|task tasks IH]; intros st H; auto.
  cbn [fold_left]. now apply IH, same_tasks_sync_task.
Qed.

Lemma same_tasks_prune_loop (ft : list string) (dir : Folder)
    (L : list string) :
  forall st,
    same_tasks dir (fst st) ->
    same_tasks dir (fst (fold_left (prune_item ft) L st)).
Proof.
  induction L as [|x L IH]; intros st H; auto.
  cbn [fold_left]. apply IH. destruct st as [d r]. unfold prune_item.
  destruct (negb (mem x ft)); auto. cbn [fst] in *.
  now apply same_tasks_write.
Qed.

Lemma same_tasks_ensure (dir : Folder) :
  same_tasks dir (ensureVaultStructure dir).
Proof.
  unfold ensureVaultStructure. destruct (Fs.exists_ BOARD dir).
  - apply same_tasks_refl.
  - apply same_tasks_write, same_tasks_refl.
Qed.

(** The folder a sync call leaves, as the two loops build it. *)
Lemma sync_unfold (dir : Folder) (now : string) :
  let dir0 := ensureVaultStructure dir in
  let tasks := listTaskFiles dir0 now in
  let st1 :=
    fold_left (sync_task (board_titles (parseBoardFile dir0))) tasks
      (dir0, 0, 0) in
  let st2 :=
    fold_left (prune_item (map ParsedTask.title tasks))
      (board_titles (parseBoardFile (fst (fst st1)))) (fst (fst st1), 0) in
  syncBoardWithFiles dir now
  = (fst st2, mkCounts (snd (fst st1)) (snd st1) (snd st2)).
Proof.
  cbv zeta. unfold syncBoardWithFiles.
  destruct (fold_left (sync_task _) _ _) as [[d1 a1] m1]. cbn [fst snd].
  now destruct (fold_left (prune_item _) _ _) as [d2 r2].
Qed.

Lemma same_tasks_sync (dir : Folder) (now : string) :
  same_tasks dir (fst (syncBoardWithFiles dir now)).
Proof.
  rewrite sync_unfold. cbv zeta. cbn [fst].
  apply same_tasks_prune_loop. cbn [fst].
  apply same_tasks_task_loop. cbn [fst].
  apply same_tasks_ensure.
Qed.

Lemma exists_board_write (dir : Folder) (f : MdFile) :
  Fs.exists_ BOARD (Fs.write BOARD f dir) = true.
Proof. unfold Fs.exists_. now rewrite read_write_same. Qed.

Lemma board_kept_task_loop (bt : list string) (tasks : list ParsedTask.t) :
  forall st,
    Fs.exists_ BOARD (fst (fst st)) = true ->
    Fs.exists_ BOARD (fst (fst (fold_left (sync_task bt) tasks st))) = true.
Proof.
  induction tasks as [|task tasks IH]; intros st H; auto.
  cbn [fold_left]. apply IH. destruct st as [[d a] m]. unfold sync_task.
  destruct (negb (mem (ParsedTask.title task) bt)).
  - apply exists_board_write.
  - destruct (current_column _ _) as [c|]; auto.
    destruct (negb (is_empty c) && negb (c =? _)%string); auto.
    apply exists_board_write.
Qed.

Lemma board_kept_prune_loop (ft : list string) (L : list string) :
  forall st,
    Fs.exists_ BOARD (fst st) = true ->
    Fs.exists_ BOARD (fst (fold_left (prune_item ft) L st)) = true.
Proof.
  induction L as [|x L IH]; intros st H; auto.
  cbn [fold_left]. apply IH. destruct st as [d r]. unfold prune_item.
  destruct (negb (mem x ft)); auto. apply exists_board_write.
Qed.

(** *** When the call has nothing to do *)

Lemma sync_task_noop (bt : list string) (dir : Folder) (a m : nat)
    (task : ParsedTask.t) :
  mem (ParsedTask.title task) bt = true ->
  on_board (ParsedTask.title task) (parseBoardFile dir) = true ->
  misplaced (parseBoardFile dir) task = false ->
  sync_task bt (dir, a, m) task = (dir, a, m).
Proof.
  intros Hm Hon Hmis. unfold sync_task. rewrite Hm. cbn [negb].
  unfold misplaced in Hmis. fold (expected task).
  destruct (current_column _ _) as [c|]; auto.
  apply negb_false_iff in Hmis. rewrite Hmis. now rewrite andb_false_r.
Qed.

Lemma task_loop_noop (bt : list string) (dir : Folder)
    (tasks : list ParsedTask.t) (a m : nat) :
  (forall task, In task tasks ->
     mem (ParsedTask.title task) bt = true
     /\ on_board (ParsedTask.title task) (parseBoardFile dir) = true
     /\ misplaced (parseBoardFile dir) task = false) ->
  fold_left (sync_task bt) tasks (dir, a, m) = (dir, a, m).
Proof.
  induction tasks as [|task tasks IH]; intros H; auto.
  cbn [fold_left].
  destruct (H task (or_introl eq_refl)) as (H1 & H2 & H3).
  rewrite sync_task_noop by assumption.
  apply IH. intros; apply H; now right.
Qed.

Lemma prune_loop_noop (ft : list string) (dir : Folder) (L : list string)
    (r : nat) :
  (forall t, In t L -> mem t ft = true) ->
  fold_left (prune_item ft) L (dir, r) = (dir, r).
Proof.
  induction L as [|x L IH]; intros H; auto.
  cbn [fold_left]. unfold prune_item at 2.
  rewrite (H x (or_introl eq_refl)). cbn [negb].
  apply IH. intros; apply H; now right.
Qed.

Lemma sync_noop (dir : Folder) (now : string) :
  Fs.exists_ BOARD dir = true ->
  (forall task, In task (listTaskFiles dir now) ->
     on_board (ParsedTask.title task) (parseBoardFile dir) = true
     /\ misplaced (parseBoardFile dir) task = false) ->
  (forall t, In t (board_titles (parseBoardFile dir)) ->
     In t (map ParsedTask.title (listTaskFiles dir now))) ->
  syncBoardWithFiles dir now = (dir, mkCounts 0 0 0).
Proof.
  intros Hb Htasks Htitles. rewrite sync_unfold. cbv zeta.
  rewrite (ensure_present dir Hb).
  rewrite task_loop_noop.
  - cbn [fst snd]. rewrite prune_loop_noop; [reflexivity|].
    intros t Ht. apply mem_In. auto.
  - intros task Hin. destruct (Htasks task Hin) as [H1 H2]. auto.
Qed.

(** *** Every change is counted *)

Lemma sync_task_counted (bt : list string) (st : Folder * nat * nat)
    (task : ParsedTask.t) :
  let st' := sync_task bt st task in
  snd (fst st) <= snd (fst st') /\ snd st <= snd st'
  /\ (snd (fst st') + snd st' = snd (fst st) + snd st ->
      fst (fst st') = fst (fst st)).
Proof.
  destruct st as [[d a] m]. cbv zeta. unfold sync_task.
  destruct (negb (mem (ParsedTask.title task) bt)).
  - cbn [fst snd]. repeat split; lia.
  - destruct (current_column _ _) as [c|]; [|cbn [fst snd]; auto].
    destruct (negb (is_empty c) && negb (c =? _)%string); cbn [fst snd].
    + repeat split; lia.
    + auto.
Qed.

Lemma task_loop_counted (bt : list string) (tasks : list ParsedTask.t) :
  forall st,
    let st' := fold_left (sync_task bt) tasks st in
    snd (fst st) <= snd (fst st') /\ snd st <= snd st'
    /\ (snd (fst st') + snd st' = snd (fst st) + snd st ->
        fst (fst st') = fst (fst st)).
Proof.
  induction tasks as [|task tasks IH]; intros st; cbv zeta.
  - cbn [fold_left]. auto.
  - cbn [fold_left].
    destruct (sync_task_counted bt st task) as (H1 & H2 & H3).
    destruct (IH (sync_task bt st task)) as (H4 & H5 & H6).
    cbv zeta in *. split; [lia|]. split; [lia|].
    intros E. rewrite H6 by lia. apply H3. lia.
Qed.

Lemma prune_loop_counted (ft : list string) (L : list string) :
  forall st,
    let st' := fold_left (prune_item ft) L st in
    snd st <= snd st' /\ (snd st' = snd st -> fst st' = fst st).
Proof.
  induction L as [|x L IH]; intros st; cbv zeta.
  - cbn [fold_left]. auto.
  - cbn [fold_left]. destruct (IH (prune_item ft st x)) as [H1 H2].
    cbv zeta in *. destruct st as [d r]. unfold prune_item in *.
    destruct (negb (mem x ft)); cbn [fst snd] in *.
    + split; [lia|]. intros E. lia.
    + auto.
Qed.

Lemma sync_counted (dir : Folder) (now : string) :
  snd (syncBoardWithFiles dir now) = mkCounts 0 0 0 ->
  fst (syncBoardWithFiles dir now) = ensureVaultStructure dir.
Proof.
  rewrite sync_unfold. cbv zeta. cbn [fst snd].
  set (dir0 := ensureVaultStructure dir).
  destruct (task_loop_counted (board_titles (parseBoardFile dir0))
              (listTaskFiles dir0 now) (dir0, 0, 0)) as (_ & _ & H1).
  cbv zeta in H1. cbn [fst snd] in H1.
  set (st1 := fold_left (sync_task (board_titles (parseBoardFile dir0)))
                (listTaskFiles dir0 now) (dir0, 0, 0)) in *.
  destruct (prune_loop_counted
              (map ParsedTask.title (listTaskFiles dir0 now))
              (board_titles (parseBoardFile (fst (fst st1))))
              (fst (fst st1), 0)) as (_ & H2).
  cbv zeta in H2. cbn [fst snd] in H2.
  intros H. injection H as Ha Hm Hr.
  rewrite (H2 Hr). apply H1. now rewrite Ha, Hm.
Qed.

(** *** A second call *)

Lemma list_tasks_core (dir : Folder) (now now' : string) :
  map core (listTaskFiles dir now) = map core (listTaskFiles dir now').
Proof.
  unfold listTaskFiles. generalize dir at 2 4 as l.
  induction l as [|e l IH]; [reflexivity|].
  cbn [flat_map]. rewrite !map_app, IH. f_equal.
  destruct (fst e =? BOARD)%string; [reflexivity|].
  unfold parseTaskFile. now destruct (Fs.read (fst e) dir).
Qed.

Lemma in_core (dir : Folder) (now now' : string) (task' : ParsedTask.t) :
  In task' (listTaskFiles dir now') ->
  exists task, In task (listTaskFiles dir now)
               /\ ParsedTask.title task = ParsedTask.title task'
               /\ expected task = expected task'.
Proof.
  intros H. apply (in_map core) in H.
  rewrite (list_tasks_core dir now' now) in H.
  apply in_map_iff in H as (task & E & Hin).
  exists task. split; [exact Hin|]. unfold core in E. inversion E.
  unfold expected. split; congruence.
Qed.

Lemma titles_core (l : list ParsedTask.t) :
  map ParsedTask.title l = map fst (map core l).
Proof. rewrite map_map. reflexivity. Qed.

(** What one call establishes, under the conditions of convergence. *)
Lemma sync_settles (dir : Folder) (now : string) :
  well_formed_board dir = true ->
  NoDup (map ParsedTask.title (listTaskFiles dir now)) ->
  forallb task_line_safe (listTaskFiles dir now) = true ->
  forallb (reconcilable (parseBoardFile (ensureVaultStructure dir)))
    (listTaskFiles dir now) = true ->
  let after := parseBoardFile (fst (syncBoardWithFiles dir now)) in
  (forall task, In task (listTaskFiles dir now) ->
     holders (ParsedTask.title task) after = [expected task])
  /\ (forall t, In t (board_titles after) ->
        In t (map ParsedTask.title (listTaskFiles dir now))).
Proof.
  intros Hwf Hnd Hsafe Hone. rewrite sync_unfold. cbv zeta. cbn [fst].
  rewrite list_tasks_ensure.
  set (tasks := listTaskFiles dir now) in *.
  set (dir0 := ensureVaultStructure dir) in *.
  set (B0 := parseBoardFile dir0) in *.
  pose proof (ensure_board_ok dir Hwf) as Hok0. fold dir0 B0 in Hok0.
  destruct (sync_loop (board_titles B0) tasks dir0 0 0 Hok0 Hnd Hsafe)
    as (dir1 & Efold & Hok1 & Hall & _ & _).
  { intros task Hin. split; [|reflexivity].
    rewrite forallb_forall in Hone. now apply Hone. }
  fold B0 in Efold. rewrite Efold. cbn [fst].
  destruct (prune_loop (map ParsedTask.title tasks)
              (board_titles (parseBoardFile dir1)) dir1 0 Hok1)
    as (dir2 & Eprune & _ & Hheld & Hleft).
  rewrite Eprune. cbn [fst]. split.
  - intros task Hin. rewrite Hheld; [now apply Hall|].
    apply mem_In. now apply in_map.
  - intros t Ht. destruct (Hleft t Ht) as [Hin Hm].
    apply mem_In. auto.
Qed.

Lemma sync_again (dir : Folder) (now now' : string) :
  well_formed_board dir = true ->
  NoDup (map ParsedTask.title (listTaskFiles dir now)) ->
  forallb task_line_safe (listTaskFiles dir now) = true ->
  forallb (reconcilable (parseBoardFile (ensureVaultStructure dir)))
    (listTaskFiles dir now) = true ->
  syncBoardWithFiles (fst (syncBoardWithFiles dir now)) now'
  = (fst (syncBoardWithFiles dir now), mkCounts 0 0 0).
Proof.
  intros Hwf Hnd Hsafe Hone.
  destruct (sync_settles dir now Hwf Hnd Hsafe Hone) as [Hall Hleft].
  cbv zeta in Hall, Hleft.
  destruct (same_tasks_sync dir now) as [Hlist _].
  set (dir1 := fst (syncBoardWithFiles dir now)) in *.
  apply sync_noop.
  - unfold dir1. rewrite sync_unfold. cbv zeta. cbn [fst].
    apply board_kept_prune_loop. cbn [fst].
    apply board_kept_task_loop. cbn [fst]. apply ensure_board_exists.
  - intros task' Hin. rewrite Hlist in Hin.
    destruct (in_core dir now now' task' Hin) as (task & Hin0 & Et & Ee).
    pose proof (Hall task Hin0) as Hh. rewrite Et, Ee in Hh.
    rewrite on_board_holders, misplaced_holders, Hh.
    split; [reflexivity|]. now rewrite String.eqb_refl.
  - intros t Ht. rewrite Hlist.
    rewrite titles_core, (list_tasks_core dir now' now), <- titles_core.
    now apply Hleft.
Qed.

End SyncMoreFacts.

Import SyncMoreFacts.

(* ================================================================== *)
(** ** Reconciliation, further properties                              *)
(* ================================================================== *)

(** X8 (syncBoardWithFiles writes the board file only).  Whatever the
    folder holds, a sync call leaves every task file as it was: each file
    other than the board file reads as before, the list of tasks is the
    same, and afterwards the board file exists. *)
Theorem sync_touches_board_only (dir : Folder) (now : string) :
  let dir' := fst (syncBoardWithFiles dir now) in
  (forall k, k <> BOARD -> Fs.read k dir' = Fs.read k dir)
  /\ (forall now', listTaskFiles dir' now' = listTaskFiles dir now')
  /\ Fs.exists_ BOARD dir' = true.
Proof.
  cbv zeta. destruct (same_tasks_sync dir now) as [H1 H2].
  split; [exact H2|]. split; [exact H1|].
  rewrite sync_unfold. cbv zeta. cbn [fst].
  apply board_kept_prune_loop. cbn [fst].
  apply board_kept_task_loop. cbn [fst]. apply ensure_board_exists.
Qed.

(** X9 (syncBoardWithFiles on a board in step with the files).  When the
    board file exists, every task's title is on the board with the column
    its status maps to as the first column holding it, and every item's
    title is a task's, a sync call returns zero for added, moved and removed
    and leaves the folder, the board file included, exactly as it was. *)
Theorem sync_fixed_point (dir : Folder) (now : string) :
  Fs.exists_ BOARD dir = true ->
  (forall task, In task (listTaskFiles dir now) ->
     on_board (ParsedTask.title task) (parseBoardFile dir) = true
     /\ misplaced (parseBoardFile dir) task = false) ->
  (forall t, In t (board_titles (parseBoardFile dir)) ->
     In t (map ParsedTask.title (listTaskFiles dir now))) ->
  syncBoardWithFiles dir now = (dir, mkCounts 0 0 0).
Proof. apply sync_noop. Qed.

Lemma sync_fixed_point_witness :
  syncBoardWithFiles sample_vault "2026-11-02T10:00:00.000Z"
  = (sample_vault, mkCounts 0 0 0).
Proof.
  apply (sync_fixed_point sample_vault "2026-11-02T10:00:00.000Z").
  - reflexivity.
  - intros task [<-|[]]. split; reflexivity.
  - intros t [<-|[]]. simpl. now left.
Defined.

(** X10 (the counts of syncBoardWithFiles account for every write).  A sync
    call that returns zero for added, moved and removed has written nothing
    but, when the board file was missing, the default board. *)
Theorem sync_zero_counts_no_write (dir : Folder) (now : string) :
  snd (syncBoardWithFiles dir now) = mkCounts 0 0 0 ->
  fst (syncBoardWithFiles dir now) = ensureVaultStructure dir.
Proof. apply sync_counted. Qed.

Lemma sync_zero_counts_no_write_witness :
  fst (syncBoardWithFiles [] "2026-11-02T10:00:00.000Z")
  = ensureVaultStructure [].
Proof.
  apply (sync_zero_counts_no_write [] "2026-11-02T10:00:00.000Z").
  reflexivity.
Defined.

(** X11 (a second sync has nothing to do).  Under the conditions of
    convergence (a well-formed board, task files with distinct titles that,
    like their due dates, a board line can carry, and no title held both
    first by the column its status maps to and by a further column), a sync
    call that follows a sync call returns zero for added, moved and removed
    and leaves the folder exactly as the first call left it. *)
Theorem sync_twice_is_once (dir : Folder) (now now' : string) :
  well_formed_board dir = true ->
  NoDup (map ParsedTask.title (listTaskFiles dir now)) ->
  forallb task_line_safe (listTaskFiles dir now) = true ->
  forallb (reconcilable (parseBoardFile (ensureVaultStructure dir)))
    (listTaskFiles dir now) = true ->
  syncBoardWithFiles (fst (syncBoardWithFiles dir now)) now'
  = (fst (syncBoardWithFiles dir now), mkCounts 0 0 0).
Proof. apply sync_again. Qed.

Lemma sync_twice_is_once_witness :
  syncBoardWithFiles
    (fst (syncBoardWithFiles scrambled_vault "2026-11-02T10:00:00.000Z"))
    "2026-11-03T10:00:00.000Z"
  = (fst (syncBoardWithFiles scrambled_vault "2026-11-02T10:00:00.000Z"),
     mkCounts 0 0 0).
Proof.
  apply (sync_twice_is_once scrambled_vault "2026-11-02T10:00:00.000Z"
           "2026-11-03T10:00:00.000Z"); try reflexivity.
  vm_compute. repeat constructor; simpl; intuition discriminate.
Defined.

(* ================================================================== *)
(** ** Further facts about task files                                  *)
(* ================================================================== *)

Module TaskMoreFacts.

Lemma read_unlink_same (k : string) (dir : Folder) :
  Fs.read k (Fs.unlink k dir) = None.
Proof.
  unfold Fs.unlink. induction dir as [|[k0 f] dir IH]; simpl; auto.
  destruct (k0 =? k)%string eqn:E; simpl; auto. now rewrite E.
Qed.

Lemma read_unlink_other (k k' : string) (dir : Folder) :
  k' <> k -> Fs.read k' (Fs.unlink k dir) = Fs.read k' dir.
Proof.
  intros Hne. unfold Fs.unlink.
  induction dir as [|[k0 f] dir IH]; simpl; auto.
  destruct (k0 =? k)%string eqn:E; simpl.
  - apply String.eqb_eq in E. subst k0.
    apply not_eq_sym, String.eqb_neq in Hne. now rewrite Hne.
  - now rewrite IH.
Qed.

Lemma trim_start_spaces (w s : string) :
  forall_chars is_space w = true -> trim_start (w ++ s) = trim_start s.
Proof.
  induction w as [|c w IH]; simpl; auto.
  intros H. apply andb_prop in H as [Hc H]. now rewrite Hc, IH.
Qed.

Lemma trim_end_spaces (w : string) :
  forall_chars is_space w = true -> trim_end w = "".
Proof.
  induction w as [|c w IH]; simpl; auto.
  intros H. apply andb_prop in H as [Hc H]. now rewrite Hc, IH.
Qed.

Lemma trim_end_app_spaces (x w : string) :
  forall_chars is_space w = true -> trim_end (x ++ w) = trim_end x.
Proof.
  intros H. induction x as [|c x IH]; simpl.
  - now apply trim_end_spaces.
  - now rewrite IH.
Qed.

Lemma trim_app_spaces (s w : string) :
  forall_chars is_space w = true -> trim (s ++ w) = trim s.
Proof.
  intros H. unfold trim. induction s as [|c s IH].
  - simpl. rewrite <- (append_nil_r w), trim_start_spaces by assumption.
    reflexivity.
  - cbn [append trim_start]. destruct (is_space c); auto.
    change (String c (s ++ w)) with (String c s ++ w).
    now apply trim_end_app_spaces.
Qed.

Lemma trim_padded (s : string) : trim (nl ++ s ++ nl) = trim s.
Proof.
  rewrite <- append_assoc. rewrite (trim_app_spaces (nl ++ s) nl eq_refl).
  unfold trim. now rewrite (trim_start_spaces nl s eq_refl).
Qed.

Lemma trim_stored_body (body : string) :
  trim (if is_empty body then nl else nl ++ body ++ nl) = trim body.
Proof.
  destruct body; [reflexivity|]. cbn [is_empty].
  apply trim_padded.
Qed.

(** Reading a task file back. *)
Lemma parse_written_task (dir : Folder) (k : string) (fm : TaskFrontmatter)
    (body now : string) :
  parseTaskFile (writeTaskFile dir k fm body) now k
  = Some (ParsedTask.mk (basename_md k) (basename_md k)
            (stored_frontmatter fm now) (trim body) k).
Proof.
  unfold parseTaskFile, writeTaskFile. rewrite read_write_same.
  cbn [data content Partial.status Partial.assignee Partial.priority
       Partial.project Partial.due_date Partial.blocked_by
       Partial.follow_up_date Partial.created_at Partial.completed_at
       Partial.tags or_default].
  rewrite trim_stored_body, !truthy_idem.
  unfold stored_frontmatter. do 3 f_equal.
  now destruct (tags fm) as [[|x l]|].
Qed.

Lemma settled_stored (fm : TaskFrontmatter) (now : string) :
  settled fm -> stored_frontmatter fm now = fm.
Proof.
  intros (H1 & H2 & H3 & H4 & H5 & H6 & H7).
  unfold stored_frontmatter. rewrite H1, H2, H3, H4, H5.
  cbn [truthy]. rewrite H6. cbn [or_default].
  destruct fm as [s a p pr du bl fo cr co [tg|]]; [reflexivity|].
  now elim H7.
Qed.

Lemma truthy_not_empty (x : option string) (s : string) :
  truthy x = Some s -> is_empty s = false.
Proof.
  destruct x as [y|]; [|discriminate]. simpl.
  destruct (is_empty y) eqn:E; [discriminate|]. now intros [= <-].
Qed.

Lemma parse_shape (dir : Folder) (now k : string) (task : ParsedTask.t) :
  parseTaskFile dir now k = Some task ->
  is_empty now = false ->
  task = ParsedTask.mk (basename_md k) (basename_md k)
           (ParsedTask.frontmatter task) (ParsedTask.body task) k
  /\ settled (ParsedTask.frontmatter task)
  /\ trim (ParsedTask.body task) = ParsedTask.body task.
Proof.
  unfold parseTaskFile. destruct (Fs.read k dir) as [f|]; [|discriminate].
  intros [= <-] Hnow.
  cbn [ParsedTask.frontmatter ParsedTask.body].
  split; [reflexivity|]. split; [|apply trim_idem].
  unfold settled.
  cbn [project due_date blocked_by follow_up_date completed_at created_at tags].
  rewrite !truthy_idem. repeat split; try discriminate.
  destruct (truthy (Partial.created_at (data f))) as [s|] eqn:E; auto.
  cbn [or_default]. now apply truthy_not_empty in E.
Qed.

Lemma find_parse (dir : Folder) (now taskId : string) (task : ParsedTask.t) :
  findTaskByTitle dir now taskId = Some task ->
  parseTaskFile dir now (ParsedTask.filePath task) = Some task.
Proof.
  intros H. rewrite find_resolve in H.
  destruct (resolve (map fst dir) taskId) as [k|] eqn:Ek; [|discriminate].
  pose proof (resolve_exists _ _ _ Ek) as Hex. rewrite <- exists_keys in Hex.
  destruct (parse_listed dir now k Hex) as (task0 & Hp & Hpath & _).
  rewrite Hp in H. inversion H; subst task0. now rewrite Hpath.
Qed.

Lemma find_shape (dir : Folder) (now taskId : string) (task : ParsedTask.t) :
  findTaskByTitle dir now taskId = Some task ->
  is_empty now = false ->
  let k := ParsedTask.filePath task in
  task = ParsedTask.mk (basename_md k) (basename_md k)
           (ParsedTask.frontmatter task) (ParsedTask.body task) k
  /\ settled (ParsedTask.frontmatter task)
  /\ trim (ParsedTask.body task) = ParsedTask.body task
  /\ Fs.exists_ k dir = true.
Proof.
  intros H Hnow. cbv zeta. pose proof (find_parse _ _ _ _ H) as Hp.
  destruct (parse_shape _ _ _ _ Hp Hnow) as (H1 & H2 & H3).
  split; [exact H1|]. split; [exact H2|]. split; [exact H3|].
  unfold parseTaskFile in Hp. unfold Fs.exists_.
  now destruct (Fs.read (ParsedTask.filePath task) dir).
Qed.

Lemma settled_updated (task : ParsedTask.t) (now : string) (s : Status) :
  settled (ParsedTask.frontmatter task) -> is_empty now = false ->
  settled (updated_frontmatter task now s).
Proof.
  intros (H1 & H2 & H3 & H4 & H5 & H6 & H7) Hnow.
  unfold settled, updated_frontmatter.
  cbn [project due_date blocked_by follow_up_date completed_at created_at tags].
  repeat split; auto.
  destruct (Status_eqb s done && negb (is_truthy _)); auto.
  simpl. now rewrite Hnow.
Qed.

Lemma settled_with_status (s : Status) (fm : TaskFrontmatter) :
  settled fm -> settled (with_status s fm).
Proof. intros H. exact H. Qed.

Lemma board_after_task_write (dir : Folder) (k : string)
    (fm : TaskFrontmatter) (body : string) :
  k <> BOARD ->
  Fs.read BOARD (writeTaskFile dir k fm body) = Fs.read BOARD dir.
Proof.
  intros Hk. unfold writeTaskFile. apply read_write_other. congruence.
Qed.

Lemma parseBoardFile_read (dir dir' : Folder) :
  Fs.read BOARD dir' = Fs.read BOARD dir ->
  parseBoardFile dir' = parseBoardFile dir
  /\ well_formed_board dir' = well_formed_board dir.
Proof. intros H. unfold parseBoardFile, well_formed_board. now rewrite H. Qed.

Lemma parseTaskFile_read (dir dir' : Folder) (now k : string) :
  Fs.read k dir' = Fs.read k dir ->
  parseTaskFile dir' now k = parseTaskFile dir now k.
Proof. intros H. unfold parseTaskFile. now rewrite H. Qed.

Lemma listed_exists (dir : Folder) (now : string) (task : ParsedTask.t) :
  In task (listTaskFiles dir now) ->
  Fs.exists_ (ParsedTask.filePath task) dir = true
  /\ ParsedTask.filePath task <> BOARD.
Proof.
  unfold listTaskFiles. intros H. apply in_flat_map in H as (e & He & H).
  destruct (fst e =? BOARD)%string eqn:Eb; [contradiction|].
  unfold parseTaskFile in H. unfold Fs.exists_.
  destruct (Fs.read (fst e) dir) eqn:Er; [|contradiction].
  destruct H as [<-|[]]. cbn [ParsedTask.filePath]. rewrite Er.
  split; auto. now apply String.eqb_neq.
Qed.

End TaskMoreFacts.

Import TaskMoreFacts.

(* ================================================================== *)
(** ** The task store, further properties                              *)
(* ================================================================== *)



(** X13 (updateTask with a status only).  For the task an id designates
    (not the board file), a call that names only a status stores a file from
    which the task is read back with that status, with [completed_at] set to
    now when the status is done and none was set, and with the assignee, the
    priority, the project, the dates, the tags, [created_at] and the body it
    had. *)
Theorem status_update_keeps_rest (dir : Folder) (now now' taskId : string)
    (s : Status) (task : ParsedTask.t) :
  findTaskByTitle dir now taskId = Some task ->
  ParsedTask.filePath task <> BOARD ->
  is_empty now = false ->
  parseTaskFile (fst (updateTask dir now (status_update taskId s))) now'
    (ParsedTask.filePath task)
  = Some (ParsedTask.mk (ParsedTask.filename task) (ParsedTask.title task)
            (updated_frontmatter task now s) (ParsedTask.body task)
            (ParsedTask.filePath task)).
Proof.
  intros H Hk Hnow.
  destruct (find_shape _ _ _ _ H Hnow) as (E & Hs & Hb & _).
  rewrite (updateTask_status _ _ _ _ _ H). cbv zeta.
  set (written := writeTaskFile dir (ParsedTask.filePath task)
                    (updated_frontmatter task now s) (ParsedTask.body task)).
  assert (Hw : parseTaskFile written now' (ParsedTask.filePath task)
               = Some (ParsedTask.mk (ParsedTask.filename task)
                         (ParsedTask.title task)
                         (updated_frontmatter task now s)
                         (ParsedTask.body task) (ParsedTask.filePath task))).
  { unfold written.
    rewrite parse_written_task, settled_stored, Hb
      by now apply settled_updated.
    pose proof (f_equal ParsedTask.filename E) as Ef.
    pose proof (f_equal ParsedTask.title E) as Et.
    cbn [ParsedTask.filename ParsedTask.title] in Ef, Et.
    now rewrite Ef, Et. }
  destruct (negb (Status_eqb s (status (ParsedTask.frontmatter task))));
    [|exact Hw].
  rewrite <- Hw. apply parseTaskFile_read.
  now apply read_moveOnBoard_other.
Qed.

Lemma status_update_keeps_rest_witness :
  parseTaskFile
    (fst (updateTask sample_vault "2026-02-10T08:00:00.000Z"
            (status_update "draft proposal" done)))
    "2026-02-11T08:00:00.000Z" "Draft proposal"
  = Some (ParsedTask.mk "Draft proposal" "Draft proposal"
            (updated_frontmatter sample_task "2026-02-10T08:00:00.000Z" done)
            "Write the first version." "Draft proposal").
Proof.
  apply (status_update_keeps_rest sample_vault "2026-02-10T08:00:00.000Z"
           "2026-02-11T08:00:00.000Z" "draft proposal" done sample_task).
  - vm_compute. reflexivity.
  - vm_compute. discriminate.
  - reflexivity.
Defined.

(** X14 (completeTask).  For the task an id designates (not the board
    file): when its status is already done, completing it does not touch the
    board file, wherever its item is; otherwise, on a well-formed board and
    for a title and a due date that a board line can carry, completing it
    leaves exactly one item with its title, the last item of the first
    column named Done, checked and dated with the task's due date. *)
Theorem complete_lands_in_done (dir : Folder) (now taskId : string)
    (task : ParsedTask.t) :
  findTaskByTitle dir now taskId = Some task ->
  ParsedTask.filePath task <> BOARD ->
  let dir' := fst (completeTask dir now taskId) in
  let t := ParsedTask.title task in
  let fm := ParsedTask.frontmatter task in
  (status fm = done -> Fs.read BOARD dir' = Fs.read BOARD dir)
  /\ (status fm <> done ->
      well_formed_board dir = true -> task_line_safe task = true ->
      holders t (parseBoardFile dir') = ["Done"]
      /\ count_title t (parseBoardFile dir') = 1
      /\ exists c before,
           target_column done (parseBoardFile dir') = Some c
           /\ items c = (before ++ [mkItem t true (due_date fm)])%list
           /\ has_title t before = false).
Proof.
  intros H Hk. cbv zeta. unfold completeTask.
  rewrite (updateTask_status _ _ _ _ _ H). cbv zeta.
  set (written := writeTaskFile dir (ParsedTask.filePath task)
                    (updated_frontmatter task now done)
                    (ParsedTask.body task)).
  assert (Hb : Fs.read BOARD written = Fs.read BOARD dir)
    by now apply board_after_task_write.
  split.
  - intros ->. exact Hb.
  - intros Hs Hwf Hsafe.
    replace (Status_eqb done (status (ParsedTask.frontmatter task)))
      with false by (now destruct (status (ParsedTask.frontmatter task))).
    cbn [negb].
    destruct (parseBoardFile_read dir written Hb) as [Ep Ew].
    unfold task_line_safe in Hsafe. apply andb_prop in Hsafe as [Ht Hd].
    pose proof (safe_date_truthy _ Hd) as Etr.
    destruct (moveOnBoard_lands written (ParsedTask.title task) done
                (due_date (ParsedTask.frontmatter task)))
      as (H1 & H2 & H3 & _); auto.
    + rewrite Ep. apply parse_file_ok. exact Hwf.
    + now rewrite Etr.
    + rewrite Etr in H3. auto.
Qed.

Lemma complete_lands_in_done_witness :
  let dir' :=
    fst (completeTask sample_vault "2026-02-10T08:00:00.000Z"
           "draft proposal") in
  (next = done -> Fs.read BOARD dir' = Fs.read BOARD sample_vault)
  /\ (next <> done ->
      well_formed_board sample_vault = true ->
      task_line_safe sample_task = true ->
      holders "Draft proposal" (parseBoardFile dir') = ["Done"]
      /\ count_title "Draft proposal" (parseBoardFile dir') = 1
      /\ exists c before,
           target_column done (parseBoardFile dir') = Some c
           /\ items c
              = (before
                 ++ [mkItem "Draft proposal" true (Some "2026-02-20")])%list
           /\ has_title "Draft proposal" before = false).
Proof.
  apply (complete_lands_in_done sample_vault "2026-02-10T08:00:00.000Z"
           "draft proposal" sample_task).
  - vm_compute. reflexivity.
  - vm_compute. discriminate.
Defined.

(** X15 (updateTask with a new title that names the task's own file).  When
    the new title differs from the task's title but is sanitized to the name
    of the task's own file (it differs by characters the sanitizer removes,
    or by white space), the call writes the file and then unlinks it: the
    task file is gone afterwards, and the payload carries the bare id. *)
Theorem rename_to_own_file_deletes (dir : Folder) (now : string)
    (params : UpdateParams.t) (t' : string) (task : ParsedTask.t) :
  findTaskByTitle dir now (UpdateParams.taskId params) = Some task ->
  UpdateParams.title params = Some t' ->
  is_empty t' = false ->
  t' <> ParsedTask.title task ->
  sanitizeFilename t' = ParsedTask.filePath task ->
  ParsedTask.filePath task <> BOARD ->
  let result := updateTask dir now params in
  Fs.exists_ (ParsedTask.filePath task) (fst result) = false
  /\ snd result = UpdatedResult (inr (UpdateParams.taskId params)).
Proof.
  intros H Ht Hne Hdiff Hsan Hk. cbv zeta.
  unfold updateTask. rewrite H. cbv zeta. rewrite Ht.
  cbn [truthy or_default is_truthy]. rewrite Hne.
  apply String.eqb_neq in Hdiff. rewrite Hdiff. cbn [negb].
  rewrite Hsan.
  cbn [fst snd].
  match goal with
  | |- context [renameOnBoard ?x ?a ?b] => set (base := renameOnBoard x a b)
  end.
  assert (Hbase : Fs.read (ParsedTask.filePath task) base = None).
  { unfold base, renameOnBoard, writeBoardFile.
    rewrite read_write_other by assumption. apply read_unlink_same. }
  match goal with
  | |- context [if ?c then moveOnBoard base ?a ?b ?d else base] =>
      set (final := if c then moveOnBoard base a b d else base)
  end.
  assert (Hfinal : Fs.read (ParsedTask.filePath task) final = None).
  { unfold final.
    destruct (match UpdateParams.status params with
              | Some s => _
              | None => false
              end); auto.
    now rewrite read_moveOnBoard_other. }
  unfold Fs.exists_, parseTaskFile. now rewrite Hfinal.
Qed.

Lemma rename_to_own_file_deletes_witness :
  let result :=
    updateTask sample_vault "2026-02-10T08:00:00.000Z"
      (title_update "Draft proposal" "Draft proposal?") in
  Fs.exists_ "Draft proposal" (fst result) = false
  /\ snd result = UpdatedResult (inr "Draft proposal").
Proof.
  apply (rename_to_own_file_deletes sample_vault "2026-02-10T08:00:00.000Z"
           (title_update "Draft proposal" "Draft proposal?")
           "Draft proposal?" sample_task); try reflexivity.
  - vm_compute. discriminate.
  - vm_compute. discriminate.
Defined.



(** The file of the new name is replaced without notice: renaming a task
    to the name of another task leaves one file, with the renamed task's
    data. *)
Example rename_replaces_existing_file :
  let dir' :=
    fst (updateTask scrambled_vault "2026-02-10T08:00:00.000Z"
           (title_update "Plan" "Report")) in
  map fst dir' = ["Report"; "Ship"; BOARD]
  /\ option_map
       (fun task => (status (ParsedTask.frontmatter task),
                     due_date (ParsedTask.frontmatter task),
                     ParsedTask.body task))
       (parseTaskFile dir' "2026-02-11T08:00:00.000Z" "Report")
     = Some (working, Some "2026-03-01", "").
Proof. split; vm_compute; reflexivity. Qed.



(** X18 (deleteTask).  For the task an id designates (not the board
    file), deletion answers with the task's title, removes the task file, so
    that the task is no longer listed, and touches no other task file; on a
    well-formed board no item with the task's title is left, and every other
    title is held by the columns that held it. *)
Theorem delete_removes_task (dir : Folder) (now taskId : string)
    (task : ParsedTask.t) :
  findTaskByTitle dir now taskId = Some task ->
  ParsedTask.filePath task <> BOARD ->
  let result := deleteTask dir now taskId in
  let k := ParsedTask.filePath task in
  let t := ParsedTask.title task in
  snd result = DeletedResult t
  /\ Fs.exists_ k (fst result) = false
  /\ (forall now' task', In task' (listTaskFiles (fst result) now') ->
        ParsedTask.filePath task' <> k)
  /\ (forall k', k' <> BOARD -> k' <> k ->
        Fs.read k' (fst result) = Fs.read k' dir)
  /\ (well_formed_board dir = true ->
      count_title t (parseBoardFile (fst result)) = 0
      /\ forall t', t' <> t ->
           holders t' (parseBoardFile (fst result))
           = holders t' (parseBoardFile dir)).
Proof.
  intros H Hk. cbv zeta. unfold deleteTask. rewrite H. cbn [fst snd].
  set (k := ParsedTask.filePath task) in *.
  set (t := ParsedTask.title task).
  assert (Hgone : Fs.exists_ k (removeFromBoard (Fs.unlink k dir) t) = false).
  { unfold Fs.exists_. rewrite read_removeFromBoard_other by assumption.
    now rewrite read_unlink_same. }
  assert (Hb : Fs.read BOARD (Fs.unlink k dir) = Fs.read BOARD dir)
    by (apply read_unlink_other; congruence).
  split; [reflexivity|]. split; [exact Hgone|]. split; [|split].
  - intros now' task' Hin E. apply listed_exists in Hin as [Hex _].
    rewrite E in Hex. congruence.
  - intros k' H1 H2. rewrite read_removeFromBoard_other by assumption.
    now apply read_unlink_other.
  - intros Hwf. destruct (parseBoardFile_read dir _ Hb) as [Ep Ew].
    rewrite removeFromBoard_parse; rewrite Ep; [|now apply parse_file_ok].
    split; [apply count_remove_item|].
    intros t' Hne. apply holders_remove_other. congruence.
Qed.

Lemma delete_removes_task_witness :
  let result := deleteTask scrambled_vault "2026-02-10T08:00:00.000Z" "plan" in
  snd result = DeletedResult "Plan"
  /\ Fs.exists_ "Plan" (fst result) = false
  /\ (forall now' task', In task' (listTaskFiles (fst result) now') ->
        ParsedTask.filePath task' <> "Plan")
  /\ (forall k', k' <> BOARD -> k' <> "Plan" ->
        Fs.read k' (fst result) = Fs.read k' scrambled_vault)
  /\ (well_formed_board scrambled_vault = true ->
      count_title "Plan" (parseBoardFile (fst result)) = 0
      /\ forall t', t' <> "Plan" ->
           holders t' (parseBoardFile (fst result))
           = holders t' (parseBoardFile scrambled_vault)).
Proof.
  apply (delete_removes_task scrambled_vault "2026-02-10T08:00:00.000Z" "plan"
           (ParsedTask.mk "Plan" "Plan"
              (mkFrontmatter working me medium None (Some "2026-03-01") None
                 None "2026-02-10T08:00:00.000Z" None (Some []))
              "" "Plan")).
  - vm_compute. reflexivity.
  - vm_compute. discriminate.
Defined.

(** X19 (archiveTask).  For the task an id designates (not the board
    file), archiving stores in the archive folder, under the task's file
    name, a file from which the task is read back with the status archived
    and with every other field and the body as they were; it removes the
    file from the Tasks folder and touches no other file of either folder;
    on a well-formed board no item with the task's title is left. *)
Theorem archive_moves_task (dir archive : Folder) (now now' taskId : string)
    (task : ParsedTask.t) :
  findTaskByTitle dir now taskId = Some task ->
  ParsedTask.filePath task <> BOARD ->
  is_empty now = false ->
  let result := archiveTask dir archive now taskId in
  let dir' := fst (fst result) in
  let archive' := snd (fst result) in
  let k := ParsedTask.filePath task in
  let t := ParsedTask.title task in
  snd result = ArchivedResult t
  /\ parseTaskFile archive' now' t
     = Some (ParsedTask.mk t t
               (with_status archived (ParsedTask.frontmatter task))
               (ParsedTask.body task) t)
  /\ (forall k', k' <> t -> Fs.read k' archive' = Fs.read k' archive)
  /\ Fs.exists_ k dir' = false
  /\ (forall k', k' <> BOARD -> k' <> k -> Fs.read k' dir' = Fs.read k' dir)
  /\ (well_formed_board dir = true ->
      count_title t (parseBoardFile dir') = 0).
Proof.
  intros H Hk Hnow. cbv zeta. unfold archiveTask. rewrite H. cbn [fst snd].
  destruct (find_shape _ _ _ _ H Hnow) as (E & Hs & Hb & _).
  pose proof (f_equal ParsedTask.filename E) as Ef.
  pose proof (f_equal ParsedTask.title E) as Et.
  cbn [ParsedTask.filename ParsedTask.title] in Ef, Et.
  set (k := ParsedTask.filePath task) in *.
  set (t := ParsedTask.title task) in *.
  assert (Hbase : basename_md t = t).
  { rewrite Et. unfold basename_md. destruct k; reflexivity. }
  assert (Hboard : Fs.read BOARD (Fs.unlink k dir) = Fs.read BOARD dir)
    by (apply read_unlink_other; congruence).
  rewrite Ef, <- Et.
  split; [reflexivity|]. split; [|split; [|split; [|split]]].
  - rewrite parse_written_task, Hbase, Hb.
    rewrite settled_stored by now apply settled_with_status.
    reflexivity.
  - intros k' Hne. unfold writeTaskFile. now apply read_write_other.
  - unfold Fs.exists_. rewrite read_removeFromBoard_other by assumption.
    now rewrite read_unlink_same.
  - intros k' H1 H2. rewrite read_removeFromBoard_other by assumption.
    now apply read_unlink_other.
  - intros Hwf. destruct (parseBoardFile_read dir _ Hboard) as [Ep Ew].
    rewrite removeFromBoard_parse; rewrite Ep; [|now apply parse_file_ok].
    apply count_remove_item.
Qed.

Lemma archive_moves_task_witness :
  let result :=
    archiveTask sample_vault [] "2026-02-10T08:00:00.000Z" "draft proposal" in
  let dir' := fst (fst result) in
  let archive' := snd (fst result) in
  snd result = ArchivedResult "Draft proposal"
  /\ parseTaskFile archive' "2026-02-11T08:00:00.000Z" "Draft proposal"
     = Some (ParsedTask.mk "Draft proposal" "Draft proposal"
               (with_status archived (ParsedTask.frontmatter sample_task))
               "Write the first version." "Draft proposal")
  /\ (forall k', k' <> "Draft proposal" -> Fs.read k' archive' = Fs.read k' [])
  /\ Fs.exists_ "Draft proposal" dir' = false
  /\ (forall k', k' <> BOARD -> k' <> "Draft proposal" ->
        Fs.read k' dir' = Fs.read k' sample_vault)
  /\ (well_formed_board sample_vault = true ->
      count_title "Draft proposal" (parseBoardFile dir') = 0).
Proof.
  apply (archive_moves_task sample_vault [] "2026-02-10T08:00:00.000Z"
           "2026-02-11T08:00:00.000Z" "draft proposal" sample_task).
  - vm_compute. reflexivity.
  - vm_compute. discriminate.
  - reflexivity.
Defined.

(* ================================================================== *)
(** ** Facts about the listing                                         *)
(* ================================================================== *)

Module ListFacts.

Lemma filter_filter {A} (f g : A -> bool) (l : list A) :
  filter f (filter g l) = filter (fun x => g x && f x) l.
Proof.
  induction l as [|x l IH]; [reflexivity|]. simpl.
  destruct (g x); simpl; [destruct (f x)|]; now rewrite IH.
Qed.

Lemma selected_wanted (params : ListParams.t) (l : list ParsedTask.t) :
  selected params l = filter (wanted params) l.
Proof.
  unfold selected. rewrite !filter_filter. apply filter_ext.
  intros t. unfold wanted. now rewrite !andb_assoc.
Qed.

Section Sorting.

Variable getTime : string -> Z.

Lemma insert_task_perm (x : ParsedTask.t) (l : list ParsedTask.t) :
  Permutation (insert_task getTime x l) (x :: l).
Proof.
  induction l as [|y l IH]; [reflexivity|]. simpl.
  destruct (created getTime x <? created getTime y)%Z; [|reflexivity].
  rewrite IH. apply perm_swap.
Qed.

Lemma sort_tasks_perm (l : list ParsedTask.t) :
  Permutation (sort_tasks getTime l) l.
Proof.
  induction l as [|x l IH]; [reflexivity|]. simpl.
  rewrite insert_task_perm. now constructor.
Qed.

Lemma descending_cons (a : Z) (l : list Z) :
  descending (a :: l) = true ->
  descending l = true.
Proof.
  destruct l as [|b l]; [reflexivity|]. cbn [descending].
  intros H. now apply andb_prop in H as [_ H].
Qed.

Lemma insert_task_descending (x : ParsedTask.t) (l : list ParsedTask.t) :
  descending (map (created getTime) l) = true ->
  descending (map (created getTime) (insert_task getTime x l)) = true.
Proof.
  induction l as [|y l IH]; [reflexivity|]. intros H.
  cbn [insert_task].
  destruct (created getTime x <? created getTime y)%Z eqn:E.
  - pose proof (IH (descending_cons _ _ H)) as IH'.
    destruct l as [|z l].
    + cbn. apply Z.ltb_lt in E. rewrite andb_true_r. apply Z.leb_le. lia.
    + cbn [insert_task] in *.
      destruct (created getTime x <? created getTime z)%Z eqn:E2.
      * cbn [map descending] in *. apply andb_prop in H as [H1 _].
        now rewrite H1.
      * cbn [map descending] in *. rewrite IH', andb_true_r.
        apply Z.ltb_lt in E. apply Z.leb_le. lia.
  - cbn [map descending] in *. apply andb_true_intro. split; [|exact H].
    apply Z.ltb_ge in E. now apply Z.leb_le.
Qed.

Lemma sort_tasks_descending (l : list ParsedTask.t) :
  descending (map (created getTime) (sort_tasks getTime l)) = true.
Proof.
  induction l as [|x l IH]; [reflexivity|]. simpl.
  now apply insert_task_descending.
Qed.

End Sorting.

Lemma descending_firstn (n : nat) (l : list Z) :
  descending l = true -> descending (firstn n l) = true.
Proof.
  revert l. induction n as [|n IH]; intros l H; [reflexivity|].
  destruct l as [|a l]; [reflexivity|].
  pose proof (IH l (descending_cons _ _ H)) as IH'.
  cbn [firstn]. destruct l as [|b l]; [now destruct n|].
  destruct n as [|n]; [reflexivity|].
  cbn [firstn descending] in *. apply andb_prop in H as [H1 _].
  now rewrite H1.
Qed.

Lemma limited_firstn {A} (p : option Z) (l : list A) :
  exists n, limited p l = firstn n l.
Proof.
  destruct p as [z|]; simpl.
  - destruct (z =? 0)%Z.
    + exists (List.length l). now rewrite firstn_all.
    + unfold slice_to. destruct (z <? 0)%Z; eauto.
  - exists (List.length l). now rewrite firstn_all.
Qed.

Lemma limited_length {A} (z : Z) (l : list A) :
  List.length (limited (Some z) l)
  = if (z =? 0)%Z then List.length l
    else if (z <? 0)%Z then List.length l - Z.to_nat (- z)
    else Nat.min (Z.to_nat z) (List.length l).
Proof.
  simpl. destruct (z =? 0)%Z; [reflexivity|]. unfold slice_to.
  destruct (z <? 0)%Z; rewrite length_firstn; lia.
Qed.

Lemma created_record (getTime : string -> Z) (l : list ParsedTask.t) :
  map (fun r => getTime (TaskRecord.created_at r)) (map taskToRecord l)
  = map (created getTime) l.
Proof. rewrite map_map. reflexivity. Qed.

End ListFacts.

Import ListFacts.

(* ================================================================== *)
(** ** The listing                                                     *)
(* ================================================================== *)

(** X20 (listTasks).  A listing call creates the default board when the
    board file is missing and touches nothing else.  Its answer is made of
    the tasks that pass all the filters the call names, each once, ordered
    from the newest [created_at] to the oldest, and cut as the limit says: no
    cut for a missing or zero limit, the first [n] for a positive one, all
    but the last [-n] for a negative one; the count is the number of records
    in the answer. *)
Theorem list_tasks_spec (getTime : string -> Z) (dir : Folder) (now : string)
    (params : ListParams.t) :
  let all := filter (wanted params) (listTaskFiles dir now) in
  let result := snd (listTasks getTime dir now params) in
  fst (listTasks getTime dir now params) = ensureVaultStructure dir
  /\ ListResult.count result = List.length (ListResult.tasks result)
  /\ descending (map (fun r => getTime (TaskRecord.created_at r))
                   (ListResult.tasks result)) = true
  /\ (exists ordered,
        Permutation ordered all
        /\ descending (map (created getTime) ordered) = true
        /\ ListResult.tasks result
           = map taskToRecord (limited (ListParams.limit params) ordered))
  /\ ListResult.count result
     = match ListParams.limit params with
       | None => List.length all
       | Some n =>
           if (n =? 0)%Z then List.length all
           else if (n <? 0)%Z then List.length all - Z.to_nat (- n)
           else Nat.min (Z.to_nat n) (List.length all)
       end.
Proof.
  cbv zeta. unfold listTasks. cbn [fst snd ListResult.count ListResult.tasks].
  rewrite list_tasks_ensure, selected_wanted.
  set (all := filter (wanted params) (listTaskFiles dir now)).
  set (ordered := sort_tasks getTime all).
  pose proof (sort_tasks_perm getTime all) as Hperm. fold ordered in Hperm.
  pose proof (sort_tasks_descending getTime all) as Hdesc.
  fold ordered in Hdesc.
  split; [reflexivity|]. split; [now rewrite length_map|].
  split; [|split].
  - rewrite created_record.
    destruct (limited_firstn (ListParams.limit params) ordered) as [n ->].
    rewrite <- firstn_map. now apply descending_firstn.
  - exists ordered. auto.
  - rewrite <- (Permutation_length Hperm).
    destruct (ListParams.limit params) as [n|]; [|reflexivity].
    apply limited_length.
Qed.

(* ================================================================== *)
(** ** Facts about the follow-ups file                                 *)
(* ================================================================== *)

Module TrackerFacts.

Import Tracker.

Lemma forall_chars_app (p : ascii -> bool) (a b : string) :
  forall_chars p (a ++ b) = forall_chars p a && forall_chars p b.
Proof.
  induction a as [|c a IH]; simpl; auto. now rewrite IH, andb_assoc.
Qed.

Lemma uint_digits (u : Decimal.uint) :
  forall_chars is_digit (NilEmpty.string_of_uint u) = true.
Proof. induction u; simpl; auto. Qed.

Lemma show_uint_digits (u : Decimal.uint) :
  forall_chars is_digit (NilZero.string_of_uint u) = true.
Proof. destruct u; try reflexivity; apply (uint_digits (_ u)). Qed.

Lemma show_Z_no_lf (n : Z) : no_lf (show_Z n) = true.
Proof.
  unfold show_Z, no_lf, NilZero.string_of_int.
  destruct (Z.to_int n) as [u|u]; cbn [forall_chars];
    rewrite ?andb_true_l;
    apply (forall_chars_impl is_digit); try apply show_uint_digits;
    intros c; destruct c as [[] [] [] [] [] [] [] []]; simpl; congruence.
Qed.

Lemma show_days_no_lf (d : option Z) : no_lf (show_days d) = true.
Proof. destruct d; [apply show_Z_no_lf|reflexivity]. Qed.

Lemma days_word_no_lf (d : option Z) : no_lf (days_word d) = true.
Proof. destruct d as [[|[p|p|]|]|]; reflexivity. Qed.

Lemma overdueTag_no_lf (f : Tracked.t) : no_lf (overdueTag f) = true.
Proof. unfold overdueTag. now destruct (Tracked.overdue f). Qed.

Lemma show_nat_head (n : nat) :
  exists c s, show_nat n = String c s /\ is_digit c = true.
Proof.
  unfold show_nat, show_Z, NilZero.string_of_int.
  destruct (Z.of_nat n) as [|p|p] eqn:E; [simpl; eauto| |lia].
  cbn [Z.to_int]. pose proof (show_uint_digits (Pos.to_uint p)) as H.
  destruct (NilZero.string_of_uint (Pos.to_uint p)) as [|c s] eqn:Es.
  - exfalso. unfold NilZero.string_of_uint in Es.
    destruct (Pos.to_uint p) eqn:Eu; try discriminate.
  - simpl in H. apply andb_prop in H as [H _]. eauto.
Qed.

(** *** Substrings *)

Lemma includes_app_l (pat a s : string) :
  includes pat s = true -> includes pat (a ++ s) = true.
Proof.
  unfold includes. induction a as [|c a IH]; simpl; auto.
  intros H. destruct (strip_prefix pat (String c (a ++ s))); auto.
Qed.

Lemma overdueTag_includes (f : Tracked.t) :
  Tracked.overdue f = true -> includes "overdue" (overdueTag f) = true.
Proof. unfold overdueTag. now intros ->. Qed.

(** *** The lines of the file *)

Lemma of_type_lines (ty : FollowUp.FollowUpType) (l : list Tracked.t) :
  map (match ty with
       | FollowUp.needs_reply => needs_reply_line
       | FollowUp.awaiting_reply => awaiting_reply_line
       | FollowUp.needs_action => needs_action_line
       end) (of_type ty l)
  = map line_of (of_type ty l).
Proof.
  apply map_ext_in. intros f Hf. unfold of_type in Hf.
  apply filter_In in Hf as [_ Hf]. unfold line_of.
  destruct ty, (Tracked.type f); try discriminate; reflexivity.
Qed.

Lemma line_of_no_lf (f : Tracked.t) :
  single_line f = true -> no_lf (line_of f) = true.
Proof.
  unfold single_line, line_of. intros H. apply andb_prop in H as [Hs Hp].
  destruct (Tracked.type f);
    unfold needs_reply_line, awaiting_reply_line, needs_action_line;
    rewrite !no_lf_app, Hs, ?Hp, show_days_no_lf, days_word_no_lf,
      overdueTag_no_lf;
    reflexivity.
Qed.

Lemma line_of_item (f : Tracked.t) :
  starts_with "## Needs Reply" (line_of f) = false
  /\ starts_with "## Awaiting Reply" (line_of f) = false
  /\ starts_with "## Needs Action" (line_of f) = false
  /\ starts_with "- [ ]" (line_of f) = true.
Proof. unfold line_of. destruct (Tracked.type f); repeat split. Qed.

Lemma line_of_late (f : Tracked.t) :
  Tracked.overdue f = true -> includes "overdue" (line_of f) = true.
Proof.
  intros H. apply overdueTag_includes in H. unfold line_of.
  destruct (Tracked.type f);
    unfold needs_reply_line, awaiting_reply_line, needs_action_line;
    repeat (apply includes_app_l; try exact H).
Qed.

(** *** The reader's loop *)

Lemma read_items (ty : FollowUp.FollowUpType) (l : list Tracked.t) :
  forall s,
    fold_left read_line (map line_of l) (Some ty, s)
    = (Some ty,
       bump ty (List.length l)
         (List.length (filter (fun f => includes "overdue" (line_of f)) l)) s).
Proof.
  induction l as [|f l IH]; intros s.
  - destruct ty, s; reflexivity.
  - cbn [map fold_left filter]. unfold read_line at 2.
    destruct (line_of_item f) as (H1 & H2 & H3 & H4).
    rewrite H1, H2, H3, H4, IH.
    destruct (includes "overdue" (line_of f)), ty, s; cbn; f_equal; f_equal;
      lia.
Qed.

Lemma of_type_split (p : Tracked.t -> bool) (l : list Tracked.t) :
  List.length (filter p l)
  = List.length (filter p (of_type FollowUp.needs_reply l))
    + List.length (filter p (of_type FollowUp.awaiting_reply l))
    + List.length (filter p (of_type FollowUp.needs_action l)).
Proof.
  unfold of_type. induction l as [|f l IH]; [reflexivity|].
  cbn [filter]. destruct (Tracked.type f); cbn [FollowUpType_eqb filter];
    destruct (p f); cbn [List.length]; lia.
Qed.

Lemma filter_length_le {A} (p : A -> bool) (l : list A) :
  List.length (filter p l) <= List.length l.
Proof.
  induction l as [|x l IH]; simpl; auto. destruct (p x); simpl; lia.
Qed.

Lemma filter_length_mono {A} (p q : A -> bool) (l : list A) :
  (forall x, p x = true -> q x = true) ->
  List.length (filter p l) <= List.length (filter q l).
Proof.
  intros H. induction l as [|x l IH]; simpl; auto.
  destruct (p x) eqn:E.
  - rewrite (H x E). simpl. lia.
  - destruct (q x); simpl; lia.
Qed.

Lemma lines_no_lf (l : list Tracked.t) :
  forallb single_line l = true -> forallb no_lf (map line_of l) = true.
Proof.
  induction l as [|f l IH]; [reflexivity|]. cbn [forallb map].
  intros H. apply andb_prop in H as [Hf H].
  now rewrite line_of_no_lf, IH.
Qed.

Lemma forallb_filter {A} (p q : A -> bool) (l : list A) :
  forallb p l = true -> forallb p (filter q l) = true.
Proof.
  induction l as [|x l IH]; [reflexivity|]. cbn [forallb filter].
  intros H. apply andb_prop in H as [Hx H].
  destruct (q x); cbn [forallb]; rewrite ?Hx; auto.
Qed.

(** What the reader finds in a file the writer stored. *)
Lemma read_written (now : string) (l : list Tracked.t) :
  no_lf now = true -> forallb single_line l = true ->
  let late ty :=
    List.length (filter (fun f => includes "overdue" (line_of f))
                   (of_type ty l)) in
  readFollowUpsFromVault (Some (writeFollowUpsFile now l))
  = mkStats (List.length (of_type FollowUp.needs_reply l))
      (List.length (of_type FollowUp.awaiting_reply l))
      (List.length (of_type FollowUp.needs_action l))
      (late FollowUp.needs_action
       + (late FollowUp.awaiting_reply + late FollowUp.needs_reply)).
Proof.
  intros Hnow Hl. cbv zeta.
  unfold readFollowUpsFromVault, writeFollowUpsFile.
  rewrite (of_type_lines FollowUp.needs_reply),
    (of_type_lines FollowUp.awaiting_reply),
    (of_type_lines FollowUp.needs_action).
  rewrite split_join.
  - rewrite !fold_left_app. cbn [fold_left].
    unfold read_line at 9 10 11 12 13 14.
    replace (starts_with "## Needs Reply" ("updated_at: " ++ now))
      with false by reflexivity.
    replace (starts_with "## Awaiting Reply" ("updated_at: " ++ now))
      with false by reflexivity.
    replace (starts_with "## Needs Action" ("updated_at: " ++ now))
      with false by reflexivity.
    replace (starts_with "- [ ]" ("updated_at: " ++ now))
      with false by reflexivity.
    cbn -[of_type line_of includes]. rewrite read_items.
    cbn -[of_type line_of includes]. rewrite read_items.
    cbn -[of_type line_of includes]. rewrite read_items.
    cbn -[of_type line_of includes]. rewrite !Nat.add_0_r. reflexivity.
  - discriminate.
  - rewrite !forallb_app. cbn [forallb]. rewrite no_lf_app, Hnow.
    rewrite !lines_no_lf by (now apply forallb_filter). reflexivity.
Qed.

End TrackerFacts.

Import TrackerFacts.

Module RefreshFacts.

Import Tracker.

Lemma or_default_truthy (x : option string) :
  or_default (truthy x) "" = or_default x "".
Proof. destruct x as [[|c s]|]; reflexivity. Qed.

Lemma subject_no_lf (x : option string) :
  no_lf (or_default x "") = true ->
  no_lf (or_default (truthy x) "(no subject)") = true.
Proof. destruct x as [[|c s]|]; auto. Qed.

Section Messages.

Variable parse : string -> option Z.
Variables (now : Z) (nowIso : string).

Lemma needs_reply_single (m : GmailMessage.t) :
  single_line_message m = true ->
  single_line (needs_reply_of parse now nowIso m) = true.
Proof.
  unfold single_line_message, single_line. intros H.
  apply andb_prop in H as [H _]. apply andb_prop in H as [H H3].
  apply andb_prop in H as [H1 H2].
  cbn [Tracked.subject Tracked.type Tracked.from needs_reply_of show_party
       or_default].
  rewrite subject_no_lf by assumption. cbn [andb].
  apply forall_chars_trim. unfold no_lf in *.
  rewrite !forall_chars_app, !or_default_truthy, H2, H3. reflexivity.
Qed.

Lemma awaiting_reply_single (m : GmailMessage.t) :
  single_line_message m = true ->
  single_line (awaiting_reply_of parse now nowIso m) = true.
Proof.
  unfold single_line_message, single_line. intros H.
  apply andb_prop in H as [H H4]. apply andb_prop in H as [H _].
  apply andb_prop in H as [H1 _].
  cbn [Tracked.subject Tracked.type Tracked.to awaiting_reply_of show_party
       or_default].
  rewrite subject_no_lf by assumption. cbn [andb].
  now rewrite or_default_truthy.
Qed.

Lemma followUps_single (toRespond awaiting : list GmailMessage.t) :
  forallb single_line_message (toRespond ++ awaiting) = true ->
  forallb single_line (followUps parse now nowIso toRespond awaiting) = true.
Proof.
  unfold followUps. rewrite !forallb_app.
  intros H. apply andb_prop in H as [H1 H2].
  rewrite forallb_forall in H1, H2.
  apply andb_true_intro. split; apply forallb_forall; intros f Hf;
    apply in_map_iff in Hf as (m & <- & Hm);
    auto using needs_reply_single, awaiting_reply_single.
Qed.

Lemma of_type_followUps (toRespond awaiting : list GmailMessage.t) :
  of_type FollowUp.needs_reply (followUps parse now nowIso toRespond awaiting)
  = map (needs_reply_of parse now nowIso) toRespond
  /\ of_type FollowUp.awaiting_reply
       (followUps parse now nowIso toRespond awaiting)
     = map (awaiting_reply_of parse now nowIso) awaiting
  /\ of_type FollowUp.needs_action
       (followUps parse now nowIso toRespond awaiting)
     = [].
Proof.
  unfold of_type, followUps. rewrite !filter_app.
  assert (Ha : forall ty l,
             filter (fun f => FollowUpType_eqb (Tracked.type f) ty)
               (map (needs_reply_of parse now nowIso) l)
             = if FollowUpType_eqb FollowUp.needs_reply ty
               then map (needs_reply_of parse now nowIso) l else []).
  { intros ty l. induction l as [|m l IH]; [now destruct ty|].
    cbn [map filter needs_reply_of Tracked.type]. rewrite IH.
    now destruct ty. }
  assert (Hb : forall ty l,
             filter (fun f => FollowUpType_eqb (Tracked.type f) ty)
               (map (awaiting_reply_of parse now nowIso) l)
             = if FollowUpType_eqb FollowUp.awaiting_reply ty
               then map (awaiting_reply_of parse now nowIso) l else []).
  { intros ty l. induction l as [|m l IH]; [now destruct ty|].
    cbn [map filter awaiting_reply_of Tracked.type]. rewrite IH.
    now destruct ty. }
  rewrite !Ha, !Hb. cbn [FollowUpType_eqb]. rewrite !app_nil_r.
  auto.
Qed.

End Messages.

Lemma filter_partition_length {A} (p : A -> bool) (l : list A) :
  List.length (filter (fun x => negb (p x)) l) + List.length (filter p l)
  = List.length l.
Proof.
  induction l as [|x l IH]; [reflexivity|]. simpl.
  destruct (p x); simpl; lia.
Qed.

(** What the summary starts with when there is something to say. *)
Lemma summary_head (s : Stats) :
  (summary_parts s = []
   /\ needsReply s = 0 /\ awaitingReply s = 0 /\ needsAction s = 0
   /\ overdueLines s = 0)
  \/ (exists p ps c rest,
        summary_parts s = p :: ps
        /\ join_parts (p :: ps) = String c rest /\ is_digit c = true).
Proof.
  destruct s as [a b c d]. unfold summary_parts.
  cbn [needsReply awaitingReply needsAction overdueLines].
  destruct a as [|a], b as [|b], c as [|c], d as [|d];
    [left; auto|right..];
    cbn [Nat.ltb Nat.leb app];
    repeat match goal with
           | |- context [show_nat (S ?n)] =>
               let E := fresh "E" in
               destruct (show_nat_head (S n)) as (? & ? & E & ?);
               rewrite E; clear E
           end;
    do 4 eexists; (split; [reflexivity|]);
    cbn [join_parts append]; eauto.
Qed.

End RefreshFacts.

Import RefreshFacts.

(* ================================================================== *)
(** ** The follow-ups file                                             *)
(* ================================================================== *)

(** X21 (writeFollowUpsFile, then readFollowUpsFromVault).  When the time
    stamp and, for every follow-up, the subject and the party its line
    prints hold no line feed, the reader finds in the written file as many
    needs-reply, awaiting-reply and needs-action entries as there are
    follow-ups of each type; the number of overdue entries it finds is at
    least the number of overdue follow-ups and at most the number of
    follow-ups (it counts the lines in which the word overdue occurs,
    wherever in the line). *)
Theorem follow_ups_read_back (now : string) (l : list Tracked.t) :
  no_lf now = true -> forallb single_line l = true ->
  let stats :=
    Tracker.readFollowUpsFromVault (Some (Tracker.writeFollowUpsFile now l)) in
  Tracker.needsReply stats
  = List.length (Tracker.of_type FollowUp.needs_reply l)
  /\ Tracker.awaitingReply stats
     = List.length (Tracker.of_type FollowUp.awaiting_reply l)
  /\ Tracker.needsAction stats
     = List.length (Tracker.of_type FollowUp.needs_action l)
  /\ List.length (filter Tracked.overdue l) <= Tracker.overdueLines stats
  /\ Tracker.overdueLines stats <= List.length l.
Proof.
  intros Hnow Hl. cbv zeta. rewrite (read_written now l Hnow Hl). cbv zeta.
  cbn [Tracker.needsReply Tracker.awaitingReply Tracker.needsAction
       Tracker.overdueLines].
  split; [reflexivity|]. split; [reflexivity|]. split; [reflexivity|].
  split.
  - rewrite (of_type_split Tracked.overdue l).
    pose proof (fun ty =>
                  filter_length_mono Tracked.overdue
                    (fun f => includes "overdue" (line_of f))
                    (Tracker.of_type ty l) line_of_late) as H.
    pose proof (H FollowUp.needs_reply).
    pose proof (H FollowUp.awaiting_reply).
    pose proof (H FollowUp.needs_action). lia.
  - pose proof (of_type_split (fun _ => true) l) as Hsplit.
    assert (Hall : forall l' : list Tracked.t,
               filter (fun _ => true) l' = l')
      by (induction l' as [|x l' IH]; simpl; congruence).
    rewrite !Hall in Hsplit. rewrite Hsplit.
    pose proof (fun ty =>
                  filter_length_le (fun f => includes "overdue" (line_of f))
                    (Tracker.of_type ty l)) as H.
    pose proof (H FollowUp.needs_reply).
    pose proof (H FollowUp.awaiting_reply).
    pose proof (H FollowUp.needs_action). lia.
Qed.

Lemma follow_ups_read_back_witness :
  let l :=
    [ Tracked.mk FollowUp.needs_reply "Budget" (Some "Ann <ann@example.org>")
        None "m1" None "2026-10-30T09:00:00.000Z" (Some 3%Z) true;
      Tracked.mk FollowUp.awaiting_reply "Re: overdue invoice" None
        (Some "bob@example.org") "m2" None "2026-11-01T09:00:00.000Z"
        (Some 1%Z) false ] in
  let stats :=
    Tracker.readFollowUpsFromVault
      (Some (Tracker.writeFollowUpsFile "2026-11-02T10:00:00.000Z" l)) in
  Tracker.needsReply stats
  = List.length (Tracker.of_type FollowUp.needs_reply l)
  /\ Tracker.awaitingReply stats
     = List.length (Tracker.of_type FollowUp.awaiting_reply l)
  /\ Tracker.needsAction stats
     = List.length (Tracker.of_type FollowUp.needs_action l)
  /\ List.length (filter Tracked.overdue l) <= Tracker.overdueLines stats
  /\ Tracker.overdueLines stats <= List.length l.
Proof.
  apply (follow_ups_read_back "2026-11-02T10:00:00.000Z"
           [ Tracked.mk FollowUp.needs_reply "Budget"
               (Some "Ann <ann@example.org>")
               None "m1" None "2026-10-30T09:00:00.000Z" (Some 3%Z) true;
             Tracked.mk FollowUp.awaiting_reply "Re: overdue invoice" None
               (Some "bob@example.org") "m2" None "2026-11-01T09:00:00.000Z"
               (Some 1%Z) false ]);
    reflexivity.
Defined.

(** Why the overdue count read back is bounded from below only, and why
    the printed fields must hold no line feed: an entry whose subject holds
    the word overdue is counted as overdue, and a subject with a line that
    looks like an entry is counted as an entry more. *)
Example subject_text_is_counted :
  let file subject :=
    Tracker.writeFollowUpsFile "2026-11-02T10:00:00.000Z"
      [ Tracked.mk FollowUp.awaiting_reply subject None
          (Some "bob@example.org") "m2" None "2026-11-01T09:00:00.000Z"
          (Some 1%Z) false ] in
  Tracker.readFollowUpsFromVault (Some (file "Re: overdue invoice"))
  = Tracker.mkStats 0 1 0 1
  /\ Tracker.getFollowUpSummary (Some (file "Re: overdue invoice"))
     = "1 awaiting reply, 1 overdue"
  /\ Tracker.readFollowUpsFromVault
       (Some (file ("Notes" ++ nl ++ "- [ ] call back")))
     = Tracker.mkStats 0 2 0 0.
Proof. repeat split; vm_compute; reflexivity. Qed.

(** X22 (refreshFollowUps).  Every message of the two searches is counted
    once, as pending or as overdue, and resolved is always zero.  When the
    time stamp and the subject, sender and recipient of every message hold no
    line feed, the file the call writes reads back with one needs-reply
    entry per message of the first search, one awaiting-reply entry per
    message of the second, no needs-action entry, and at least as many
    overdue entries as the call returns. *)
Theorem refresh_counts_every_message (parse : string -> option Z) (now : Z)
    (nowIso : string) (toRespond awaiting : list GmailMessage.t) :
  let result :=
    Tracker.refreshFollowUps parse now nowIso toRespond awaiting in
  let stats := Tracker.readFollowUpsFromVault (Some (fst result)) in
  Tracker.pending (snd result) + Tracker.overdue (snd result)
  = List.length toRespond + List.length awaiting
  /\ Tracker.resolved (snd result) = 0
  /\ (no_lf nowIso = true ->
      forallb single_line_message (toRespond ++ awaiting) = true ->
      Tracker.needsReply stats = List.length toRespond
      /\ Tracker.awaitingReply stats = List.length awaiting
      /\ Tracker.needsAction stats = 0
      /\ Tracker.overdue (snd result) <= Tracker.overdueLines stats).
Proof.
  cbv zeta. unfold Tracker.refreshFollowUps.
  cbn [fst snd Tracker.pending Tracker.overdue Tracker.resolved].
  set (l := Tracker.followUps parse now nowIso toRespond awaiting).
  split; [|split; [reflexivity|]].
  - rewrite filter_partition_length. unfold l, Tracker.followUps.
    now rewrite length_app, !length_map.
  - intros Hnow Hm.
    pose proof (followUps_single parse now nowIso _ _ Hm) as Hl. fold l in Hl.
    destruct (of_type_followUps parse now nowIso toRespond awaiting)
      as (E1 & E2 & E3). fold l in E1, E2, E3.
    rewrite (read_written nowIso l Hnow Hl). cbv zeta.
    cbn [Tracker.needsReply Tracker.awaitingReply Tracker.needsAction
         Tracker.overdueLines].
    rewrite E1, E2, E3, !length_map.
    split; [reflexivity|]. split; [reflexivity|]. split; [reflexivity|].
    rewrite (of_type_split Tracked.overdue l), E1, E2, E3.
    pose proof (filter_length_mono Tracked.overdue
                  (fun f => includes "overdue" (line_of f))
                  (map (Tracker.needs_reply_of parse now nowIso) toRespond)
                  line_of_late).
    pose proof (filter_length_mono Tracked.overdue
                  (fun f => includes "overdue" (line_of f))
                  (map (Tracker.awaiting_reply_of parse now nowIso) awaiting)
                  line_of_late).
    cbn [filter List.length]. lia.
Qed.

(** X23 (getFollowUpSummary).  The summary is the sentence that nothing is
    pending exactly when the reader counts no entry of any section and no
    overdue entry; this is the case, in particular, when the follow-ups
    file does not exist. *)
Theorem summary_nothing_pending (file : option string) :
  let stats := Tracker.readFollowUpsFromVault file in
  (Tracker.getFollowUpSummary file = "No pending follow-ups."
   <-> Tracker.needsReply stats = 0 /\ Tracker.awaitingReply stats = 0
       /\ Tracker.needsAction stats = 0 /\ Tracker.overdueLines stats = 0)
  /\ Tracker.getFollowUpSummary None = "No pending follow-ups.".
Proof.
  cbv zeta. split; [|reflexivity]. unfold Tracker.getFollowUpSummary.
  destruct (summary_head (Tracker.readFollowUpsFromVault file))
    as [(E & H)|(p & ps & c & rest & E & Ej & Hd)].
  - rewrite E. split; auto.
  - rewrite E, Ej. split.
    + intros [= -> _]. discriminate.
    + intros (H1 & H2 & H3 & H4).
      unfold Tracker.summary_parts in E. rewrite H1, H2, H3, H4 in E.
      discriminate.
Qed.

(* ================================================================== *)
(** ** Follow-up staleness over time                                   *)
(* ================================================================== *)

(** X24 (isOverdue as time passes).  A follow-up that is overdue stays
    overdue at every later instant, and one dated [t] is overdue exactly from
    the instant at which one whole day more than the threshold of its type
    has elapsed since [t]. *)
Theorem overdue_stays_overdue (ty : FollowUp.FollowUpType) (now now' : Z)
    (d : option Z) :
  (now <= now')%Z ->
  (FollowUp.isOverdue ty now d = true -> FollowUp.isOverdue ty now' d = true)
  /\ (forall t,
        FollowUp.isOverdue ty now (Some t) = true
        <-> ((FollowUp.OVERDUE_THRESHOLDS ty + 1) * FollowUp.MS_PER_DAY
             <= now - t)%Z).
Proof.
  intros Hle.
  assert (Hpos : (0 < FollowUp.MS_PER_DAY)%Z) by reflexivity.
  assert (Hiff : forall n t,
             FollowUp.isOverdue ty n (Some t) = true
             <-> ((FollowUp.OVERDUE_THRESHOLDS ty + 1) * FollowUp.MS_PER_DAY
                  <= n - t)%Z).
  { intros n t. unfold FollowUp.isOverdue, FollowUp.daysAgo.
    rewrite Z.ltb_lt. split; intros H.
    - pose proof (Z.mul_div_le (n - t) FollowUp.MS_PER_DAY Hpos). nia.
    - assert (FollowUp.OVERDUE_THRESHOLDS ty + 1
              <= (n - t) / FollowUp.MS_PER_DAY)%Z
        by (apply Z.div_le_lower_bound; lia).
      lia. }
  split; [|intros t; apply Hiff].
  destruct d as [t|]; [|discriminate].
  rewrite !Hiff. lia.
Qed.

Lemma overdue_stays_overdue_witness :
  (FollowUp.isOverdue FollowUp.needs_reply 200000000 (Some 0%Z) = true ->
   FollowUp.isOverdue FollowUp.needs_reply 300000000 (Some 0%Z) = true)
  /\ (forall t,
        FollowUp.isOverdue FollowUp.needs_reply 200000000 (Some t) = true
        <-> ((FollowUp.OVERDUE_THRESHOLDS FollowUp.needs_reply + 1)
             * FollowUp.MS_PER_DAY <= 200000000 - t)%Z).
Proof.
  apply (overdue_stays_overdue FollowUp.needs_reply 200000000 300000000
           (Some 0%Z)).
  lia.
Defined.

(* ================================================================== *)
(** ** Lookup, listing of files, and repeated creation                 *)
(* ================================================================== *)

Module LookupFacts.


Lemma create_taken (dir : Folder) (now : string) (params : CreateParams.t) :
  Fs.exists_ BOARD dir = true ->
  Fs.exists_ (sanitizeFilename (CreateParams.title params)) dir = true ->
  createTask dir now params
  = (dir,
     ErrorResult ("Task " ++ quote
                  ++ sanitizeFilename (CreateParams.title params)
                  ++ quote ++ " already exists")).
Proof.
  intros Hb Ht. unfold createTask. rewrite (ensure_present dir Hb).
  now rewrite Ht.
Qed.

Lemma exists_addToBoard (dir : Folder) (k t : string) (st : Status)
    (d : option string) :
  Fs.exists_ k dir = true -> Fs.exists_ k (addToBoard dir t st d) = true.
Proof.
  unfold Fs.exists_, addToBoard, writeBoardFile. intros H.
  destruct (String.eqb_spec k BOARD) as [->|Hne].
  - now rewrite read_write_same.
  - now rewrite read_write_other.
Qed.

Lemma exists_write (dir : Folder) (k k' : string) (f : MdFile) :
  Fs.exists_ k dir = true -> Fs.exists_ k (Fs.write k' f dir) = true.
Proof.
  unfold Fs.exists_. intros H.
  destruct (String.eqb_spec k k') as [->|Hne].
  - now rewrite read_write_same.
  - now rewrite read_write_other.
Qed.

Lemma created_exists (dir : Folder) (now : string) (params : CreateParams.t) :
  let dir' := fst (createTask dir now params) in
  Fs.exists_ BOARD dir' = true
  /\ Fs.exists_ (sanitizeFilename (CreateParams.title params)) dir' = true.
Proof.
  cbv zeta. unfold createTask.
  destruct (Fs.exists_ _ (ensureVaultStructure dir)) eqn:E; cbn [fst].
  - split; [apply ensure_board_exists|exact E].
  - split; apply exists_addToBoard.
    + unfold writeTaskFile. apply exists_write, ensure_board_exists.
    + unfold writeTaskFile, Fs.exists_. now rewrite read_write_same.
Qed.

End LookupFacts.

Import LookupFacts.

(** X25 (findTaskByTitle).  A lookup that succeeds returns the parse of an
    existing file: the file named by the sanitized id when there is one, and
    otherwise a task file, not the board file, whose title equals the id
    without regard to case.  A lookup fails only when no file is named by
    the sanitized id and no listed task has a title equal to the id without
    regard to case. *)
Theorem lookup_spec (dir : Folder) (now taskId : string) :
  match findTaskByTitle dir now taskId with
  | Some task =>
      parseTaskFile dir now (ParsedTask.filePath task) = Some task
      /\ if Fs.exists_ (sanitizeFilename taskId) dir
         then ParsedTask.filePath task = sanitizeFilename taskId
         else ParsedTask.filePath task <> BOARD
              /\ toLowerCase (ParsedTask.title task) = toLowerCase taskId
  | None =>
      Fs.exists_ (sanitizeFilename taskId) dir = false
      /\ forall task, In task (listTaskFiles dir now) ->
           toLowerCase (ParsedTask.title task) <> toLowerCase taskId
  end.
Proof.
  destruct (findTaskByTitle dir now taskId) as [task|] eqn:H.
  - split; [now apply (find_parse dir now taskId)|].
    unfold findTaskByTitle in H.
    destruct (Fs.exists_ (sanitizeFilename taskId) dir) eqn:E.
    + destruct (parse_listed dir now _ E) as (task0 & Hp & Hpath & _).
      rewrite Hp in H. now inversion H; subst.
    + apply find_some in H as [Hin Heq].
      apply String.eqb_eq in Heq. split; [|exact Heq].
      now apply listed_exists in Hin.
  - unfold findTaskByTitle in H.
    destruct (Fs.exists_ (sanitizeFilename taskId) dir) eqn:E.
    + destruct (parse_listed dir now _ E) as (task0 & Hp & _).
      congruence.
    + split; [reflexivity|]. intros task Hin Heq.
      pose proof (find_none _ _ H task Hin) as Hn. cbv beta in Hn.
      rewrite Heq, String.eqb_refl in Hn. discriminate.
Qed.


(** X27 (createTask after createTask).  Once a creation call has returned,
    with either answer, every creation call for a title that is sanitized to
    the same file name is refused with the already-exists error and leaves
    the folder exactly as it was. *)
Theorem create_again_is_refused (dir : Folder) (now now' : string)
    (params params' : CreateParams.t) :
  sanitizeFilename (CreateParams.title params')
  = sanitizeFilename (CreateParams.title params) ->
  createTask (fst (createTask dir now params)) now' params'
  = (fst (createTask dir now params),
     ErrorResult ("Task " ++ quote
                  ++ sanitizeFilename (CreateParams.title params)
                  ++ quote ++ " already exists")).
Proof.
  intros E. destruct (created_exists dir now params) as [Hb Ht].
  cbv zeta in Hb, Ht. rewrite <- E in Ht.
  rewrite create_taken by assumption. now rewrite E.
Qed.

Lemma create_again_is_refused_witness :
  createTask
    (fst (createTask sample_vault "2026-02-10T08:00:00.000Z"
            (title_only "Call: Ann?")))
    "2026-02-11T08:00:00.000Z" (title_only " Call Ann ")
  = (fst (createTask sample_vault "2026-02-10T08:00:00.000Z"
            (title_only "Call: Ann?")),
     ErrorResult ("Task " ++ quote ++ sanitizeFilename "Call: Ann?"
                  ++ quote ++ " already exists")).
Proof.
  apply (create_again_is_refused sample_vault "2026-02-10T08:00:00.000Z"
           "2026-02-11T08:00:00.000Z" (title_only "Call: Ann?")
           (title_only " Call Ann ")).
  reflexivity.
Defined.

(* ================================================================== *)
(** ** Facts about projects                                            *)
(* ================================================================== *)

Module ProjectFacts.














End ProjectFacts.

Import ProjectFacts.

(* ================================================================== *)
(** ** Projects                                                        *)
(* ================================================================== *)


